(** * ProjectManager: a shallow embedding of [project_manager.py]

    The development models the [ProjectManager] class of the repository:
    the directory scan and its statistics, the tree listing, the
    pattern-based copy and delete operations, the classification of file
    extensions and the human-readable size formatting.

    Modelling conventions.
    - A file name is a byte string (the UTF-8 encoding of the Python
      string); comparing such strings byte by byte agrees with Python's
      comparison by code points.  [Str.lower] changes the ASCII letters
      only: it is [str.lower()] on strings of ASCII characters.
    - A filesystem is a tree of regular files and directories; symbolic
      links and special files are outside the model.  A directory keeps
      its entries as an association list, in the order in which the
      operating system lists them.
    - A path is the list of its components below the filesystem root.
      The limits of the system on the length of a path and of a name
      are modelled where the constructor tests the existence of the
      root; the other operations work on paths within these limits, and
      on entries they are permitted to read.
    - Python's unbounded [int] is [Z], [N] or [nat]; a [float] is a dyadic
      rational with the rounding of binary64 written out where the code
      can reach it.
    - An operation that can raise returns in an error monad; an
      operation that changes the filesystem threads it as state, and the
      state survives a raised exception, as it does in Python. *)

From Stdlib Require Import ZArith NArith List Ascii String Lia.
From Stdlib Require Import Strings.Byte.
From stdpp Require Import gmap strings list pretty sorting.

Local Open Scope Z_scope.
Set Warnings "-register-all".

(** ** Exceptions *)

(** [OSError] stands for the errors of a system call that have no
    subclass of their own; the one that occurs here is ENAMETOOLONG. *)
Inductive exn : Type :=
  | ValueError
  | OverflowError
  | OSError
  | FileNotFoundError
  | FileExistsError
  | IsADirectoryError
  | NotADirectoryError.

Inductive result (A : Type) : Type :=
  | Ok (a : A)
  | Raise (e : exn).

Arguments Ok {A} a.
Arguments Raise {A} e.

Definition rbind {A B : Type} (r : result A) (k : A -> result B) : result B :=
  match r with
  | Ok a => k a
  | Raise e => Raise e
  end.

Notation "x <-? r ; k" := (rbind r (fun x => k))
  (at level 100, r at next level, right associativity).

(** ** Strings *)

Module Str.

(** [s.startswith('.')] *)
Definition starts_with_dot (s : string) : bool :=
  match s with
  | String "." _ => true
  | _ => false
  end.

(** [str.lower] on the ASCII letters; every other byte is kept. *)
Definition lower_ascii (c : ascii) : ascii :=
  let n := nat_of_ascii c in
  if ((65 <=? n)%nat && (n <=? 90)%nat)%bool then ascii_of_nat (n + 32) else c.

Fixpoint lower (s : string) : string :=
  match s with
  | EmptyString => EmptyString
  | String c s' => String (lower_ascii c) (lower s')
  end.

(** Whether every byte is an ASCII character: on such a string [lower]
    is [str.lower()]. *)
Fixpoint is_ascii (s : string) : bool :=
  match s with
  | EmptyString => true
  | String c s' => (nat_of_ascii c <? 128)%nat && is_ascii s'
  end.

(** ['\0' in s] *)
Fixpoint has_nul (s : string) : bool :=
  match s with
  | EmptyString => false
  | String c s' => Ascii.eqb c "000" || has_nul s'
  end.

(** [s.rfind(c)]: the index of the last occurrence, [None] for [-1]. *)
Fixpoint rfind (c : ascii) (s : string) : option nat :=
  match s with
  | EmptyString => None
  | String a s' =>
      match rfind c s' with
      | Some i => Some (S i)
      | None => if Ascii.eqb a c then Some 0%nat else None
      end
  end.

(** ['sep'.join(parts)] *)
Definition join (sep : string) (parts : list string) : string :=
  String.concat sep parts.

(** The line feed, ['\n']. *)
Definition newline : string := String "010" EmptyString.

End Str.

(** ** Numbers: [int], [float] and the [.1f] format *)

Module Num.

(** A finite binary64 value [fm * 2 ^ fe]. *)
Record float : Type := mkFloat { fm : Z; fe : Z }.

Inductive pynum : Type :=
  | PyInt (n : Z)
  | PyFloat (f : float).

(** Round half to even of [num / den], for [0 <= num] and [0 < den]. *)
Definition round_half_even (num den : Z) : Z :=
  let q := num / den in
  let r := num mod den in
  match (2 * r) ?= den with
  | Lt => q
  | Gt => q + 1
  | Eq => if Z.even q then q else q + 1
  end.

(** The nearest value with a 53-bit significand (ties to even) of a
    non-negative integer, and of any integer by symmetry. *)
Definition round53_nonneg (n : Z) : float :=
  if n <? 2 ^ 53 then mkFloat n 0
  else
    let sh := Z.log2 n - 52 in
    mkFloat (round_half_even n (2 ^ sh)) sh.

Definition round53 (n : Z) : float :=
  if n <? 0 then
    let f := round53_nonneg (- n) in mkFloat (- fm f) (fe f)
  else round53_nonneg n.

(** A magnitude of [2 ^ 1024] or more is not a binary64 value. *)
Definition overflows (f : float) : bool :=
  if fe f <? 0 then 2 ^ 1024 * 2 ^ (- fe f) <=? Z.abs (fm f)
  else 2 ^ 1024 <=? Z.abs (fm f) * 2 ^ fe f.

Definition checked (f : float) : result float :=
  if overflows f then Raise OverflowError else Ok f.

(** [float(n)] *)
Definition float_of_int (n : Z) : result float := checked (round53 n).

(** [x < 1024] *)
Definition float_lt_1024 (f : float) : bool :=
  if fe f <? 0 then fm f <? 1024 * 2 ^ (- fe f)
  else fm f * 2 ^ fe f <? 1024.

Definition lt_1024 (x : pynum) : bool :=
  match x with
  | PyInt n => n <? 1024
  | PyFloat f => float_lt_1024 f
  end.

(** [x / 1024].  For an [int] Python rounds the exact quotient once;
    for a [float] of magnitude at least 1 the division by a power of
    two is exact. *)
Definition div_1024 (x : pynum) : result pynum :=
  match x with
  | PyInt n =>
      let f := round53 n in
      f' <-? checked (mkFloat (fm f) (fe f - 10)); Ok (PyFloat f')
  | PyFloat f => Ok (PyFloat (mkFloat (fm f) (fe f - 10)))
  end.

(** The digits of [num / den] rounded to one decimal place, ties to
    even, for [0 <= num] and [0 < den]. *)
Definition one_decimal (num den : Z) : string :=
  let tenths := round_half_even (10 * num) den in
  pretty (tenths / 10) +:+ "." +:+ pretty (tenths mod 10).

(** [f"{x:.1f}"] for a [float]. *)
Definition format_float_1f (f : float) : string :=
  let sign := if fm f <? 0 then "-" else EmptyString in
  let m := Z.abs (fm f) in
  sign +:+ (if fe f <? 0 then one_decimal m (2 ^ (- fe f))
            else one_decimal (m * 2 ^ fe f) 1).

(** [f"{x:.1f}"]: an [int] is converted to [float] first. *)
Definition format_1f (x : pynum) : result string :=
  match x with
  | PyInt n => f <-? float_of_int n; Ok (format_float_1f f)
  | PyFloat f => Ok (format_float_1f f)
  end.

End Num.

(** ** Classification of extensions and formatting of sizes *)

(** The class constant [FILE_TYPES]: a dict, iterated in insertion order. *)
Definition FILE_TYPES : list (string * list string) :=
  [ ("python", [".py"]);
    ("javascript", [".js"; ".ts"; ".jsx"; ".tsx"]);
    ("web", [".html"; ".css"; ".scss"; ".less"]);
    ("config", [".json"; ".yaml"; ".yml"; ".toml"; ".ini"; ".cfg"]);
    ("markdown", [".md"; ".rst"; ".txt"]);
    ("data", [".csv"; ".json"; ".xml"; ".sql"]);
    ("image", [".png"; ".jpg"; ".jpeg"; ".gif"; ".svg"; ".ico"]);
    ("archive", [".zip"; ".tar"; ".gz"; ".rar"; ".7z"]) ].

(** [suffix in extensions] *)
Definition mem_string (s : string) (l : list string) : bool :=
  existsb (String.eqb s) l.

(** The loop of [_get_file_type] over the items of a table. *)
Fixpoint first_type (table : list (string * list string)) (suffix : string)
  : string :=
  match table with
  | [] => "other"
  | (file_type, extensions) :: rest =>
      if mem_string suffix extensions then file_type
      else first_type rest suffix
  end.

Definition _get_file_type (suffix : string) : string :=
  first_type FILE_TYPES (Str.lower suffix).

(** The loop of [_format_size] over the units. *)
Fixpoint format_units (units : list string) (size : Num.pynum)
  : result string :=
  match units with
  | [] => s <-? Num.format_1f size; Ok (s +:+ " TB")
  | unit :: rest =>
      if Num.lt_1024 size then
        s <-? Num.format_1f size; Ok (s +:+ " " +:+ unit)
      else
        size' <-? Num.div_1024 size; format_units rest size'
  end.

Definition _format_size (size : Z) : result string :=
  format_units ["B"; "KB"; "MB"; "GB"] (Num.PyInt size).

(** ** The filesystem *)

Definition path : Type := list string.

Inductive node : Type :=
  | File (content : list byte)
  | Dir (entries : list (string * node)).

(** Induction over a tree, with the hypothesis for every entry of a
    directory. *)
Fixpoint node_ind' (P : node -> Prop)
    (HFile : forall content, P (File content))
    (HDir : forall entries, Forall (fun e => P (snd e)) entries -> P (Dir entries))
    (n : node) {struct n} : P n :=
  match n with
  | File content => HFile content
  | Dir entries =>
      HDir entries
        ((fix all (es : list (string * node)) : Forall (fun e => P (snd e)) es :=
            match es with
            | [] => List.Forall_nil _
            | e :: es' =>
                List.Forall_cons _ e es' (node_ind' P HFile HDir (snd e)) (all es')
            end) entries)
  end.

Module Fs.

Definition is_dir (n : node) : bool :=
  match n with Dir _ => true | File _ => false end.

Definition is_file (n : node) : bool :=
  match n with File _ => true | Dir _ => false end.

(** [stat().st_size] of a regular file. *)
Definition st_size (content : list byte) : N := N.of_nat (length content).

(** The entry of a directory listing with a given name. *)
Fixpoint lookup_entry (name : string) (es : list (string * node))
  : option node :=
  match es with
  | [] => None
  | (x, n) :: es' => if String.eqb x name then Some n else lookup_entry name es'
  end.

Fixpoint update_entry (name : string) (n' : node) (es : list (string * node))
  : list (string * node) :=
  match es with
  | [] => []
  | (x, n) :: es' =>
      if String.eqb x name then (x, n') :: es'
      else (x, n) :: update_entry name n' es'
  end.

Fixpoint remove_entry (name : string) (es : list (string * node))
  : list (string * node) :=
  match es with
  | [] => []
  | (x, n) :: es' =>
      if String.eqb x name then es' else (x, n) :: remove_entry name es'
  end.

(** What a path names, as the system calls report it: a missing
    component is [ENOENT], a regular file used as a directory is
    [ENOTDIR]. *)
Fixpoint resolve_node (n : node) (p : path) : result node :=
  match p with
  | [] => Ok n
  | x :: p' =>
      match n with
      | File _ => Raise NotADirectoryError
      | Dir es =>
          match lookup_entry x es with
          | Some c => resolve_node c p'
          | None => Raise FileNotFoundError
          end
      end
  end.

Definition lookup (fs : node) (p : path) : option node :=
  match resolve_node fs p with
  | Ok n => Some n
  | Raise _ => None
  end.

(** [Path.name]: the last component, empty for the root. *)
Definition name (p : path) : string := List.last p EmptyString.

(** [str(path)] for a relative path. *)
Definition path_str (rel : path) : string :=
  match rel with
  | [] => "."
  | _ => Str.join "/" rel
  end.

(** [str(path)] for an absolute path. *)
Definition abs_str (p : path) : string := "/" +:+ Str.join "/" p.

(** The limits of the system: a path handed to a system call has fewer
    than [PATH_MAX] bytes, a name looked up in a directory at most
    [NAME_MAX]. *)
Definition PATH_MAX : nat := 4096.
Definition NAME_MAX : nat := 255.

(** The walk of [stat] along a path: it needs a directory to go on
    ([ENOTDIR]), refuses a name that is too long ([ENAMETOOLONG]), and
    then looks the name up ([ENOENT]). *)
Fixpoint stat_walk (n : node) (p : path) : result node :=
  match p with
  | [] => Ok n
  | x :: p' =>
      match n with
      | File _ => Raise NotADirectoryError
      | Dir es =>
          if (NAME_MAX <? String.length x)%nat then Raise OSError
          else
            match lookup_entry x es with
            | Some c => stat_walk c p'
            | None => Raise FileNotFoundError
            end
      end
  end.

(** [Path.stat()] of an absolute path: the length of the whole path is
    checked before the walk starts. *)
Definition stat (fs : node) (p : path) : result node :=
  if (PATH_MAX <=? String.length (abs_str p))%nat then Raise OSError
  else stat_walk fs p.

(** [Path.exists()]: of the errors of [stat], the missing entry and
    the file used as a directory mean that the path does not exist; any
    other error is raised again. *)
Definition exists_ (fs : node) (p : path) : result bool :=
  match stat fs p with
  | Ok _ => Ok true
  | Raise FileNotFoundError => Ok false
  | Raise NotADirectoryError => Ok false
  | Raise e => Raise e
  end.

(** [Path.suffix] *)
Definition suffix (p : path) : string :=
  let nm := name p in
  match Str.rfind "." nm with
  | Some i =>
      if ((0 <? i)%nat && (i <? String.length nm - 1)%nat)%bool
      then substring i (String.length nm - i) nm
      else EmptyString
  | None => EmptyString
  end.

(** [path.relative_to(root)] *)
Fixpoint relative_to (p root : path) {struct root} : result path :=
  match root with
  | [] => Ok p
  | r :: root' =>
      match p with
      | [] => Raise ValueError
      | x :: p' =>
          if String.eqb r x then relative_to p' root' else Raise ValueError
      end
  end.

(** Everything below the directory [n] found at [p], in the order of
    [p.rglob('*')]: the directories in pre-order, each one yielding
    its direct entries.  A yielded path comes with the entry the walk
    reached there. *)
Fixpoint walk (p : path) (n : node) : list (path * node) :=
  match n with
  | File _ => []
  | Dir es =>
      map (fun e => (p ++ [fst e], snd e)) es
      ++ flat_map (fun e => walk (p ++ [fst e]) (snd e)) es
  end.

(** [root.rglob('*')]; a root that is not a directory yields nothing. *)
Definition rglob_all (fs : node) (root : path) : list (path * node) :=
  match lookup fs root with
  | Some n => walk root n
  | None => []
  end.

End Fs.

(** ** The scan *)

Record file_info : Type := mkFileInfo { fi_path : string; fi_size : N }.

Record stats : Type := mkStats {
  total_files : nat;
  total_dirs : nat;
  total_size : N;
  by_type : gmap string nat;
  by_extension : gmap string nat;
  max_depth : nat;
  empty_dirs : list string;
  large_files : list file_info
}.

Definition stats_init : stats :=
  mkStats 0 0 0 ∅ ∅ 0 [] [].

(** [d[k] += 1] on a [defaultdict(int)] *)
Definition incr (k : string) (d : gmap string nat) : gmap string nat :=
  <[k := S (default 0%nat (d !! k))]> d.

Definition see_depth (depth : nat) (st : stats) : stats :=
  mkStats (total_files st) (total_dirs st) (total_size st) (by_type st)
    (by_extension st) (Nat.max (max_depth st) depth) (empty_dirs st)
    (large_files st).

(** The branch of the loop body for a regular file. *)
Definition see_file (p rel : path) (content : list byte) (st : stats)
  : stats :=
  let size := Fs.st_size content in
  let suffix := Str.lower (Fs.suffix p) in
  let file_type := _get_file_type suffix in
  mkStats (S (total_files st)) (total_dirs st) (total_size st + size)%N
    (incr file_type (by_type st)) (incr suffix (by_extension st))
    (max_depth st) (empty_dirs st)
    (if (1024 * 1024 <? size)%N
     then large_files st ++ [mkFileInfo (Fs.path_str rel) size]
     else large_files st).

(** The branch of the loop body for a directory. *)
Definition see_dir (rel : path) (entries : list (string * node)) (st : stats)
  : stats :=
  mkStats (total_files st) (S (total_dirs st)) (total_size st) (by_type st)
    (by_extension st) (max_depth st)
    (match entries with
     | [] => empty_dirs st ++ [Fs.path_str rel]
     | _ :: _ => empty_dirs st
     end)
    (large_files st).

(** One iteration of the loop of [scan_project], for the yielded path
    [p] whose part below the project root is [rel]. *)
Definition scan_entry (max_depth : Z) (p rel : path) (n : node) (st : stats)
  : stats :=
  if existsb Str.starts_with_dot rel then st
  else
    let depth := length rel in
    if Z.of_nat depth >? max_depth then st
    else
      let st := see_depth depth st in
      match n with
      | File content => see_file p rel content st
      | Dir entries => see_dir rel entries st
      end.

Fixpoint scan_loop (root : path) (max_depth : Z) (items : list (path * node))
    (st : stats) : result stats :=
  match items with
  | [] => Ok st
  | (p, n) :: rest =>
      rel <-? Fs.relative_to p root;
      scan_loop root max_depth rest (scan_entry max_depth p rel n st)
  end.

(** The object: its only attribute is the resolved root. *)
Record ProjectManager : Type := mkProjectManager { project_path : path }.

Definition scan_project (fs : node) (self : ProjectManager) (max_depth : Z)
  : result stats :=
  scan_loop (project_path self) max_depth
    (Fs.rglob_all fs (project_path self)) stats_init.

(** ** Well-formed filesystems

    The names listed in one directory are pairwise distinct, and a name
    is a non-empty string without a slash that is neither [.] nor [..]. *)

Module Wf.

Fixpoint has_slash (s : string) : bool :=
  match s with
  | EmptyString => false
  | String c s' => Ascii.eqb c "/" || has_slash s'
  end.

Definition valid_name (s : string) : bool :=
  negb (String.eqb s EmptyString) && negb (String.eqb s ".")
  && negb (String.eqb s "..") && negb (has_slash s).

Fixpoint distinct (l : list string) : bool :=
  match l with
  | [] => true
  | x :: l' => negb (mem_string x l') && distinct l'
  end.

Fixpoint wf (n : node) : bool :=
  match n with
  | File _ => true
  | Dir es =>
      distinct (map fst es) && forallb valid_name (map fst es)
      && forallb (fun e => wf (snd e)) es
  end.

End Wf.

(** ** What the scan visits *)

Definition hidden (rel : path) : bool := existsb Str.starts_with_dot rel.

(** The entry [n] is found at [rel] below the root, no component of
    [rel] starts with a dot, and [rel] has at most [max_depth]
    components. *)
Definition visited (fs : node) (root : path) (max_depth : Z) (rel : path)
    (n : node) : Prop :=
  rel <> [] /\ Fs.lookup fs (root ++ rel) = Some n /\ hidden rel = false
  /\ Z.of_nat (length rel) <= max_depth.

(** The entry [e] of a walk, seen from the directory [p] above it. *)
Definition under (p : path) (e : path * node) : path * node :=
  (p ++ fst e, snd e).

(** The test of the loop body of [scan_project] that lets an entry
    through: not hidden and not deeper than [max_depth]. *)
Definition visible (max_depth : Z) (rel : path) : bool :=
  negb (hidden rel) && negb (Z.of_nat (length rel) >? max_depth).

(** The loop of [scan_project] over entries given by their paths below
    the root. *)
Definition scan_fold (root : path) (max_depth : Z) (items : list (path * node))
    (st : stats) : stats :=
  fold_left
    (fun st e => scan_entry max_depth (root ++ fst e) (fst e) (snd e) st)
    items st.

(** The entries below the root, by their paths below the root. *)
Definition rel_items (fs : node) (root : path) : list (path * node) :=
  match Fs.lookup fs root with
  | Some d => Fs.walk [] d
  | None => []
  end.

Definition is_empty_dir (n : node) : bool :=
  match n with Dir [] => true | _ => false end.

Definition node_size (n : node) : N :=
  match n with File content => Fs.st_size content | Dir _ => 0%N end.

Definition is_large (n : node) : bool :=
  Fs.is_file n && (1024 * 1024 <? node_size n)%N.

(** The category under which the scan counts the file at [p]. *)
Definition type_of (p : path) : string :=
  _get_file_type (Str.lower (Fs.suffix p)).

(** [s.split('/')] *)
Fixpoint split_slash (s : string) : list string :=
  match s with
  | EmptyString => [EmptyString]
  | String c s' =>
      if Ascii.eqb c "/" then EmptyString :: split_slash s'
      else
        match split_slash s' with
        | [] => [String c EmptyString]
        | x :: l => String c x :: l
        end
  end.

(** ** A small project, used to exercise the statements *)

Definition sample_fs : node :=
  Dir [ ("home",
         Dir [ ("proj",
                Dir [ ("main.py", File [x70; x72; x69; x6e; x74]);
                      ("config.json", File [x7b; x7d]);
                      ("src",
                       Dir [ ("data.JSON", File [x5b; x5d]);
                             ("module.py", File [x78]) ]);
                      ("empty", Dir []);
                      ("cache", Dir [ (".keep", File []) ]);
                      (".git", Dir [ ("HEAD", File [x72; x65; x66]) ]);
                      (".env", File [x41; x3d; x31]) ]) ]) ].

Definition sample_pm : ProjectManager := mkProjectManager ["home"; "proj"].

(** A project with one file just above and one file exactly at the
    threshold of [large_files]. *)
Definition big_content : list byte := repeat x78 (N.to_nat 1048577).
Definition edge_content : list byte := repeat x78 (N.to_nat 1048576).

Definition big_fs : node :=
  Dir [ ("proj",
         Dir [ ("big.bin", File big_content);
               ("edge.bin", File edge_content) ]) ].

Definition big_pm : ProjectManager := mkProjectManager ["proj"].

(** The category [cat] is the first one of [table], in its order, whose
    extensions contain [s]; it is ["other"] when there is none. *)
Definition first_match (table : list (string * list string)) (s cat : string)
  : Prop :=
  (exists pre exts post,
      table = pre ++ (cat, exts) :: post
      /\ s ∈ exts
      /\ forall c e, (c, e) ∈ pre -> s ∉ e)
  \/ (cat = "other" /\ forall c e, (c, e) ∈ table -> s ∉ e).

(** ** The size format, as the specification words it *)

(** The first of the units B, KB, MB, GB at which the size divided by
    the unit is below 1024, and TB when there is none. *)
Definition unit_index (size : Z) : nat :=
  if size <? 1024 then 0%nat
  else if size <? 1024 * 1024 then 1%nat
  else if size <? 1024 * 1024 ^ 2 then 2%nat
  else if size <? 1024 * 1024 ^ 3 then 3%nat
  else 4%nat.

Definition unit_name (k : nat) : string :=
  nth k ["B"; "KB"; "MB"; "GB"] "TB".

(** The size divided by its unit, with one decimal place, and the unit. *)
Definition format_size_spec (size : Z) : string :=
  let k := unit_index size in
  Num.one_decimal size (1024 ^ Z.of_nat k) +:+ " " +:+ unit_name k.

(** ** Construction *)

(** The components of a path, resolved against [acc]: empty components
    and [.] are dropped, [..] removes the last component.  Without
    symbolic links this is [Path.resolve()]. *)
Fixpoint normalise (acc : path) (comps : list string) : path :=
  match comps with
  | [] => acc
  | c :: rest =>
      if String.eqb c EmptyString || String.eqb c "." then normalise acc rest
      else if String.eqb c ".." then normalise (removelast acc) rest
      else normalise (acc ++ [c]) rest
  end.

(** [Path(s).resolve()] in a process whose working directory is [cwd]. *)
Definition resolve (cwd : path) (s : string) : path :=
  match s with
  | String "/" _ => normalise [] (split_slash s)
  | _ => normalise cwd (split_slash s)
  end.

(** [ProjectManager(project_path)].  [resolve()] looks at every
    component with [lstat], which refuses a string with a NUL byte by a
    [ValueError] and whose other errors [resolve()] ignores. *)
Definition __init__ (fs : node) (cwd : path) (project_path : string)
  : result ProjectManager :=
  if Str.has_nul project_path then Raise ValueError
  else
    let p := resolve cwd project_path in
    found <-? Fs.exists_ fs p;
    if found : bool then Ok (mkProjectManager p) else Raise ValueError.

(** No component is empty, [.] or [..], or contains a slash. *)
Definition canonical (p : path) : Prop :=
  Forall (fun c => Wf.valid_name c = true) p.

(** The existence test of a path fails with [ENAMETOOLONG]: the path
    has [PATH_MAX] bytes or more, or it goes on, in a directory that
    the lookup reaches, with a name of more than [NAME_MAX] bytes. *)
Definition too_long (fs : node) (p : path) : Prop :=
  (Fs.PATH_MAX <= String.length (Fs.abs_str p))%nat
  \/ exists pre x post es,
       p = pre ++ x :: post
       /\ (Fs.NAME_MAX < String.length x)%nat
       /\ Fs.lookup fs pre = Some (Dir es).

(** A name of 256 bytes. *)
Definition long_name : string :=
  string_of_list_ascii (repeat "a"%char 256).

(** An absolute path of [1 + length first + 2 * k] bytes, none of whose
    components is long. *)
Definition deep_path (first : string) (k : nat) : string :=
  "/" +:+ Str.join "/" (first :: repeat "q" k).

(** ** Operations that change the filesystem *)

Definition M (A : Type) : Type := node -> result A * node.

Definition ret {A : Type} (a : A) : M A := fun fs => (Ok a, fs).

Definition bind {A B : Type} (m : M A) (k : A -> M B) : M B :=
  fun fs =>
    match m fs with
    | (Ok a, fs') => k a fs'
    | (Raise e, fs') => (Raise e, fs')
    end.

Notation "x <- m ;; k" := (bind m (fun x => k))
  (at level 100, m at next level, right associativity).

(** A query: the filesystem is read and left as it is. *)
Definition query {A : Type} (f : node -> result A) : M A :=
  fun fs => (f fs, fs).

(** An update: a failed system call changes nothing. *)
Definition update (f : node -> result node) : M unit :=
  fun fs =>
    match f fs with
    | Ok fs' => (Ok tt, fs')
    | Raise e => (Raise e, fs)
    end.

Module Os.

(** [Path.mkdir(parents=True, exist_ok=True)] *)
Fixpoint mkdir_p (n : node) (p : path) : result node :=
  match p with
  | [] =>
      match n with
      | Dir _ => Ok n
      | File _ => Raise FileExistsError
      end
  | x :: p' =>
      match n with
      | File _ => Raise NotADirectoryError
      | Dir es =>
          match Fs.lookup_entry x es with
          | Some c =>
              c' <-? mkdir_p c p'; Ok (Dir (Fs.update_entry x c' es))
          | None =>
              c' <-? mkdir_p (Dir []) p'; Ok (Dir (es ++ [(x, c')]))
          end
      end
  end.

(** [open(p, 'wb').write(data)] *)
Fixpoint write_at (n : node) (p : path) (data : list byte) : result node :=
  match p with
  | [] =>
      match n with
      | Dir _ => Raise IsADirectoryError
      | File _ => Ok (File data)
      end
  | x :: p' =>
      match n with
      | File _ => Raise NotADirectoryError
      | Dir es =>
          match Fs.lookup_entry x es with
          | Some c =>
              c' <-? write_at c p' data; Ok (Dir (Fs.update_entry x c' es))
          | None =>
              match p' with
              | [] => Ok (Dir (es ++ [(x, File data)]))
              | _ :: _ => Raise FileNotFoundError
              end
          end
      end
  end.

(** [open(p, 'rb').read()] *)
Definition read_at (n : node) (p : path) : result (list byte) :=
  m <-? Fs.resolve_node n p;
  match m with
  | File content => Ok content
  | Dir _ => Raise IsADirectoryError
  end.

(** [os.unlink(p)] *)
Fixpoint unlink_at (n : node) (p : path) : result node :=
  match p with
  | [] => Raise IsADirectoryError
  | x :: p' =>
      match n with
      | File _ => Raise NotADirectoryError
      | Dir es =>
          match Fs.lookup_entry x es with
          | None => Raise FileNotFoundError
          | Some c =>
              match p' with
              | [] =>
                  match c with
                  | File _ => Ok (Dir (Fs.remove_entry x es))
                  | Dir _ => Raise IsADirectoryError
                  end
              | _ :: _ =>
                  c' <-? unlink_at c p'; Ok (Dir (Fs.update_entry x c' es))
              end
          end
      end
  end.

(** [Path.iterdir()] *)
Definition iterdir (n : node) (p : path) : result (list (string * node)) :=
  m <-? Fs.resolve_node n p;
  match m with
  | Dir es => Ok es
  | File _ => Raise NotADirectoryError
  end.

End Os.

Definition mkdir (p : path) : M unit := update (fun fs => Os.mkdir_p fs p).
Definition read_bytes (p : path) : M (list byte) :=
  query (fun fs => Os.read_at fs p).
Definition write_bytes (p : path) (data : list byte) : M unit :=
  update (fun fs => Os.write_at fs p data).
Definition unlink (p : path) : M unit := update (fun fs => Os.unlink_at fs p).

(** ** Ordering of paths and of directory items *)

(** [p <= q] for two paths: the lists of components, compared
    component by component. *)
Fixpoint path_leb (p q : path) : bool :=
  match p, q with
  | [], _ => true
  | _ :: _, [] => false
  | x :: p', y :: q' =>
      match String.compare x y with
      | Lt => true
      | Gt => false
      | Eq => path_leb p' q'
      end
  end.

(** The sort key [(not x.is_dir(), x.name)] of the tree listing. *)
Definition item_leb (a b : string * node) : bool :=
  match Fs.is_dir (snd a), Fs.is_dir (snd b) with
  | true, false => true
  | false, true => false
  | _, _ => String.leb (fst a) (fst b)
  end.

(** [sorted(...)] *)
Definition sorted_paths (l : list path) : list path :=
  merge_sort (fun p q => path_leb p q) l.

Definition sorted_items (l : list (string * node)) : list (string * node) :=
  merge_sort (fun a b => item_leb a b) l.

(** ** The tree listing *)

(** The loop of [_tree] over the sorted items, given the listing of a
    sub-directory as [sub]. *)
Fixpoint tree_items
    (sub : string -> list (string * node) -> string -> result (list string))
    (items : list (string * node)) (prefix : string)
  : result (list string) :=
  match items with
  | [] => Ok []
  | (name, item) :: rest =>
      let is_last := match rest with [] => true | _ :: _ => false end in
      let current_prefix := if is_last then "└── " else "├── " in
      let next_prefix := if is_last then "    " else "│   " in
      match item with
      | Dir es =>
          below <-? sub name es (prefix +:+ next_prefix);
          after <-? tree_items sub rest prefix;
          Ok ((prefix +:+ current_prefix +:+ name +:+ "/") :: below ++ after)
      | File content =>
          size_str <-? _format_size (Z.of_N (Fs.st_size content));
          after <-? tree_items sub rest prefix;
          Ok ((prefix +:+ current_prefix +:+ name +:+ " (" +:+ size_str +:+ ")")
                :: after)
      end
  end.

(** The nested function [_tree] for the directory [name], whose listing
    is [listing].  [levels] is [max_depth + 1 - depth], so that
    [depth > max_depth] reads [levels = 0]. *)
Fixpoint _tree (levels : nat) (name : string)
    (listing : result (list (string * node))) (prefix : string)
  : result (list string) :=
  match levels with
  | O => Ok []
  | S levels' =>
      if Str.starts_with_dot name then Ok []
      else
        es <-? listing;
        tree_items (fun name' es' => _tree levels' name' (Ok es'))
          (sorted_items es) prefix
  end.

Definition get_project_tree (fs : node) (self : ProjectManager)
    (max_depth : Z) : result string :=
  let root := project_path self in
  lines <-? _tree (Z.to_nat (max_depth + 1)) (Fs.name root)
              (Os.iterdir fs root) EmptyString;
  Ok (Str.join Str.newline ((Fs.name root +:+ "/") :: lines)).

(** ** Finding, copying and deleting files *)

Section Glob.

(** Whether a pattern matches the entry with a given path below the
    root: the matching done by [Path.rglob], for the patterns on which
    it selects among the entries below the root.  ([rglob] refuses some
    patterns, and [**] alone selects the root and the directories.) *)
Variable glob_match : string -> path -> bool.

(** [root.rglob(pattern)] *)
Definition rglob (fs : node) (root : path) (pattern : string) : list path :=
  map (fun e => root ++ fst e)
    (List.filter (fun e => glob_match pattern (fst e)) (rel_items fs root)).

(** [FILE_TYPES.get(file_type, [])] *)
Fixpoint get_extensions (table : list (string * list string))
    (file_type : string) : list string :=
  match table with
  | [] => []
  | (t, exts) :: rest =>
      if String.eqb t file_type then exts else get_extensions rest file_type
  end.

Definition find_files (fs : node) (self : ProjectManager) (pattern : string)
    (file_type : option string) : list path :=
  let root := project_path self in
  match file_type with
  | Some (String _ _ as t) =>
      let extensions := get_extensions FILE_TYPES t in
      let files :=
        flat_map (fun ext => rglob fs root ("*" +:+ ext)) extensions in
      sorted_paths (remove_dups files)
  | _ => sorted_paths (rglob fs root pattern)
  end.

(** The body of the loop of [copy_files]. *)
Definition copy_one (dest_path file : path) : M unit :=
  let dest_file := dest_path ++ [Fs.name file] in
  data <- read_bytes file ;;
  write_bytes dest_file data.

Fixpoint copy_loop (dest_path : path) (files : list path) (count : nat)
  : M nat :=
  match files with
  | [] => ret count
  | file :: rest =>
      _ <- copy_one dest_path file ;;
      copy_loop dest_path rest (count + 1)
  end.

(** [copy_files]; the destination is given by its components below
    the root of the filesystem. *)
Definition copy_files (self : ProjectManager) (pattern : string)
    (dest_path : path) (create_dirs : bool) : M nat :=
  _ <- (if create_dirs then mkdir dest_path else ret tt) ;;
  files <- query (fun fs => Ok (find_files fs self pattern None)) ;;
  copy_loop dest_path files 0.

Fixpoint delete_loop (files : list path) (count : nat) : M nat :=
  match files with
  | [] => ret count
  | file :: rest =>
      _ <- unlink file ;;
      delete_loop rest (count + 1)
  end.

(** The lines [delete_files] prints before it asks. *)
Fixpoint sample_lines (root : path) (files : list path)
  : result (list string) :=
  match files with
  | [] => Ok []
  | f :: rest =>
      rel <-? Fs.relative_to f root;
      lines <-? sample_lines root rest;
      Ok (("  - " +:+ Fs.path_str rel) :: lines)
  end.

Definition announce (root : path) (files : list path)
  : result (list string) :=
  lines <-? sample_lines root (take 5 files);
  Ok (("Найдено " +:+ pretty (length files) +:+ " файлов для удаления:")
        :: lines
        ++ (if (5 <? length files)%nat
            then ["  ... и еще " +:+ pretty (length files - 5)%nat]
            else [])).

(** [delete_files].  The console is the collaborator [input]: it is
    given what has been printed and the prompt, and answers. *)
Definition delete_files (input : list string -> string -> string)
    (self : ProjectManager) (pattern : string) (confirm : bool) : M nat :=
  files <- query (fun fs => Ok (find_files fs self pattern None)) ;;
  match files with
  | [] => ret 0%nat
  | _ :: _ =>
      proceed <-
        (if confirm then
           printed <- query (fun _ => announce (project_path self) files) ;;
           let response := input printed "Продолжить? (y/n): " in
           ret (String.eqb (Str.lower response) "y")
         else ret true) ;;
      if proceed : bool then delete_loop files 0 else ret 0%nat
  end.

End Glob.

(** Matching of one path component against a pattern made of literal
    characters, [?] and [*] (character classes are left out).  The fuel
    bounds the recursion; every call consumes a character of the
    pattern or of the name. *)
Fixpoint fnmatch_fuel (fuel : nat) (pat name : string) : bool :=
  match fuel with
  | O => false
  | S fuel' =>
      match pat with
      | EmptyString =>
          match name with EmptyString => true | String _ _ => false end
      | String "*" pat' =>
          fnmatch_fuel fuel' pat' name
          || match name with
             | EmptyString => false
             | String _ name' => fnmatch_fuel fuel' pat name'
             end
      | String "?" pat' =>
          match name with
          | EmptyString => false
          | String _ name' => fnmatch_fuel fuel' pat' name'
          end
      | String c pat' =>
          match name with
          | EmptyString => false
          | String d name' => Ascii.eqb c d && fnmatch_fuel fuel' pat' name'
          end
      end
  end.

Definition fnmatch (pat name : string) : bool :=
  fnmatch_fuel (S (String.length pat + String.length name)) pat name.

(** [rglob] with a pattern of one component: the name of the entry is
    matched, wherever the entry lies below the root. *)
Definition name_match (pattern : string) (rel : path) : bool :=
  fnmatch pattern (Fs.name rel).

(** A character that stands for itself in a pattern: an ASCII character
    other than NUL, the slash that separates the components of a
    pattern, and the characters that fnmatch reads as wildcards. *)
Definition literal_char (c : ascii) : bool :=
  let n := nat_of_ascii c in
  (0 <? n)%nat && (n <? 128)%nat
  && negb (existsb (Ascii.eqb c) ["/"; "*"; "?"; "["]%char).

Fixpoint literal (s : string) : bool :=
  match s with
  | EmptyString => true
  | String c s' => literal_char c && literal s'
  end.

Fixpoint has_star (s : string) : bool :=
  match s with
  | EmptyString => false
  | String c s' => Ascii.eqb c "*" || has_star s'
  end.

(** Literal characters and stars, no star next to another one;
    [after_star] tells whether the character before was a star. *)
Fixpoint single_stars (after_star : bool) (s : string) : bool :=
  match s with
  | EmptyString => true
  | String c s' =>
      if Ascii.eqb c "*" then negb after_star && single_stars true s'
      else literal_char c && single_stars false s'
  end.

(** The patterns on which [name_match] is the matching of [Path.rglob]:
    one component of literal characters and stars, with a star in it
    and no [**].  For such a pattern [rglob] lists every directory from
    the root down and keeps the entries whose names fnmatch accepts. *)
Definition plain_pattern (pattern : string) : bool :=
  has_star pattern && single_stars false pattern.

(** A project with a regular file and a directory of the same
    extension. *)
Definition mixed_fs : node :=
  Dir [ ("proj", Dir [ ("a.tmp", File [x61]); ("b.tmp", Dir []) ]) ].

Definition mixed_pm : ProjectManager := mkProjectManager ["proj"].

(** A project with the same file name in two directories. *)
Definition twin_fs : node :=
  Dir [ ("proj",
         Dir [ ("a", Dir [ ("x.py", File [x61]) ]);
               ("b", Dir [ ("x.py", File [x62]) ]) ]) ].

Definition twin_pm : ProjectManager := mkProjectManager ["proj"].

(** The entry that copying the file at [f] adds to the destination. *)
Definition copied_entry (fs : node) (f : path) : string * node :=
  (Fs.name f,
   match Fs.resolve_node fs f with
   | Ok n => n
   | Raise _ => File []
   end).

(** ** Further statistics of a scan *)

(** The sum of the sizes of a list of entries. *)
Definition sum_sizes (l : list (path * node)) : N :=
  fold_right (fun e acc => (node_size (snd e) + acc)%N) 0%N l.

(** The greatest number of components among the paths of a list. *)
Definition max_length (l : list (path * node)) : nat :=
  fold_right (fun e acc => Nat.max (length (fst e)) acc) 0%nat l.

(** The sum of the counters of a dictionary. *)
Definition sum_counts (d : gmap string nat) : nat :=
  map_fold (fun _ v acc => (v + acc)%nat) 0%nat d.

(** The key under which the scan counts the extension of the file at
    [p]. *)
Definition extension_of (p : path) : string := Str.lower (Fs.suffix p).

(** ** Order of the results of a search *)

(** [p <= q] as a relation. *)
Definition path_le (p q : path) : Prop := path_leb p q = true.

(** ** The listing of a directory after a write *)

(** What [open(dir / name, 'wb')] does to the listing of [dir]: an entry
    of that name is replaced where it stands, a new one comes last. *)
Definition put_entry (e : string * node) (es : list (string * node))
  : list (string * node) :=
  match Fs.lookup_entry (fst e) es with
  | Some _ => Fs.update_entry (fst e) (snd e) es
  | None => es ++ [e]
  end.

(** The listing of the destination after copying [files], one after
    the other, as they were in [fs]. *)
Definition copied_listing (fs : node) (files : list path)
    (es : list (string * node)) : list (string * node) :=
  fold_left (fun es f => put_entry (copied_entry fs f) es) files es.

(** ** Facts about names, listings and the walk *)

Section ListingFacts.

Lemma mem_string_In (s : string) (l : list string) :
  mem_string s l = true <-> s ∈ l.
Proof.
  unfold mem_string. rewrite existsb_exists. split.
  - intros (x & Hx & Heq). apply String.eqb_eq in Heq. subst.
    by apply list_elem_of_In.
  - intros Hin. exists s. split; [by apply list_elem_of_In|].
    apply String.eqb_refl.
Qed.

Lemma distinct_NoDup (l : list string) : Wf.distinct l = true -> NoDup l.
Proof.
  induction l as [|x l IH]; simpl; [constructor|].
  intros [Hx Hl]%andb_prop. constructor; [|by apply IH].
  intros Hin%mem_string_In. by rewrite Hin in Hx.
Qed.

Lemma wf_Dir (es : list (string * node)) :
  Wf.wf (Dir es) = true ->
  NoDup (map fst es) /\ Forall (fun e => Wf.valid_name (fst e) = true) es
  /\ Forall (fun e => Wf.wf (snd e) = true) es.
Proof.
  simpl. intros [[H1 H2]%andb_prop H3]%andb_prop. split_and!.
  - by apply distinct_NoDup.
  - rewrite forallb_forall in H2. apply List.Forall_forall.
    intros e He. apply H2. by apply in_map.
  - rewrite forallb_forall in H3. by apply List.Forall_forall.
Qed.

Lemma lookup_entry_Some (x : string) (es : list (string * node)) (n : node) :
  Fs.lookup_entry x es = Some n -> (x, n) ∈ es.
Proof.
  induction es as [|[y m] es IH]; simpl; [done|].
  destruct (String.eqb_spec y x) as [->|Hne].
  - intros [= ->]. by left.
  - intros H. right. by apply IH.
Qed.

Lemma lookup_entry_NoDup (x : string) (es : list (string * node)) (n : node) :
  NoDup (map fst es) -> (x, n) ∈ es -> Fs.lookup_entry x es = Some n.
Proof.
  induction es as [|[y m] es IH]; simpl; [by inversion 2|].
  intros [Hy Hnd]%NoDup_cons Hin.
  destruct (String.eqb_spec y x) as [->|Hne].
  - apply elem_of_cons in Hin as [[= ->]|Hin]; [done|].
    exfalso. apply Hy. apply list_elem_of_fmap. by exists (x, n).
  - apply elem_of_cons in Hin as [[= -> ->]|Hin]; [done|]. by apply IH.
Qed.

Lemma lookup_entry_None (x : string) (es : list (string * node)) :
  Fs.lookup_entry x es = None <-> x ∉ map fst es.
Proof.
  induction es as [|[y m] es IH]; simpl.
  - split; [intros _; by inversion 1|done].
  - destruct (String.eqb_spec y x) as [->|Hne].
    + split; [done|]. intros H. exfalso. apply H. by left.
    + rewrite IH, not_elem_of_cons. split; [intros H; split; [congruence|done]|by intros [_ H]].
Qed.

End ListingFacts.

Section PathFacts.

Lemma relative_to_app (root rel : path) :
  Fs.relative_to (root ++ rel) root = Ok rel.
Proof.
  induction root as [|r root IH]; simpl; [done|].
  rewrite String.eqb_refl. apply IH.
Qed.

Lemma name_app (root rel : path) :
  rel <> [] -> Fs.name (root ++ rel) = Fs.name rel.
Proof.
  intros Hrel. unfold Fs.name.
  induction root as [|r root IH]; simpl; [done|].
  rewrite IH. destruct (root ++ rel) eqn:E; [|done].
  by apply app_eq_nil in E as [_ ->].
Qed.

Lemma suffix_app (root rel : path) :
  rel <> [] -> Fs.suffix (root ++ rel) = Fs.suffix rel.
Proof. intros Hrel. unfold Fs.suffix. by rewrite name_app. Qed.

Lemma resolve_node_app (n : node) (p q : path) :
  Fs.resolve_node n (p ++ q) =
  (m <-? Fs.resolve_node n p; Fs.resolve_node m q).
Proof.
  revert n. induction p as [|x p IH]; intros n; simpl; [done|].
  destruct n as [c|es]; [done|].
  destruct (Fs.lookup_entry x es); [apply IH|done].
Qed.

Lemma lookup_app (fs : node) (p q : path) :
  Fs.lookup fs (p ++ q) =
  match Fs.lookup fs p with
  | Some m => Fs.lookup m q
  | None => None
  end.
Proof.
  unfold Fs.lookup. rewrite resolve_node_app.
  by destruct (Fs.resolve_node fs p).
Qed.

Lemma lookup_wf (fs : node) (p : path) (n : node) :
  Wf.wf fs = true -> Fs.lookup fs p = Some n -> Wf.wf n = true.
Proof.
  unfold Fs.lookup. revert fs. induction p as [|x p IH]; intros fs Hwf; simpl.
  - by intros [= <-].
  - destruct fs as [c|es]; [done|].
    destruct (Fs.lookup_entry x es) as [c|] eqn:Hx; [|done].
    apply IH. apply wf_Dir in Hwf as (_ & _ & Hall).
    apply lookup_entry_Some in Hx. rewrite List.Forall_forall in Hall.
    apply (Hall (x, c)). by apply list_elem_of_In.
Qed.

End PathFacts.

Section WalkFacts.

Lemma walk_under (n : node) :
  forall p, Fs.walk p n = map (under p) (Fs.walk [] n).
Proof.
  induction n as [c|es IH] using node_ind'; intros p; simpl; [done|].
  rewrite map_app, map_map. f_equal.
  induction es as [|[x c] es IHes]; simpl; [done|].
  apply Forall_cons in IH as [Hc Hes].
  rewrite map_app, IHes by done. f_equal.
  simpl in Hc. rewrite (Hc (p ++ [x])), (Hc [x]), map_map.
  apply map_ext. intros [q m]. unfold under. simpl. by rewrite <- app_assoc.
Qed.

Lemma flat_map_bind {A B} (f : A -> list B) (l : list A) :
  flat_map f l = l ≫= f.
Proof. induction l as [|x l IH]; simpl; [done|]. by rewrite IH. Qed.

Lemma map_flat_map {A B C} (g : B -> C) (f : A -> list B) (l : list A) :
  map g (flat_map f l) = flat_map (fun x => map g (f x)) l.
Proof.
  induction l as [|x l IH]; simpl; [done|]. by rewrite map_app, IH.
Qed.

(** An entry is yielded by the walk exactly when its path is not empty
    and resolves to it. *)
Lemma elem_of_walk (n : node) :
  Wf.wf n = true ->
  forall rel m, (rel, m) ∈ Fs.walk [] n <->
                rel <> [] /\ Fs.resolve_node n rel = Ok m.
Proof.
  induction n as [c|es IH] using node_ind'; intros Hwf rel m.
  - simpl. split; [by inversion 1|].
    intros [Hne H]. destruct rel; [done|discriminate].
  - apply wf_Dir in Hwf as (Hnd & _ & Hsub).
    simpl. rewrite elem_of_app, flat_map_bind, list_elem_of_bind.
    change (map ?f es) with (f <$> es). rewrite list_elem_of_fmap.
    split.
    + intros [([x c] & [= -> ->] & Hin)|([x c] & Hin & Hxc)].
      * split; [done|]. simpl. by rewrite (lookup_entry_NoDup x es c).
      * simpl in Hin. rewrite walk_under in Hin.
        change (map ?f ?l) with (f <$> l) in Hin.
        apply list_elem_of_fmap in Hin as ([q m'] & [= -> ->] & Hq).
        split; [done|]. simpl.
        rewrite (lookup_entry_NoDup x es c) by done.
        rewrite List.Forall_forall in IH, Hsub.
        apply list_elem_of_In in Hxc.
        by apply (IH (x, c) Hxc (Hsub (x, c) Hxc)).
    + intros [Hne Hres]. destruct rel as [|x rest]; [done|]. simpl in Hres.
      destruct (Fs.lookup_entry x es) as [c|] eqn:Hx; [|done].
      apply lookup_entry_Some in Hx.
      destruct rest as [|y rest].
      * left. exists (x, c). simpl in Hres. by injection Hres as ->.
      * right. exists (x, c). split; [|done]. simpl.
        rewrite walk_under. change (map ?f ?l) with (f <$> l).
        apply list_elem_of_fmap. exists (y :: rest, m). split; [done|].
        rewrite List.Forall_forall in IH, Hsub.
        pose proof Hx as Hx'. apply list_elem_of_In in Hx'.
        by apply (IH (x, c) Hx' (Hsub (x, c) Hx')).
Qed.

Lemma walk_nonempty_paths (n : node) (rel : path) (m : node) :
  (rel, m) ∈ Fs.walk [] n -> rel <> [].
Proof.
  destruct n as [c|es]; simpl; [by inversion 1|].
  rewrite elem_of_app, flat_map_bind, list_elem_of_bind.
  change (map ?f es) with (f <$> es). rewrite list_elem_of_fmap.
  intros [([x c] & [= -> ->] & Hin)|([x c] & Hin & Hxc)]; [done|].
  simpl in Hin. rewrite walk_under in Hin.
  change (map ?f ?l) with (f <$> l) in Hin.
  by apply list_elem_of_fmap in Hin as ([q m'] & [= -> ->] & Hq).
Qed.

(** No path is yielded twice. *)
Lemma NoDup_walk (n : node) :
  Wf.wf n = true -> NoDup (map fst (Fs.walk [] n)).
Proof.
  induction n as [c|es IH] using node_ind'; intros Hwf; simpl; [constructor|].
  apply wf_Dir in Hwf as (Hnd & _ & Hsub).
  rewrite map_app, map_map. simpl. apply NoDup_app. split_and!.
  - change (map ?f es) with (f <$> es).
    apply (NoDup_fmap_2_strong _ es).
    + intros [x c] [y d] Hx Hy [= ->]. f_equal.
      apply (lookup_entry_NoDup y es c) in Hx; [|done].
      apply (lookup_entry_NoDup y es d) in Hy; [|done]. congruence.
    + apply (NoDup_fmap_1 fst). done.
  - intros q Hq Hq'.
    change (map ?f es) with (f <$> es) in Hq.
    apply list_elem_of_fmap in Hq as ([x c] & -> & _).
    change (map ?f ?l) with (f <$> l) in Hq'.
    apply list_elem_of_fmap in Hq' as ([q m] & Heq & Hin). simpl in Heq.
    subst q. rewrite flat_map_bind in Hin.
    apply list_elem_of_bind in Hin as ([y d] & Hin & _). simpl in Hin.
    rewrite walk_under in Hin. change (map ?f ?l) with (f <$> l) in Hin.
    apply list_elem_of_fmap in Hin as ([q m'] & [= Hxy Hq ->] & Hin).
    apply walk_nonempty_paths in Hin. by destruct q.
  - rewrite map_flat_map, flat_map_bind.
    apply NoDup_bind; [| |].
    + intros [x c] [y d] q Hx Hy Hq Hq'. simpl in *.
      rewrite walk_under, map_map in Hq, Hq'.
      change (map ?f ?l) with (f <$> l) in Hq, Hq'.
      apply list_elem_of_fmap in Hq as ([q1 m1] & -> & Hq).
      apply list_elem_of_fmap in Hq' as ([q2 m2] & [= <- _] & Hq').
      f_equal.
      apply (lookup_entry_NoDup x es c) in Hx; [|done].
      apply (lookup_entry_NoDup x es d) in Hy; [|done]. congruence.
    + intros [x c] Hx. simpl. rewrite walk_under, map_map.
      rewrite List.Forall_forall in IH, Hsub. apply list_elem_of_In in Hx.
      specialize (IH (x, c) Hx (Hsub (x, c) Hx)). simpl in IH.
      change (NoDup (map (fun e : path * node => x :: fst e) (Fs.walk [] c))).
      rewrite <- (map_map fst (fun q : path => x :: q)).
      change (map ?f ?l) with (f <$> l) at 1.
      apply NoDup_fmap_2; [|done]. by intros q1 q2 [= ->].
    + by apply (NoDup_fmap_1 fst).
Qed.

End WalkFacts.

(** ** The loop of the scan *)

Section ScanLoop.

Variable root : path.
Variable md : Z.

Lemma scan_loop_under (items : list (path * node)) (st : stats) :
  scan_loop root md (map (under root) items) st
  = Ok (scan_fold root md items st).
Proof.
  revert st. induction items as [|[rel n] items IH]; intros st; simpl; [done|].
  rewrite relative_to_app. simpl. apply IH.
Qed.

Lemma scan_entry_skip (p rel : path) (n : node) (st : stats) :
  visible md rel = false -> scan_entry md p rel n st = st.
Proof.
  unfold visible, scan_entry, hidden.
  destruct (existsb Str.starts_with_dot rel); [done|].
  by destruct (Z.of_nat (length rel) >? md).
Qed.

Lemma scan_entry_see (p rel : path) (n : node) (st : stats) :
  visible md rel = true ->
  scan_entry md p rel n st =
  match n with
  | File content => see_file p rel content (see_depth (length rel) st)
  | Dir entries => see_dir rel entries (see_depth (length rel) st)
  end.
Proof.
  unfold visible, scan_entry, hidden.
  destruct (existsb Str.starts_with_dot rel); [done|].
  by destruct (Z.of_nat (length rel) >? md).
Qed.

Lemma scan_fold_cons (e : path * node) (items : list (path * node))
    (st : stats) :
  scan_fold root md (e :: items) st
  = scan_fold root md items (scan_entry md (root ++ fst e) (fst e) (snd e) st).
Proof. done. Qed.

(** Each field of the result, as a function of the entries the loop
    lets through. *)

Lemma scan_fold_total_files (items : list (path * node)) (st : stats) :
  total_files (scan_fold root md items st)
  = (total_files st
     + length (List.filter
                 (fun e => visible md (fst e) && Fs.is_file (snd e)) items))%nat.
Proof.
  revert st. induction items as [|[rel n] items IH]; intros st.
  - simpl. lia.
  - rewrite scan_fold_cons, IH. simpl.
    destruct (visible md rel) eqn:Hv.
    + rewrite scan_entry_see by done. destruct n; simpl; lia.
    + rewrite scan_entry_skip by done. simpl. lia.
Qed.

Lemma scan_fold_total_dirs (items : list (path * node)) (st : stats) :
  total_dirs (scan_fold root md items st)
  = (total_dirs st
     + length (List.filter
                 (fun e => visible md (fst e) && Fs.is_dir (snd e)) items))%nat.
Proof.
  revert st. induction items as [|[rel n] items IH]; intros st.
  - simpl. lia.
  - rewrite scan_fold_cons, IH. simpl.
    destruct (visible md rel) eqn:Hv.
    + rewrite scan_entry_see by done. destruct n; simpl; lia.
    + rewrite scan_entry_skip by done. simpl. lia.
Qed.

Lemma scan_fold_empty_dirs (items : list (path * node)) (st : stats) :
  empty_dirs (scan_fold root md items st)
  = empty_dirs st
    ++ map (fun e => Fs.path_str (fst e))
         (List.filter
            (fun e => visible md (fst e) && is_empty_dir (snd e)) items).
Proof.
  revert st. induction items as [|[rel n] items IH]; intros st.
  - simpl. by rewrite app_nil_r.
  - rewrite scan_fold_cons, IH. simpl.
    destruct (visible md rel) eqn:Hv.
    + rewrite scan_entry_see by done.
      destruct n as [c|[|e es]]; simpl; [done| |done].
      by rewrite <- app_assoc.
    + by rewrite scan_entry_skip.
Qed.

Lemma scan_fold_large_files (items : list (path * node)) (st : stats) :
  large_files (scan_fold root md items st)
  = large_files st
    ++ map (fun e => mkFileInfo (Fs.path_str (fst e)) (node_size (snd e)))
         (List.filter (fun e => visible md (fst e) && is_large (snd e)) items).
Proof.
  revert st. induction items as [|[rel n] items IH]; intros st.
  - simpl. by rewrite app_nil_r.
  - rewrite scan_fold_cons, IH. cbn [fst snd List.filter].
    destruct (visible md rel) eqn:Hv.
    + rewrite scan_entry_see by done.
      destruct n as [c|es]; cbn [is_large Fs.is_file andb]; [|done].
      cbn [node_size see_file large_files see_depth].
      destruct (1024 * 1024 <? Fs.st_size c)%N; [|done].
      cbn [map fst snd node_size]. by rewrite <- app_assoc.
    + by rewrite scan_entry_skip.
Qed.

Lemma incr_lookup (k k' : string) (d : gmap string nat) :
  default 0%nat (incr k d !! k')
  = (default 0%nat (d !! k') + if String.eqb k k' then 1 else 0)%nat.
Proof.
  unfold incr. destruct (String.eqb_spec k k') as [->|Hne].
  - rewrite lookup_insert_eq. simpl. lia.
  - rewrite lookup_insert_ne by done. lia.
Qed.

Lemma scan_fold_by_type (items : list (path * node)) (st : stats)
    (cat : string) :
  default 0%nat (by_type (scan_fold root md items st) !! cat)
  = (default 0%nat (by_type st !! cat)
     + length (List.filter
                 (fun e => visible md (fst e) && Fs.is_file (snd e)
                           && String.eqb (type_of (root ++ fst e)) cat)
                 items))%nat.
Proof.
  revert st. induction items as [|[rel n] items IH]; intros st.
  - simpl. lia.
  - rewrite scan_fold_cons, IH. cbn [fst snd List.filter].
    destruct (visible md rel) eqn:Hv.
    + rewrite scan_entry_see by done.
      destruct n as [c|es]; cbn [Fs.is_file andb]; [|simpl; lia].
      cbn [see_file by_type see_depth]. rewrite incr_lookup.
      fold (type_of (root ++ rel)).
      destruct (String.eqb (type_of (root ++ rel)) cat); simpl; lia.
    + rewrite scan_entry_skip by done. simpl. lia.
Qed.

End ScanLoop.

(** The scan never raises: every yielded path is below the root. *)
Lemma scan_project_run (fs : node) (self : ProjectManager) (md : Z) :
  scan_project fs self md
  = Ok (scan_fold (project_path self) md (rel_items fs (project_path self))
          stats_init).
Proof.
  unfold scan_project, Fs.rglob_all, rel_items.
  destruct (Fs.lookup fs (project_path self)) as [d|]; [|done].
  rewrite walk_under. apply scan_loop_under.
Qed.

(** With distinct names in every directory, the entries the loop lets
    through are the visited ones. *)
Lemma visited_rel_items (fs : node) (root : path) (md : Z) (rel : path)
    (n : node) :
  Wf.wf fs = true ->
  visited fs root md rel n
  <-> (rel, n) ∈ rel_items fs root /\ visible md rel = true.
Proof.
  intros Hwf. unfold visited, rel_items, visible. rewrite lookup_app.
  destruct (Fs.lookup fs root) as [d|] eqn:Hd.
  - pose proof (lookup_wf fs root d Hwf Hd) as Hwfd.
    rewrite (elem_of_walk d Hwfd). unfold Fs.lookup.
    destruct (hidden rel); simpl.
    + split; [intros (_ & _ & ? & _); done|intros [_ ?]; done].
    + destruct (Z.gtb_spec (Z.of_nat (length rel)) md); simpl.
      * split; [intros (_ & _ & _ & ?); lia|intros [_ ?]; done].
      * destruct (Fs.resolve_node d rel) as [m|e].
        -- split.
           ++ intros (? & [= ->] & _). done.
           ++ intros [[? [= ->]] _]. split_and!; try done. 
        -- split; [intros (_ & ? & _); done|intros [[_ ?] _]; done].
  - split; [intros (_ & ? & _); done|intros [H _]; by inversion H].
Qed.

(** ** Path strings determine paths *)

Section PathStrings.

Lemma split_slash_free (x : string) :
  Wf.has_slash x = false -> split_slash x = [x].
Proof.
  induction x as [|c x IH]; simpl; [done|].
  intros [Hc Hx]%orb_false_elim. rewrite Hc, IH; done.
Qed.

Lemma split_slash_sep (x s : string) :
  Wf.has_slash x = false ->
  split_slash (x +:+ "/" +:+ s) = x :: split_slash s.
Proof.
  induction x as [|c x IH]; simpl; [done|].
  intros [Hc Hx]%orb_false_elim. rewrite Hc, IH; done.
Qed.

Lemma split_slash_join (l : list string) :
  l <> [] -> Forall (fun x => Wf.has_slash x = false) l ->
  split_slash (Str.join "/" l) = l.
Proof.
  induction l as [|x l IH]; [done|]. intros _ [Hx Hl]%Forall_cons.
  destruct l as [|y l].
  - simpl. by apply split_slash_free.
  - change (Str.join "/" (x :: y :: l))
      with (x +:+ "/" +:+ Str.join "/" (y :: l)).
    rewrite split_slash_sep by done. f_equal. by apply IH.
Qed.

Lemma valid_name_no_slash (x : string) :
  Wf.valid_name x = true -> Wf.has_slash x = false.
Proof.
  unfold Wf.valid_name. intros [_ H]%andb_prop. by apply negb_true_iff.
Qed.

Lemma path_str_inj (p q : path) :
  p <> [] -> q <> [] ->
  Forall (fun x => Wf.valid_name x = true) p ->
  Forall (fun x => Wf.valid_name x = true) q ->
  Fs.path_str p = Fs.path_str q -> p = q.
Proof.
  intros Hp Hq Hvp Hvq Heq.
  rewrite <- (split_slash_join p), <- (split_slash_join q); try done.
  - destruct p; [done|]. destruct q; [done|].
    unfold Fs.path_str in Heq. by rewrite Heq.
  - eapply Forall_impl; [exact Hvq|]. apply valid_name_no_slash.
  - eapply Forall_impl; [exact Hvp|]. apply valid_name_no_slash.
Qed.

(** The components of a path that resolves in a well-formed tree are
    valid names. *)
Lemma resolve_valid_names (d : node) (rel : path) (m : node) :
  Wf.wf d = true -> Fs.resolve_node d rel = Ok m ->
  Forall (fun x => Wf.valid_name x = true) rel.
Proof.
  revert d. induction rel as [|x rel IH]; intros d Hwf; [constructor|].
  simpl. destruct d as [c|es]; [done|].
  destruct (Fs.lookup_entry x es) as [c|] eqn:Hx; [|done].
  apply lookup_entry_Some in Hx. apply list_elem_of_In in Hx.
  apply wf_Dir in Hwf as (_ & Hval & Hsub).
  rewrite List.Forall_forall in Hval, Hsub.
  intros Hres. constructor.
  - apply (Hval (x, c) Hx).
  - apply (IH c); [apply (Hsub (x, c) Hx)|done].
Qed.

Lemma rel_items_valid (fs : node) (root rel : path) (n : node) :
  Wf.wf fs = true -> (rel, n) ∈ rel_items fs root ->
  rel <> [] /\ Forall (fun x => Wf.valid_name x = true) rel.
Proof.
  intros Hwf. unfold rel_items.
  destruct (Fs.lookup fs root) as [d|] eqn:Hd; [|by inversion 1].
  pose proof (lookup_wf fs root d Hwf Hd) as Hwfd.
  intros [Hne Hres]%(elem_of_walk d Hwfd). split; [done|].
  by apply (resolve_valid_names d rel n).
Qed.

Lemma rel_items_NoDup (fs : node) (root : path) :
  Wf.wf fs = true -> NoDup (map fst (rel_items fs root)).
Proof.
  intros Hwf. unfold rel_items.
  destruct (Fs.lookup fs root) as [d|] eqn:Hd; [|constructor].
  apply NoDup_walk. by apply (lookup_wf fs root d).
Qed.

(** Two yielded entries with the same path string are the same entry. *)
Lemma rel_items_same_str (fs : node) (root : path) (p q : path)
    (n m : node) :
  Wf.wf fs = true ->
  (p, n) ∈ rel_items fs root -> (q, m) ∈ rel_items fs root ->
  Fs.path_str p = Fs.path_str q -> p = q /\ n = m.
Proof.
  intros Hwf Hp Hq Heq.
  destruct (rel_items_valid fs root p n Hwf Hp) as [Hp1 Hp2].
  destruct (rel_items_valid fs root q m Hwf Hq) as [Hq1 Hq2].
  pose proof (path_str_inj p q Hp1 Hq1 Hp2 Hq2 Heq) as ->. split; [done|].
  unfold rel_items in *.
  destruct (Fs.lookup fs root) as [d|] eqn:Hd; [|by inversion Hp].
  pose proof (lookup_wf fs root d Hwf Hd) as Hwfd.
  apply (elem_of_walk d Hwfd) in Hp as [_ Hp].
  apply (elem_of_walk d Hwfd) in Hq as [_ Hq]. congruence.
Qed.

End PathStrings.

(** ** Counting the entries of a listing *)

Lemma NoDup_map_fst_filter {A B} (P : A * B -> bool) (l : list (A * B)) :
  NoDup (map fst l) -> NoDup (map fst (List.filter P l)).
Proof.
  induction l as [|e l IH]; simpl; [done|].
  intros [He Hl]%NoDup_cons. destruct (P e); simpl; [|by apply IH].
  apply NoDup_cons. split; [|by apply IH].
  intros Hin. apply He. change (map ?f ?l) with (f <$> l) in *.
  apply list_elem_of_fmap in Hin as (e' & -> & Hin).
  apply list_elem_of_fmap. exists e'. split; [done|].
  apply list_elem_of_In in Hin. apply filter_In in Hin as [Hin _].
  by apply list_elem_of_In.
Qed.

Lemma count_listing (items : list (path * node)) (P : path * node -> bool) :
  NoDup (map fst items) ->
  exists l : list path,
    NoDup l
    /\ (forall rel, rel ∈ l <-> exists n, (rel, n) ∈ items /\ P (rel, n) = true)
    /\ length (List.filter P items) = length l.
Proof.
  intros Hnd. exists (map fst (List.filter P items)). split_and!.
  - by apply NoDup_map_fst_filter.
  - intros rel. change (map ?f ?l) with (f <$> l). rewrite list_elem_of_fmap.
    split.
    + intros ([rel' n] & -> & Hin). exists n.
      apply list_elem_of_In in Hin. apply filter_In in Hin as [Hin HP].
      split; [by apply list_elem_of_In|done].
    + intros (n & Hin & HP). exists (rel, n). split; [done|].
      apply list_elem_of_In. apply filter_In. split; [|done].
      by apply list_elem_of_In.
  - by rewrite length_map.
Qed.

(** ** The statistics of a scan *)

Lemma listed_file_visited (fs : node) (root : path) (md : Z) (rel : path) :
  Wf.wf fs = true ->
  (exists n, (rel, n) ∈ rel_items fs root
             /\ visible md rel && Fs.is_file n = true)
  <-> (exists c, visited fs root md rel (File c)).
Proof.
  intros Hwf. split.
  - intros (n & Hin & [Hv Hf]%andb_prop).
    destruct n as [c|es]; [|done]. exists c. by apply visited_rel_items.
  - intros (c & [Hin Hv]%visited_rel_items); [|done].
    exists (File c). split; [done|]. by rewrite Hv.
Qed.

Lemma listed_dir_visited (fs : node) (root : path) (md : Z) (rel : path) :
  Wf.wf fs = true ->
  (exists n, (rel, n) ∈ rel_items fs root
             /\ visible md rel && Fs.is_dir n = true)
  <-> (exists es, visited fs root md rel (Dir es)).
Proof.
  intros Hwf. split.
  - intros (n & Hin & [Hv Hf]%andb_prop).
    destruct n as [c|es]; [done|]. exists es. by apply visited_rel_items.
  - intros (es & [Hin Hv]%visited_rel_items); [|done].
    exists (Dir es). split; [done|]. by rewrite Hv.
Qed.

(** C5: on a well-formed filesystem the scan returns, [total_files] is
    the number of paths below the root that name a regular file, have no
    component starting with a dot and have at most [max_depth]
    components, and [total_dirs] is the number of such paths that name
    a directory. *)
Theorem scan_counts_visited (fs : node) (self : ProjectManager) (md : Z) :
  Wf.wf fs = true ->
  exists st,
    scan_project fs self md = Ok st
    /\ (exists files : list path,
          NoDup files
          /\ (forall rel, rel ∈ files
                <-> exists c, visited fs (project_path self) md rel (File c))
          /\ total_files st = length files)
    /\ (exists dirs : list path,
          NoDup dirs
          /\ (forall rel, rel ∈ dirs
                <-> exists es, visited fs (project_path self) md rel (Dir es))
          /\ total_dirs st = length dirs).
Proof.
  intros Hwf. rewrite scan_project_run. eexists. split; [reflexivity|].
  rewrite scan_fold_total_files, scan_fold_total_dirs. simpl.
  pose proof (rel_items_NoDup fs (project_path self) Hwf) as Hnd.
  split.
  - destruct (count_listing _
      (fun e => visible md (fst e) && Fs.is_file (snd e)) Hnd)
      as (l & Hl & Hin & Hlen).
    exists l. split_and!; [done| |done].
    intros rel. rewrite Hin. by apply listed_file_visited.
  - destruct (count_listing _
      (fun e => visible md (fst e) && Fs.is_dir (snd e)) Hnd)
      as (l & Hl & Hin & Hlen).
    exists l. split_and!; [done| |done].
    intros rel. rewrite Hin. by apply listed_dir_visited.
Qed.

(** The sample project has four visited files and three visited
    directories. *)
Lemma scan_counts_visited_witness :
  exists st,
    scan_project sample_fs sample_pm 20 = Ok st
    /\ (exists files : list path,
          NoDup files
          /\ (forall rel, rel ∈ files
                <-> exists c, visited sample_fs (project_path sample_pm) 20 rel
                                (File c))
          /\ total_files st = length files)
    /\ (exists dirs : list path,
          NoDup dirs
          /\ (forall rel, rel ∈ dirs
                <-> exists es, visited sample_fs (project_path sample_pm) 20 rel
                                 (Dir es))
          /\ total_dirs st = length dirs).
Proof. apply (scan_counts_visited sample_fs sample_pm 20). reflexivity. Defined.

(** ** Empty directories *)

Lemma elem_of_filter_items (P : path * node -> bool) (items : list (path * node))
    (e : path * node) :
  e ∈ List.filter P items <-> e ∈ items /\ P e = true.
Proof. rewrite !list_elem_of_In. apply filter_In. Qed.

(** C1 (amended): a visited directory is recorded in [empty_dirs]
    exactly when its raw listing has no entry; one that has an entry,
    hidden or not, is not recorded. *)
Theorem empty_dirs_raw_listing (fs : node) (self : ProjectManager) (md : Z) :
  Wf.wf fs = true ->
  exists st,
    scan_project fs self md = Ok st
    /\ forall rel es,
         visited fs (project_path self) md rel (Dir es) ->
         (Fs.path_str rel ∈ empty_dirs st <-> es = [])
         /\ (es <> [] ->
             Forall (fun e => Str.starts_with_dot (fst e) = true) es ->
             Fs.path_str rel ∉ empty_dirs st).
Proof.
  intros Hwf. rewrite scan_project_run. eexists. split; [reflexivity|].
  intros rel es Hvis.
  apply visited_rel_items in Hvis as [Hin Hv]; [|done].
  assert (Fs.path_str rel
            ∈ empty_dirs (scan_fold (project_path self) md
                            (rel_items fs (project_path self)) stats_init)
          <-> es = []) as Hiff.
  { rewrite scan_fold_empty_dirs. simpl.
    change (map ?f ?l) with (f <$> l). rewrite list_elem_of_fmap. split.
    - intros ([rel' n'] & Heq & [Hin' HP]%elem_of_filter_items).
      simpl in Heq, HP. apply andb_prop in HP as [_ Hempty].
      destruct (rel_items_same_str fs (project_path self) rel rel' (Dir es) n'
                  Hwf Hin Hin' Heq) as [_ <-].
      by destruct es.
    - intros ->. exists (rel, Dir []). split; [done|].
      apply elem_of_filter_items. split; [done|]. simpl. by rewrite Hv. }
  split; [done|]. intros Hne _ Hrec. by apply Hne, Hiff.
Qed.

(** In the sample project [empty] is recorded and [cache], which holds
    one hidden file, is not. *)
Lemma empty_dirs_raw_listing_witness :
  exists st,
    scan_project sample_fs sample_pm 20 = Ok st
    /\ (Fs.path_str ["empty"] ∈ empty_dirs st <-> @nil (string * node) = [])
    /\ Fs.path_str ["cache"] ∉ empty_dirs st.
Proof.
  destruct (empty_dirs_raw_listing sample_fs sample_pm 20 eq_refl)
    as (st & Hst & Hall).
  exists st. split; [done|]. split.
  - apply (Hall ["empty"] []). unfold visited. by vm_compute.
  - apply (Hall ["cache"] [(".keep", File [])]).
    + unfold visited. split_and!; [done|reflexivity|reflexivity|by vm_compute].
    + done.
    + by repeat constructor.
Defined.

(** C1 as stated fails: every entry of [cache] is hidden, yet [cache] is
    not in [empty_dirs]. *)
Lemma empty_dirs_hidden_only_counterexample :
  visited sample_fs (project_path sample_pm) 20 ["cache"]
    (Dir [(".keep", File [])])
  /\ Forall (fun e : string * node => Str.starts_with_dot (fst e) = true)
       [(".keep", File [])]
  /\ exists st,
       scan_project sample_fs sample_pm 20 = Ok st
       /\ Fs.path_str ["cache"] ∉ empty_dirs st.
Proof.
  split_and!.
  - unfold visited. split_and!; [done|reflexivity|reflexivity|by vm_compute].
  - by repeat constructor.
  - eexists. split; [reflexivity|].
    vm_compute. intros H. inversion H as [|? ? ? H']; subst. inversion H'.
Qed.

(** ** Large files *)

(** C6: a visited file is recorded in [large_files], with its size,
    exactly when that size exceeds 1,048,576 bytes: 1,048,577 bytes
    are recorded and 1,048,576 bytes are not.  Nothing else is
    recorded. *)
Theorem large_files_strict_threshold (fs : node) (self : ProjectManager)
    (md : Z) :
  Wf.wf fs = true ->
  exists st,
    scan_project fs self md = Ok st
    /\ (forall rel c,
          visited fs (project_path self) md rel (File c) ->
          ((exists fi, fi ∈ large_files st /\ fi_path fi = Fs.path_str rel)
           <-> (1048576 < Fs.st_size c)%N)
          /\ (mkFileInfo (Fs.path_str rel) (Fs.st_size c) ∈ large_files st
              <-> (1048576 < Fs.st_size c)%N)
          /\ (Fs.st_size c = 1048577%N ->
              mkFileInfo (Fs.path_str rel) 1048577 ∈ large_files st)
          /\ (Fs.st_size c = 1048576%N ->
              forall fi, fi ∈ large_files st -> fi_path fi <> Fs.path_str rel))
    /\ (forall fi,
          fi ∈ large_files st ->
          exists rel c,
            visited fs (project_path self) md rel (File c)
            /\ fi = mkFileInfo (Fs.path_str rel) (Fs.st_size c)
            /\ (1048576 < Fs.st_size c)%N).
Proof.
  intros Hwf. rewrite scan_project_run. eexists. split; [reflexivity|].
  set (root := project_path self). set (items := rel_items fs root).
  assert (forall fi,
            fi ∈ large_files (scan_fold root md items stats_init)
            <-> exists rel c, visited fs root md rel (File c)
                  /\ fi = mkFileInfo (Fs.path_str rel) (Fs.st_size c)
                  /\ (1048576 < Fs.st_size c)%N) as Hchar.
  { intros fi. rewrite scan_fold_large_files. simpl.
    change (map ?f ?l) with (f <$> l). rewrite list_elem_of_fmap. split.
    - intros ([rel n] & -> & [Hin HP]%elem_of_filter_items). simpl in *.
      apply andb_prop in HP as [Hv [Hf Hlt]%andb_prop].
      destruct n as [c|es]; [|done]. exists rel, c. split_and!.
      + by apply visited_rel_items.
      + done.
      + simpl in Hlt. apply N.ltb_lt in Hlt. exact Hlt.
    - intros (rel & c & [Hin Hv]%visited_rel_items & -> & Hlt); [|done].
      exists (rel, File c). split; [done|].
      apply elem_of_filter_items. split; [done|]. simpl. rewrite Hv. simpl.
      unfold is_large. simpl. apply N.ltb_lt. exact Hlt. }
  split.
  - intros rel c Hvis.
    assert ((exists fi, fi ∈ large_files (scan_fold root md items stats_init)
                        /\ fi_path fi = Fs.path_str rel)
            <-> (1048576 < Fs.st_size c)%N) as Hsome.
    { split.
      - intros (fi & (rel' & c' & Hvis' & -> & Hlt)%Hchar & Heq). simpl in Heq.
        apply visited_rel_items in Hvis as [Hin _]; [|done].
        apply visited_rel_items in Hvis' as [Hin' _]; [|done].
        destruct (rel_items_same_str fs root rel' rel (File c') (File c)
                    Hwf Hin' Hin Heq) as [_ [= ->]]. done.
      - intros Hlt. exists (mkFileInfo (Fs.path_str rel) (Fs.st_size c)).
        split; [|done]. apply Hchar. exists rel, c. done. }
    assert (mkFileInfo (Fs.path_str rel) (Fs.st_size c)
              ∈ large_files (scan_fold root md items stats_init)
            <-> (1048576 < Fs.st_size c)%N) as Hthis.
    { split.
      - intros Hin. apply Hsome. eexists. split; [exact Hin|done].
      - intros Hlt. apply Hchar. exists rel, c. done. }
    split_and!; [done|done| |].
    + intros Hsz. rewrite <- Hsz. apply Hthis. lia.
    + intros Hsz fi Hfi Heq.
      assert (1048576 < Fs.st_size c)%N; [|lia].
      apply Hsome. by exists fi.
  - intros fi Hfi. by apply Hchar.
Qed.

Lemma st_size_repeat (b : byte) (n : N) :
  Fs.st_size (repeat b (N.to_nat n)) = n.
Proof. unfold Fs.st_size. rewrite repeat_length. apply N2Nat.id. Qed.

(** A file of 1,048,577 bytes is recorded, a file of 1,048,576 bytes is
    not. *)
Lemma large_files_strict_threshold_witness :
  exists st,
    scan_project big_fs big_pm 20 = Ok st
    /\ mkFileInfo "big.bin" 1048577 ∈ large_files st
    /\ forall fi, fi ∈ large_files st -> fi_path fi <> "edge.bin".
Proof.
  destruct (large_files_strict_threshold big_fs big_pm 20 eq_refl)
    as (st & Hst & Hall & _).
  exists st. split; [done|]. split.
  - apply (Hall ["big.bin"] big_content).
    + unfold visited. split_and!; [done|reflexivity|reflexivity|simpl; lia].
    + apply st_size_repeat.
  - apply (Hall ["edge.bin"] edge_content).
    + unfold visited. split_and!; [done|reflexivity|reflexivity|simpl; lia].
    + apply st_size_repeat.
Defined.

(** ** Classification *)

Lemma first_type_first_match (table : list (string * list string))
    (s : string) :
  first_match table s (first_type table s).
Proof.
  induction table as [|[cat exts] table IH]; simpl.
  - right. split; [done|]. intros c e H. inversion H.
  - destruct (mem_string s exts) eqn:Hmem.
    + left. exists [], exts, table. split_and!; [done| |].
      * by apply mem_string_In.
      * intros c e H. inversion H.
    + assert (s ∉ exts) as Hnot.
      { intros Hin%mem_string_In. congruence. }
      remember (first_type table s) as r eqn:Hr. clear Hr.
      destruct IH as [(pre & exts' & post & -> & Hin & Hpre)|[Hother Hnone]].
      * left. exists ((cat, exts) :: pre), exts', post. split_and!; [done|done|].
        intros c e [[= -> ->]|H]%elem_of_cons; [done|]. by apply (Hpre c).
      * right. split; [done|].
        intros c e [[= -> ->]|H]%elem_of_cons; [done|]. by apply (Hnone c).
Qed.

Lemma lower_ascii_idem (c : ascii) :
  Str.lower_ascii (Str.lower_ascii c) = Str.lower_ascii c.
Proof. destruct c as [[] [] [] [] [] [] [] []]; reflexivity. Qed.

Lemma lower_idem (s : string) : Str.lower (Str.lower s) = Str.lower s.
Proof.
  induction s as [|c s IH]; simpl; [done|]. by rewrite lower_ascii_idem, IH.
Qed.

Ltac case_eqb x :=
  repeat match goal with
    | |- context [String.eqb x ?s] =>
        destruct (String.eqb_spec x s) as [->|?]; cbn -[String.eqb]
    end.

(** The category ["data"] is reached by three extensions only:
    [.json] is taken by ["config"], which comes first. *)
Lemma first_type_data (x : string) :
  first_type FILE_TYPES x = "data" <-> x ∈ [".csv"; ".xml"; ".sql"].
Proof.
  split.
  - unfold FILE_TYPES, first_type, mem_string, existsb.
    case_eqb x; intros H; try discriminate H;
      repeat first [ by left | right ].
  - intros H. repeat (apply elem_of_cons in H as [->|H]; [reflexivity|]).
    inversion H.
Qed.

Lemma type_of_under (root rel : path) :
  rel <> [] ->
  type_of (root ++ rel) = _get_file_type (Str.lower (Fs.suffix rel)).
Proof. intros Hne. unfold type_of. by rewrite suffix_app. Qed.

Lemma listed_typed_file_visited (fs : node) (root : path) (md : Z)
    (cat : string) (rel : path) :
  Wf.wf fs = true ->
  (exists n, (rel, n) ∈ rel_items fs root
             /\ visible md rel && Fs.is_file n
                && String.eqb (type_of (root ++ rel)) cat = true)
  <-> (exists c, visited fs root md rel (File c)
                 /\ _get_file_type (Str.lower (Fs.suffix rel)) = cat).
Proof.
  intros Hwf. split.
  - intros (n & Hin & [[Hv Hf]%andb_prop Ht]%andb_prop).
    destruct n as [c|es]; [|done]. exists c.
    destruct (rel_items_valid fs root rel (File c) Hwf Hin) as [Hne _].
    split; [by apply visited_rel_items|].
    rewrite <- (type_of_under root) by done. by apply String.eqb_eq.
  - intros (c & Hvis & Ht).
    pose proof Hvis as (Hne & _).
    apply visited_rel_items in Hvis as [Hin Hv]; [|done].
    exists (File c). split; [done|]. rewrite Hv. simpl.
    apply String.eqb_eq. by rewrite type_of_under.
Qed.

(** C10: [_get_file_type] returns the first category of [FILE_TYPES], in
    declaration order, that lists the lowercased extension; [.json],
    listed under ["config"] and under ["data"], is always ["config"]; and
    [by_type] counts the visited files by that same category, so that
    ["data"] counts [.csv], [.xml] and [.sql] files only. *)
Theorem classify_first_category :
  (forall suffix,
      first_match FILE_TYPES (Str.lower suffix) (_get_file_type suffix))
  /\ (forall suffix,
        Str.lower suffix = ".json" ->
        _get_file_type suffix = "config" /\ _get_file_type suffix <> "data")
  /\ (forall fs self md,
        Wf.wf fs = true ->
        exists st,
          scan_project fs self md = Ok st
          /\ (forall cat,
                exists l : list path,
                  NoDup l
                  /\ (forall rel,
                        rel ∈ l
                        <-> exists c,
                              visited fs (project_path self) md rel (File c)
                              /\ _get_file_type (Str.lower (Fs.suffix rel))
                                 = cat)
                  /\ default 0%nat (by_type st !! cat) = length l)
          /\ (forall rel c,
                visited fs (project_path self) md rel (File c) ->
                _get_file_type (Str.lower (Fs.suffix rel)) = "data" ->
                Str.lower (Fs.suffix rel) ∈ [".csv"; ".xml"; ".sql"])).
Proof.
  split_and!.
  - intros suffix. apply first_type_first_match.
  - intros suffix Heq. unfold _get_file_type. rewrite Heq. by split.
  - intros fs self md Hwf. rewrite scan_project_run.
    eexists. split; [reflexivity|]. split.
    + intros cat. rewrite scan_fold_by_type. simpl.
      pose proof (rel_items_NoDup fs (project_path self) Hwf) as Hnd.
      destruct (count_listing _
        (fun e => visible md (fst e) && Fs.is_file (snd e)
                  && String.eqb (type_of (project_path self ++ fst e)) cat) Hnd)
        as (l & Hl & Hin & Hlen).
      exists l. split_and!; [done| |done].
      intros rel. rewrite Hin. by apply listed_typed_file_visited.
    + intros rel c _ Hdata. unfold _get_file_type in Hdata.
      rewrite lower_idem in Hdata. by apply first_type_data.
Qed.

(** In the sample project the two [.json] files, one of them spelled
    [.JSON], are the files counted under ["config"], and no file is
    counted under ["data"]. *)
Lemma classify_first_category_witness :
  (_get_file_type ".JSON" = "config" /\ _get_file_type ".JSON" <> "data")
  /\ exists st,
       scan_project sample_fs sample_pm 20 = Ok st
       /\ by_type st !! "config" = Some 2%nat
       /\ by_type st !! "data" = None
       /\ exists l : list path,
            NoDup l
            /\ (forall rel,
                  rel ∈ l
                  <-> exists c,
                        visited sample_fs (project_path sample_pm) 20 rel
                          (File c)
                        /\ _get_file_type (Str.lower (Fs.suffix rel)) = "config")
            /\ default 0%nat (by_type st !! "config") = length l.
Proof.
  destruct classify_first_category as (_ & Hjson & Hscan). split.
  - apply (Hjson ".JSON"). reflexivity.
  - destruct (Hscan sample_fs sample_pm 20 eq_refl) as (st & Hst & Hcat & _).
    exists st. split; [done|].
    assert (st = scan_fold (project_path sample_pm) 20
                   (rel_items sample_fs (project_path sample_pm)) stats_init)
      as Heq.
    { rewrite scan_project_run in Hst. by injection Hst. }
    split_and!.
    + rewrite Heq. by vm_compute.
    + rewrite Heq. by vm_compute.
    + apply (Hcat "config").
Defined.

(** ** The size format *)

Section SizeFormat.

Import Num.

Lemma checked_exact (m e : Z) :
  0 <= m < 2 ^ 53 -> e <= 0 -> checked (mkFloat m e) = Ok (mkFloat m e).
Proof.
  intros Hm He. unfold checked, overflows. simpl.
  assert (2 ^ 53 < 2 ^ 1024) by (apply Z.pow_lt_mono_r; lia).
  destruct (Z.ltb_spec e 0).
  - assert (0 < 2 ^ (- e)) by (apply Z.pow_pos_nonneg; lia).
    destruct (Z.leb_spec (2 ^ 1024 * 2 ^ (- e)) (Z.abs m)); [nia|done].
  - assert (e = 0) as -> by lia. change (2 ^ 0) with 1.
    destruct (Z.leb_spec (2 ^ 1024) (Z.abs m * 1)); [lia|done].
Qed.

Lemma round53_exact (n : Z) : 0 <= n < 2 ^ 53 -> round53 n = mkFloat n 0.
Proof.
  intros Hn. unfold round53, round53_nonneg.
  destruct (Z.ltb_spec n 0); [lia|].
  destruct (Z.ltb_spec n (2 ^ 53)); [done|lia].
Qed.

Lemma format_exact_int (n : Z) :
  0 <= n < 2 ^ 53 -> format_1f (PyInt n) = Ok (one_decimal n 1).
Proof.
  intros Hn. unfold format_1f, float_of_int.
  rewrite round53_exact, checked_exact by lia. simpl.
  unfold format_float_1f. simpl.
  destruct (Z.ltb_spec n 0); [lia|]. simpl.
  by rewrite Z.abs_eq, Z.mul_1_r by lia.
Qed.

Lemma format_exact_float (n e : Z) :
  0 <= n -> e < 0 ->
  format_float_1f (mkFloat n e) = one_decimal n (2 ^ (- e)).
Proof.
  intros Hn He. unfold format_float_1f. simpl.
  destruct (Z.ltb_spec n 0); [lia|].
  destruct (Z.ltb_spec e 0); [|lia]. simpl.
  by rewrite Z.abs_eq by lia.
Qed.

Lemma float_lt_1024_exact (n e : Z) :
  e < 0 -> float_lt_1024 (mkFloat n e) = (n <? 1024 * 2 ^ (- e)).
Proof.
  intros He. unfold float_lt_1024. simpl.
  by destruct (Z.ltb_spec e 0); [|lia].
Qed.

(** Below [2 ^ 53] every value of the loop is exact, and the code
    prints what the specification says. *)
Lemma format_size_exact (size : Z) :
  0 <= size < 2 ^ 53 -> _format_size size = Ok (format_size_spec size).
Proof.
  intros Hsize. unfold _format_size, format_size_spec, unit_index.
  cbn [format_units lt_1024].
  destruct (Z.ltb_spec size 1024) as [H0|H0].
  { by rewrite format_exact_int. }
  cbn [div_1024]. rewrite round53_exact by done. cbn [fm fe].
  rewrite checked_exact by lia. cbn [rbind lt_1024 div_1024 fm fe format_1f].
  change (0 - 10) with (- 10). change (- 10 - 10) with (- 20).
  change (- 20 - 10) with (- 30). change (- 30 - 10) with (- 40).
  rewrite !float_lt_1024_exact by lia.
  change (2 ^ (- -10)) with 1024. change (2 ^ (- -20)) with (1024 ^ 2).
  change (2 ^ (- -30)) with (1024 ^ 3).
  destruct (Z.ltb_spec size (1024 * 1024)) as [H1|H1].
  { by rewrite format_exact_float by lia. }
  destruct (Z.ltb_spec size (1024 * 1024 ^ 2)) as [H2|H2].
  { by rewrite format_exact_float by lia. }
  destruct (Z.ltb_spec size (1024 * 1024 ^ 3)) as [H3|H3].
  { by rewrite format_exact_float by lia. }
  by rewrite format_exact_float by lia.
Qed.

Lemma round_half_even_bounds (num den : Z) :
  num / den <= round_half_even num den <= num / den + 1.
Proof.
  unfold round_half_even. destruct (2 * (num mod den) ?= den); [|lia|lia].
  destruct (Z.even (num / den)); lia.
Qed.

Lemma round53_big (n : Z) :
  2 ^ 53 <= n ->
  2 ^ 52 <= fm (round53 n) <= 2 ^ 53
  /\ 1 <= fe (round53 n) /\ fe (round53 n) = Z.log2 n - 52.
Proof.
  intros Hn. unfold round53, round53_nonneg.
  assert (0 < 2 ^ 53) by (by apply Z.pow_pos_nonneg).
  destruct (Z.ltb_spec n 0); [lia|].
  destruct (Z.ltb_spec n (2 ^ 53)); [lia|]. cbn [fm fe].
  assert (53 <= Z.log2 n) by (apply Z.log2_le_pow2; lia).
  set (sh := Z.log2 n - 52).
  assert (0 < 2 ^ sh) by (apply Z.pow_pos_nonneg; lia).
  destruct (Z.log2_spec n) as [Hlo Hhi]; [lia|].
  replace (Z.log2 n) with (52 + sh) in Hlo by lia.
  replace (Z.succ (Z.log2 n)) with (53 + sh) in Hhi by lia.
  rewrite Z.pow_add_r in Hlo, Hhi by lia.
  assert (2 ^ 52 <= n / 2 ^ sh) by (apply Z.div_le_lower_bound; lia).
  assert (n / 2 ^ sh < 2 ^ 53) by (apply Z.div_lt_upper_bound; lia).
  pose proof (round_half_even_bounds n (2 ^ sh)). lia.
Qed.

Lemma float_lt_1024_big (m e : Z) :
  2 ^ 52 <= m -> -40 <= e -> float_lt_1024 (mkFloat m e) = false.
Proof.
  intros Hm He. unfold float_lt_1024. cbn [fm fe].
  assert (2 ^ 52 = 4503599627370496) as E52 by reflexivity.
  destruct (Z.ltb_spec e 0).
  - assert (2 ^ (- e) <= 2 ^ 40) by (apply Z.pow_le_mono_r; lia).
    assert (2 ^ 40 = 1099511627776) as E40 by reflexivity.
    destruct (Z.ltb_spec m (1024 * 2 ^ (- e))); [lia|done].
  - assert (0 < 2 ^ e) by (apply Z.pow_pos_nonneg; lia).
    destruct (Z.ltb_spec (m * 2 ^ e) 1024); [nia|done].
Qed.

Lemma checked_big (m e : Z) :
  0 <= m <= 2 ^ 53 -> e <= 940 -> checked (mkFloat m e) = Ok (mkFloat m e).
Proof.
  intros Hm He. unfold checked, overflows. cbn [fm fe].
  assert (2 ^ 53 < 2 ^ 1024) by (apply Z.pow_lt_mono_r; lia).
  destruct (Z.ltb_spec e 0).
  - assert (0 < 2 ^ (- e)) by (apply Z.pow_pos_nonneg; lia).
    destruct (Z.leb_spec (2 ^ 1024 * 2 ^ (- e)) (Z.abs m)); [nia|done].
  - assert (2 ^ e <= 2 ^ 940) by (apply Z.pow_le_mono_r; lia).
    assert (0 < 2 ^ e) by (apply Z.pow_pos_nonneg; lia).
    assert (2 ^ 53 * 2 ^ 940 < 2 ^ 1024).
    { rewrite <- Z.pow_add_r by lia. apply Z.pow_lt_mono_r; lia. }
    destruct (Z.leb_spec (2 ^ 1024) (Z.abs m * 2 ^ e)); [nia|done].
Qed.

(** From 1024 GB on the unit is TB, however large the size; the only
    other outcome is the overflow of the conversion to [float]. *)
Lemma format_size_TB (size : Z) :
  1024 ^ 4 <= size ->
  (exists digits, _format_size size = Ok (digits +:+ " TB"))
  \/ _format_size size = Raise OverflowError.
Proof.
  intros Hsize. assert (1024 ^ 4 = 1099511627776) as E by reflexivity.
  assert (2 ^ 53 = 9007199254740992) as E53 by reflexivity.
  destruct (Z.lt_ge_cases size (2 ^ 53)) as [Hlt|Hge].
  - left. rewrite format_size_exact by lia.
    unfold format_size_spec, unit_index.
    change (1024 * 1024 ^ 3) with (1024 ^ 4).
    destruct (Z.ltb_spec size 1024); [lia|].
    destruct (Z.ltb_spec size (1024 * 1024)); [lia|].
    destruct (Z.ltb_spec size (1024 * 1024 ^ 2)); [lia|].
    destruct (Z.ltb_spec size (1024 ^ 4)); [lia|]. by eexists.
  - destruct (round53_big size) as (Hm & He & _); [lia|].
    unfold _format_size. cbn [format_units lt_1024].
    destruct (Z.ltb_spec size 1024); [lia|].
    cbn [div_1024]. unfold checked.
    destruct (overflows _); [by right|left].
    cbn [rbind lt_1024 div_1024 fm fe format_1f].
    rewrite !float_lt_1024_big by lia. by eexists.
Qed.

(** Up to [2 ^ 1000] bytes there is no overflow. *)
Lemma format_size_TB_returns (size : Z) :
  1024 ^ 4 <= size < 2 ^ 1000 ->
  exists digits, _format_size size = Ok (digits +:+ " TB").
Proof.
  intros Hsize. destruct (format_size_TB size) as [H|H]; [lia|done|].
  exfalso. revert H.
  assert (1024 ^ 4 = 1099511627776) as E by reflexivity.
  assert (2 ^ 53 = 9007199254740992) as E53 by reflexivity.
  destruct (Z.lt_ge_cases size (2 ^ 53)) as [Hlt|Hge].
  - by rewrite format_size_exact by lia.
  - destruct (round53_big size) as (Hm & He & Hfe); [lia|].
    assert (Z.log2 size < 1000) by (apply Z.log2_lt_pow2; lia).
    unfold _format_size. cbn [format_units lt_1024].
    destruct (Z.ltb_spec size 1024); [lia|].
    cbn [div_1024]. rewrite checked_big by lia.
    cbn [rbind lt_1024 div_1024 fm fe format_1f].
    by rewrite !float_lt_1024_big by lia.
Qed.

End SizeFormat.

(** C7: the size is divided by 1024 across B, KB, MB and GB and printed,
    with one decimal place, at the first unit where it is below 1024;
    from 1024 GB on it is printed in TB, without a bound on the size
    (beyond [2 ^ 1000] bytes the only other outcome is Python's
    [OverflowError]); the four sizes of the specification print as it
    says. *)
Theorem format_size_units :
  (forall size, 0 <= size < 2 ^ 53 ->
                _format_size size = Ok (format_size_spec size))
  /\ (forall size, 1024 ^ 4 <= size ->
                   (exists digits, _format_size size = Ok (digits +:+ " TB"))
                   \/ _format_size size = Raise OverflowError)
  /\ (forall size, 1024 ^ 4 <= size < 2 ^ 1000 ->
                   exists digits, _format_size size = Ok (digits +:+ " TB"))
  /\ _format_size 512 = Ok "512.0 B"
  /\ _format_size 1024 = Ok "1.0 KB"
  /\ _format_size 1048576 = Ok "1.0 MB"
  /\ _format_size 1073741824 = Ok "1.0 GB".
Proof.
  split_and!; try reflexivity.
  - apply format_size_exact.
  - apply format_size_TB.
  - apply format_size_TB_returns.
Qed.

(** One and a half KB, and 2 ^ 70 bytes, which is above 1024 TB. *)
Lemma format_size_units_witness :
  _format_size 1536 = Ok "1.5 KB"
  /\ exists digits, _format_size (2 ^ 70) = Ok (digits +:+ " TB").
Proof.
  destruct format_size_units as (Hexact & _ & HTB & _). split.
  - rewrite (Hexact 1536); [reflexivity|]. split; [lia|reflexivity].
  - apply (HTB (2 ^ 70)). split; [by vm_compute|reflexivity].
Defined.

(** ** The tree listing *)

(** C2, evaluated: the listing of the sample project has a line for the
    hidden directory [.git], for the hidden file [.env] and for the
    hidden file [.keep] inside [cache]; only the content of [.git] is
    left out. *)
Theorem tree_lists_hidden_entries :
  exists lines,
    get_project_tree sample_fs sample_pm 3
    = Ok (Str.join Str.newline lines)
    /\ lines = [ "proj/";
                 "├── .git/";
                 "├── cache/";
                 "│   └── .keep (0.0 B)";
                 "├── empty/";
                 "├── src/";
                 "│   ├── data.JSON (2.0 B)";
                 "│   └── module.py (1.0 B)";
                 "├── .env (3.0 B)";
                 "├── config.json (2.0 B)";
                 "└── main.py (5.0 B)" ].
Proof. eexists. split; [|reflexivity]. by vm_compute. Qed.

(** ** Construction *)

Section Construction.

Lemma split_slash_no_slash (s : string) :
  Forall (fun x => Wf.has_slash x = false) (split_slash s).
Proof.
  induction s as [|c s IH]; simpl; [by repeat constructor|].
  destruct (Ascii.eqb c "/") eqn:Hc; [by constructor|].
  destruct (split_slash s) as [|x l]; simpl.
  - repeat constructor. simpl. by rewrite Hc.
  - apply Forall_cons in IH as [Hx Hl]. constructor; [|done].
    simpl. by rewrite Hc, Hx.
Qed.

Lemma Forall_removelast {A} (P : A -> Prop) (l : list A) :
  Forall P l -> Forall P (removelast l).
Proof.
  induction 1 as [|x l Hx Hl IH]; simpl; [constructor|].
  destruct l; [constructor|]. by constructor.
Qed.

Lemma normalise_canonical (comps : list string) :
  Forall (fun x => Wf.has_slash x = false) comps ->
  forall acc, canonical acc -> canonical (normalise acc comps).
Proof.
  induction 1 as [|c comps Hc Hcomps IH]; intros acc Hacc; simpl; [done|].
  destruct (String.eqb c EmptyString) eqn:E1; simpl; [by apply IH|].
  destruct (String.eqb c ".") eqn:E2; simpl; [by apply IH|].
  destruct (String.eqb c "..") eqn:E3.
  - apply IH. by apply Forall_removelast.
  - apply IH. apply Forall_app. split; [done|]. repeat constructor.
    unfold Wf.valid_name. by rewrite E1, E2, E3, Hc.
Qed.

Lemma resolve_canonical (cwd : path) (s : string) :
  canonical cwd -> canonical (resolve cwd s).
Proof.
  intros Hcwd. unfold resolve.
  pose proof (split_slash_no_slash s) as Hs.
  assert (canonical (normalise [] (split_slash s))) as Habs.
  { apply normalise_canonical; [done|constructor]. }
  assert (canonical (normalise cwd (split_slash s))) as Hrel.
  { by apply normalise_canonical. }
  destruct s as [|c s']; [done|].
  destruct c as [[] [] [] [] [] [] [] []]; done.
Qed.

(** The walk of [stat] fails with [OSError] exactly at a name that is
    too long; otherwise it reports what the lookup reports. *)
Lemma stat_walk_cases (p : path) (n : node) :
  (Fs.stat_walk n p = Raise OSError
   /\ exists pre x post es,
        p = pre ++ x :: post
        /\ (Fs.NAME_MAX < String.length x)%nat
        /\ Fs.resolve_node n pre = Ok (Dir es))
  \/ (Fs.stat_walk n p = Fs.resolve_node n p
      /\ Fs.stat_walk n p <> Raise OSError
      /\ ~ exists pre x post es,
             p = pre ++ x :: post
             /\ (Fs.NAME_MAX < String.length x)%nat
             /\ Fs.resolve_node n pre = Ok (Dir es)).
Proof.
  revert n. induction p as [|x p IH]; intros n.
  - right. split_and!; [done|done|].
    intros (pre & y & post & es & Hp & _). by destruct pre.
  - destruct n as [c|es].
    + right. split_and!; [done|done|].
      intros (pre & y & post & es & Hp & _ & Hres). by destruct pre.
    + cbn [Fs.stat_walk Fs.resolve_node].
      destruct (Nat.ltb_spec Fs.NAME_MAX (String.length x)) as [Hlong|Hshort].
      { left. split; [done|]. by exists [], x, p, es. }
      destruct (Fs.lookup_entry x es) as [c|] eqn:Hx.
      * destruct (IH c) as [(Herr & pre & y & post & es' & -> & Hy & Hpre)
                            |(Heq & Hne & Hnone)].
        -- left. split; [done|]. exists (x :: pre), y, post, es'.
           split_and!; [done|done|]. simpl. by rewrite Hx.
        -- right. split_and!; [done|done|].
           intros (pre & y & post & es' & Hp & Hy & Hpre).
           destruct pre as [|z pre]; simplify_eq/=; [lia|].
           rewrite Hx in Hpre. apply Hnone. by exists pre, y, post, es'.
      * right. split_and!; [done|done|].
        intros (pre & y & post & es' & Hp & Hy & Hpre).
        destruct pre as [|z pre]; simplify_eq/=; [lia|].
        by rewrite Hx in Hpre.
Qed.

Lemma resolve_node_lookup (fs : node) (p : path) (n : node) :
  Fs.resolve_node fs p = Ok n <-> Fs.lookup fs p = Some n.
Proof.
  unfold Fs.lookup. destruct (Fs.resolve_node fs p); split; congruence.
Qed.

(** [Path.exists()] raises exactly when the path is too long, and
    answers by the lookup otherwise. *)
Lemma exists_cases (fs : node) (p : path) :
  (Fs.exists_ fs p = Raise OSError /\ too_long fs p)
  \/ (~ too_long fs p
      /\ Fs.exists_ fs p
         = Ok (match Fs.lookup fs p with Some _ => true | None => false end)).
Proof.
  unfold Fs.exists_, Fs.stat, too_long.
  destruct (Nat.leb_spec Fs.PATH_MAX (String.length (Fs.abs_str p)))
    as [Hpath|Hpath].
  { left. split; [done|by left]. }
  destruct (stat_walk_cases p fs)
    as [(-> & pre & x & post & es & Hp & Hx & Hpre)|(Heq & Hne & Hnone)].
  - left. split; [done|]. right. exists pre, x, post, es.
    by rewrite <- resolve_node_lookup.
  - right. split.
    + intros [?|(pre & x & post & es & Hp & Hx & Hpre)]; [lia|].
      apply Hnone. exists pre, x, post, es. by rewrite resolve_node_lookup.
    + rewrite Heq in Hne |- *. unfold Fs.lookup.
      destruct (Fs.resolve_node fs p) as [n|e] eqn:Hres; [done|].
      assert (e = FileNotFoundError \/ e = NotADirectoryError) as [->| ->];
        [|done|done].
      clear -Hres. revert fs Hres.
      induction p as [|x p IH]; intros fs; simpl; [done|].
      destruct fs as [c|es]; [intros [= <-]; by right|].
      destruct (Fs.lookup_entry x es) as [c|]; [apply IH|].
      intros [= <-]. by left.
Qed.

Lemma within_limits_not_too_long (fs : node) (p : path) :
  (String.length (Fs.abs_str p) < Fs.PATH_MAX)%nat ->
  Forall (fun x => (String.length x <= Fs.NAME_MAX)%nat) p ->
  ~ too_long fs p.
Proof.
  intros Hpath Hnames [?|(pre & x & post & es & -> & Hx & _)]; [lia|].
  apply Forall_app in Hnames as [_ Hnames].
  apply Forall_cons in Hnames as [Hx' _]. lia.
Qed.

End Construction.

(** C8 (amended): construction raises [ValueError] when the string has
    a NUL byte, or when the existence test answers that the resolved
    path names nothing; it raises [OSError] when that test fails
    because the path is too long, and nothing else is checked.  For a
    path within the limits of the system it raises, and then
    [ValueError], exactly when the resolved path names nothing.
    Otherwise the object holds the resolved path, which is canonical,
    and the paths a scan reports name entries below it. *)
Theorem init_checks_existence (fs : node) (cwd : path) (s : string) :
  (__init__ fs cwd s = Raise OSError
   <-> Str.has_nul s = false /\ too_long fs (resolve cwd s))
  /\ (__init__ fs cwd s = Raise ValueError
      <-> Str.has_nul s = true
          \/ (~ too_long fs (resolve cwd s)
              /\ Fs.lookup fs (resolve cwd s) = None))
  /\ (forall pm,
        __init__ fs cwd s = Ok pm
        <-> Str.has_nul s = false
            /\ ~ too_long fs (resolve cwd s)
            /\ Fs.lookup fs (resolve cwd s) <> None
            /\ pm = mkProjectManager (resolve cwd s))
  /\ (forall e, __init__ fs cwd s = Raise e -> e = ValueError \/ e = OSError)
  /\ (Str.has_nul s = false ->
      (String.length (Fs.abs_str (resolve cwd s)) < Fs.PATH_MAX)%nat ->
      Forall (fun x => (String.length x <= Fs.NAME_MAX)%nat) (resolve cwd s) ->
      (__init__ fs cwd s = Raise ValueError
       <-> Fs.lookup fs (resolve cwd s) = None)
      /\ (__init__ fs cwd s = Ok (mkProjectManager (resolve cwd s))
          <-> Fs.lookup fs (resolve cwd s) <> None))
  /\ (canonical cwd -> canonical (resolve cwd s))
  /\ (forall pm md,
        Wf.wf fs = true ->
        __init__ fs cwd s = Ok pm ->
        exists st,
          scan_project fs pm md = Ok st
          /\ (forall d,
                d ∈ empty_dirs st ->
                exists rel,
                  d = Fs.path_str rel
                  /\ Fs.lookup fs (resolve cwd s ++ rel) = Some (Dir []))
          /\ (forall fi,
                fi ∈ large_files st ->
                exists rel c,
                  fi_path fi = Fs.path_str rel
                  /\ Fs.lookup fs (resolve cwd s ++ rel) = Some (File c))).
Proof.
  assert (forall pm, __init__ fs cwd s = Ok pm ->
                     pm = mkProjectManager (resolve cwd s)) as Hpm.
  { unfold __init__. destruct (Str.has_nul s); [done|].
    destruct (Fs.exists_ fs (resolve cwd s)) as [[]|]; simpl; congruence. }
  assert ((__init__ fs cwd s = Raise OSError
           <-> Str.has_nul s = false /\ too_long fs (resolve cwd s))
          /\ (__init__ fs cwd s = Raise ValueError
              <-> Str.has_nul s = true
                  \/ (~ too_long fs (resolve cwd s)
                      /\ Fs.lookup fs (resolve cwd s) = None))
          /\ (__init__ fs cwd s = Ok (mkProjectManager (resolve cwd s))
              <-> Str.has_nul s = false
                  /\ ~ too_long fs (resolve cwd s)
                  /\ Fs.lookup fs (resolve cwd s) <> None)
          /\ (forall e, __init__ fs cwd s = Raise e
                        -> e = ValueError \/ e = OSError))
    as (Hos & Hval & Hok & Honly).
  { unfold __init__. destruct (Str.has_nul s) eqn:Hnul.
    { split_and!; [split; [done|by intros [? _]]
                  |split; [by left|done]
                  |split; [done|by intros [? _]]
                  |intros e [= <-]; by left]. }
    destruct (exists_cases fs (resolve cwd s)) as [[-> Hlong]|[Hshort ->]].
    { simpl. split_and!; [done
                         |split; [done|intros [?|[? _]]; done]
                         |split; [done|intros (_ & ? & _); done]
                         |intros e [= <-]; by right]. }
    simpl. destruct (Fs.lookup fs (resolve cwd s)) as [n|] eqn:Hroot.
    - split_and!; [split; [done|intros [_ ?]; done]
                  |split; [done|intros [?|[_ ?]]; done]
                  |done
                  |done].
    - split_and!; [split; [done|intros [_ ?]; done]
                  |split; [by right|done]
                  |split; [done|intros (_ & _ & ?); done]
                  |intros e [= <-]; by left]. }
  split_and!; [done|done| |done| | |].
  - intros pm. split.
    + intros Hinit. pose proof (Hpm pm Hinit) as ->.
      apply Hok in Hinit as (? & ? & ?). done.
    + intros (? & ? & ? & ->). by apply Hok.
  - intros Hnul Hpath Hnames.
    pose proof (within_limits_not_too_long fs _ Hpath Hnames) as Hshort.
    split.
    + rewrite Hval. split; [intros [?|[_ ?]]; [congruence|done]|by right].
    + rewrite Hok. split; [by intros (_ & _ & ?)|done].
  - apply resolve_canonical.
  - intros pm md Hwf Hinit. pose proof (Hpm pm Hinit) as ->.
    rewrite scan_project_run. simpl.
    eexists. split; [reflexivity|]. split.
    + intros d. rewrite scan_fold_empty_dirs. simpl.
      change (map ?f ?l) with (f <$> l). rewrite list_elem_of_fmap.
      intros ([rel m] & -> & [Hin HP]%elem_of_filter_items). simpl in *.
      apply andb_prop in HP as [Hv He].
      destruct m as [c|[|e es]]; try done. exists rel. split; [done|].
      assert (visited fs (resolve cwd s) md rel (Dir [])) as (_ & H & _).
      { by apply visited_rel_items. }
      done.
    + intros fi. rewrite scan_fold_large_files. simpl.
      change (map ?f ?l) with (f <$> l). rewrite list_elem_of_fmap.
      intros ([rel m] & -> & [Hin HP]%elem_of_filter_items). simpl in *.
      apply andb_prop in HP as [Hv [Hf _]%andb_prop].
      destruct m as [c|es]; [|done]. exists rel, c. split; [done|].
      assert (visited fs (resolve cwd s) md rel (File c)) as (_ & H & _).
      { by apply visited_rel_items. }
      done.
Qed.

(** Construction on the sample project, from a path with [..] and [.]
    in it; a path that names nothing is refused, and so are a name of
    256 bytes and a path of 4096 bytes, by another exception; a path of
    4095 bytes is looked up. *)
Lemma init_checks_existence_witness :
  __init__ sample_fs ["home"] "proj/../proj/./src/"
  = Ok (mkProjectManager ["home"; "proj"; "src"])
  /\ canonical (resolve ["home"] "proj/../proj/./src/")
  /\ __init__ sample_fs ["home"] "/nonexistent/path" = Raise ValueError
  /\ __init__ sample_fs ["home"] ("proj/" +:+ long_name) = Raise OSError
  /\ __init__ sample_fs ["home"] (deep_path "q" 2047) = Raise OSError
  /\ __init__ sample_fs ["home"] (deep_path "qq" 2046) = Raise ValueError
  /\ exists st,
       scan_project sample_fs sample_pm 20 = Ok st
       /\ forall d,
            d ∈ empty_dirs st ->
            exists rel,
              d = Fs.path_str rel
              /\ Fs.lookup sample_fs (resolve ["home"] "proj" ++ rel)
                 = Some (Dir []).
Proof.
  split_and!.
  - destruct (init_checks_existence sample_fs ["home"] "proj/../proj/./src/")
      as (_ & _ & _ & _ & Hlimits & _).
    destruct Hlimits as [_ Hok].
    + reflexivity.
    + vm_compute. lia.
    + apply (bool_decide_unpack _). by vm_compute.
    + by apply Hok.
  - destruct (init_checks_existence sample_fs ["home"] "proj/../proj/./src/")
      as (_ & _ & _ & _ & _ & Hcanon & _).
    apply Hcanon. by repeat constructor.
  - destruct (init_checks_existence sample_fs ["home"] "/nonexistent/path")
      as (_ & _ & _ & _ & Hlimits & _).
    destruct Hlimits as [Hval _].
    + reflexivity.
    + vm_compute. lia.
    + apply (bool_decide_unpack _). by vm_compute.
    + by apply Hval.
  - destruct (init_checks_existence sample_fs ["home"]
                ("proj/" +:+ long_name)) as (Hos & _).
    apply Hos. split; [reflexivity|]. right.
    exists ["home"; "proj"], long_name, [].
    eexists. split_and!; [reflexivity|vm_compute; lia|reflexivity].
  - destruct (init_checks_existence sample_fs ["home"] (deep_path "q" 2047))
      as (Hos & _).
    apply Hos. split; [by vm_compute|]. left. vm_compute. lia.
  - destruct (init_checks_existence sample_fs ["home"] (deep_path "qq" 2046))
      as (_ & _ & _ & _ & Hlimits & _).
    destruct Hlimits as [Hval _].
    + by vm_compute.
    + vm_compute. lia.
    + apply (bool_decide_unpack _). by vm_compute.
    + apply Hval. by vm_compute.
  - destruct (init_checks_existence sample_fs ["home"] "proj")
      as (_ & _ & _ & _ & _ & _ & Hscan).
    destruct (Hscan sample_pm 20 eq_refl eq_refl) as (st & Hst & Hdirs & _).
    exists st. done.
Defined.

(** C8 as stated fails: the path [proj/aaa...] with a name of 256
    bytes does not exist, and construction raises [OSError], not the
    [ValueError] it has for a path that does not exist. *)
Lemma init_long_name_counterexample :
  Fs.lookup sample_fs (resolve ["home"] ("proj/" +:+ long_name)) = None
  /\ __init__ sample_fs ["home"] ("proj/" +:+ long_name) = Raise OSError
  /\ __init__ sample_fs ["home"] ("proj/" +:+ long_name) <> Raise ValueError.
Proof. split_and!; [by vm_compute|by vm_compute|by vm_compute]. Qed.

(** ** Deleting and copying *)

Section Batches.

Variable glob_match : string -> path -> bool.

Lemma find_files_under (fs : node) (self : ProjectManager)
    (pattern : string) :
  Forall (fun f => exists rel, f = project_path self ++ rel)
    (find_files glob_match fs self pattern None).
Proof.
  unfold find_files, sorted_paths. rewrite merge_sort_Permutation.
  unfold rglob. apply List.Forall_forall. intros f Hf.
  apply in_map_iff in Hf as (e & <- & _). by exists (fst e).
Qed.

Lemma sample_lines_under (root : path) (files : list path) :
  Forall (fun f => exists rel, f = root ++ rel) files ->
  exists lines, sample_lines root files = Ok lines.
Proof.
  induction 1 as [|f files [rel ->] _ [lines IH]]; simpl; [by eexists|].
  rewrite relative_to_app, IH. simpl. by eexists.
Qed.

Lemma announce_under (root : path) (files : list path) :
  Forall (fun f => exists rel, f = root ++ rel) files ->
  exists printed, announce root files = Ok printed.
Proof.
  intros Hfiles. unfold announce.
  destruct (sample_lines_under root (take 5 files)) as [lines ->].
  - by apply Forall_take.
  - simpl. by eexists.
Qed.

Lemma delete_loop_count (files : list path) (count k : nat) (fs fs' : node) :
  delete_loop files count fs = (Ok k, fs') -> k = (count + length files)%nat.
Proof.
  revert count fs. induction files as [|f files IH]; intros count fs; simpl.
  - unfold ret. intros [= <- _]. lia.
  - unfold bind at 1. destruct (unlink f fs) as [[[]|e] fs1]; [|done].
    intros Hk%IH. lia.
Qed.

Lemma delete_loop_app (done_ todo : list path) (count : nat) (fs : node) :
  delete_loop (done_ ++ todo) count fs
  = match delete_loop done_ count fs with
    | (Ok count', fs') => delete_loop todo count' fs'
    | (Raise e, fs') => (Raise e, fs')
    end.
Proof.
  revert count fs. induction done_ as [|f done_ IH]; intros count fs; simpl.
  - done.
  - unfold bind. destruct (unlink f fs) as [[[]|e] fs1]; [|done].
    apply IH.
Qed.

Lemma copy_loop_count (dest : path) (files : list path) (count k : nat)
    (fs fs' : node) :
  copy_loop dest files count fs = (Ok k, fs') ->
  k = (count + length files)%nat.
Proof.
  revert count fs. induction files as [|f files IH]; intros count fs; simpl.
  - unfold ret. intros [= <- _]. lia.
  - unfold bind at 1. destruct (copy_one dest f fs) as [[[]|e] fs1]; [|done].
    intros Hk%IH. lia.
Qed.

Lemma copy_loop_app (dest : path) (done_ todo : list path) (count : nat)
    (fs : node) :
  copy_loop dest (done_ ++ todo) count fs
  = match copy_loop dest done_ count fs with
    | (Ok count', fs') => copy_loop dest todo count' fs'
    | (Raise e, fs') => (Raise e, fs')
    end.
Proof.
  revert count fs. induction done_ as [|f done_ IH]; intros count fs; simpl.
  - done.
  - unfold bind.
    destruct (copy_one dest f fs) as [[[]|e] fs1]; [|done]. apply IH.
Qed.

(** A system call that fails leaves the filesystem as it was. *)
Lemma update_raise_state (f : node -> result node) (fs fs' : node) (e : exn) :
  update f fs = (Raise e, fs') -> fs' = fs.
Proof. unfold update. destruct (f fs); [done|]. by intros [= _ <-]. Qed.

Lemma copy_one_raise_state (dest f : path) (fs fs' : node) (e : exn) :
  copy_one dest f fs = (Raise e, fs') -> fs' = fs.
Proof.
  unfold copy_one, bind, read_bytes, query.
  destruct (Os.read_at fs f) as [data|e']; [|by intros [= _ <-]].
  apply update_raise_state.
Qed.

(** C9: [delete_files] returns 0 and leaves the filesystem as it is
    when nothing matches the pattern, and when confirmation is asked
    for and the answer is not [y]. *)
Theorem delete_files_nothing (input : list string -> string -> string)
    (self : ProjectManager) (pattern : string) (confirm : bool) (fs : node) :
  (find_files glob_match fs self pattern None = [] ->
   delete_files glob_match input self pattern confirm fs = (Ok 0%nat, fs))
  /\ (confirm = true ->
      (forall printed prompt, Str.lower (input printed prompt) <> "y") ->
      delete_files glob_match input self pattern confirm fs = (Ok 0%nat, fs)).
Proof.
  split.
  - intros Hnone. unfold delete_files, bind, query. by rewrite Hnone.
  - intros -> Hno. unfold delete_files, bind, query.
    pose proof (find_files_under fs self pattern) as Hunder.
    destruct (find_files glob_match fs self pattern None) as [|f files];
      [done|].
    destruct (announce_under (project_path self) (f :: files) Hunder)
      as [printed ->].
    unfold ret.
    destruct (String.eqb_spec
                (Str.lower (input printed "Продолжить? (y/n): ")) "y")
      as [Heq|_]; [|done].
    by apply Hno in Heq.
Qed.

(** C3 (amended): when the first error comes after [k] files, the
    files after it are left alone, the [k] files stay deleted or
    copied, and the error is raised: no count is returned.  For
    [delete_files] this holds without confirmation and after a
    confirmation that was answered by [y]. *)
Theorem batch_error_raises (input : list string -> string -> string)
    (self : ProjectManager) (pattern : string) (dest : path)
    (create_dirs confirm : bool) (fs fs1 fs_k fs_e : node)
    (done_ : list path) (f : path) (rest : list path) (k : nat) (e : exn) :
  (find_files glob_match fs self pattern None = done_ ++ f :: rest ->
   (confirm = true ->
    forall printed,
      Str.lower (input printed "Продолжить? (y/n): ") = "y") ->
   delete_loop done_ 0 fs = (Ok k, fs_k) ->
   unlink f fs_k = (Raise e, fs_e) ->
   k = length done_ /\ fs_e = fs_k
   /\ delete_files glob_match input self pattern confirm fs = (Raise e, fs_k))
  /\ ((if create_dirs then mkdir dest else ret tt) fs = (Ok tt, fs1) ->
      find_files glob_match fs1 self pattern None = done_ ++ f :: rest ->
      copy_loop dest done_ 0 fs1 = (Ok k, fs_k) ->
      copy_one dest f fs_k = (Raise e, fs_e) ->
      k = length done_ /\ fs_e = fs_k
      /\ copy_files glob_match self pattern dest create_dirs fs
         = (Raise e, fs_k)).
Proof.
  split.
  - intros Hfiles Hyes Hdone Herr.
    pose proof (update_raise_state _ _ _ _ Herr) as ->. split_and!; [|done|].
    { by apply delete_loop_count in Hdone. }
    pose proof (find_files_under fs self pattern) as Hunder.
    unfold delete_files, bind at 1, query. rewrite Hfiles in Hunder |- *.
    destruct (done_ ++ f :: rest) as [|f0 l] eqn:Hl.
    { by destruct done_. }
    assert (delete_loop (f0 :: l) 0 fs = (Raise e, fs_k)) as Hloop.
    { rewrite <- Hl, delete_loop_app, Hdone. simpl.
      unfold bind. by rewrite Herr. }
    unfold bind at 1. destruct confirm.
    + unfold bind at 1, query.
      destruct (announce_under (project_path self) (f0 :: l) Hunder)
        as [printed ->].
      unfold ret. by rewrite Hyes.
    + unfold ret. exact Hloop.
  - intros Hprep Hfiles Hdone Herr.
    pose proof (copy_one_raise_state _ _ _ _ _ Herr) as ->. split_and!; [|done|].
    { by apply copy_loop_count in Hdone. }
    unfold copy_files, bind at 1. rewrite Hprep.
    unfold bind at 1, query. rewrite Hfiles, copy_loop_app, Hdone. simpl.
    unfold bind at 1. by rewrite Herr.
Qed.

End Batches.

(** Nothing ends in [.rs] in the sample project, and the answer [n]
    keeps its two [.py] files. *)
Lemma delete_files_nothing_witness :
  delete_files name_match (fun _ _ => "Y") sample_pm "*.rs" false sample_fs
  = (Ok 0%nat, sample_fs)
  /\ delete_files name_match (fun _ _ => "n") sample_pm "*.py" true sample_fs
     = (Ok 0%nat, sample_fs).
Proof.
  split.
  - apply (proj1 (delete_files_nothing name_match (fun _ _ => "Y") sample_pm
                    "*.rs" false sample_fs)).
    reflexivity.
  - apply (proj2 (delete_files_nothing name_match (fun _ _ => "n") sample_pm
                    "*.py" true sample_fs)).
    + reflexivity.
    + intros _ _. discriminate.
Defined.

(** Deleting and copying [*.tmp] where [a.tmp] is a file and [b.tmp] a
    directory: [a.tmp] is processed and the error for [b.tmp] is
    raised, with and without a confirmation. *)
Lemma batch_error_raises_witness :
  delete_files name_match (fun _ _ => "n") mixed_pm "*.tmp" false mixed_fs
  = (Raise IsADirectoryError, Dir [("proj", Dir [("b.tmp", Dir [])])])
  /\ delete_files name_match (fun _ _ => "Y") mixed_pm "*.tmp" true mixed_fs
     = (Raise IsADirectoryError, Dir [("proj", Dir [("b.tmp", Dir [])])])
  /\ copy_files name_match mixed_pm "*.tmp" ["out"] true mixed_fs
     = (Raise IsADirectoryError,
        Dir [ ("proj", Dir [("a.tmp", File [x61]); ("b.tmp", Dir [])]);
              ("out", Dir [("a.tmp", File [x61])]) ]).
Proof.
  split_and!.
  - destruct (batch_error_raises name_match (fun _ _ => "n") mixed_pm
                "*.tmp" ["out"] true false mixed_fs mixed_fs
                (Dir [("proj", Dir [("b.tmp", Dir [])])])
                (Dir [("proj", Dir [("b.tmp", Dir [])])])
                [["proj"; "a.tmp"]] ["proj"; "b.tmp"] [] 1
                IsADirectoryError) as [Hdelete _].
    apply Hdelete; [reflexivity|discriminate|reflexivity|reflexivity].
  - destruct (batch_error_raises name_match (fun _ _ => "Y") mixed_pm
                "*.tmp" ["out"] true true mixed_fs mixed_fs
                (Dir [("proj", Dir [("b.tmp", Dir [])])])
                (Dir [("proj", Dir [("b.tmp", Dir [])])])
                [["proj"; "a.tmp"]] ["proj"; "b.tmp"] [] 1
                IsADirectoryError) as [Hdelete _].
    apply Hdelete; [reflexivity|reflexivity|reflexivity|reflexivity].
  - destruct (batch_error_raises name_match (fun _ _ => "y") mixed_pm
                "*.tmp" ["out"] true false mixed_fs
                (Dir [ ("proj",
                        Dir [("a.tmp", File [x61]); ("b.tmp", Dir [])]);
                       ("out", Dir []) ])
                (Dir [ ("proj",
                        Dir [("a.tmp", File [x61]); ("b.tmp", Dir [])]);
                       ("out", Dir [("a.tmp", File [x61])]) ])
                (Dir [ ("proj",
                        Dir [("a.tmp", File [x61]); ("b.tmp", Dir [])]);
                       ("out", Dir [("a.tmp", File [x61])]) ])
                [["proj"; "a.tmp"]] ["proj"; "b.tmp"] [] 1
                IsADirectoryError) as [_ Hcopy].
    apply Hcopy; reflexivity.
Defined.

(** C3 as stated fails: after one file the operations raise, they do
    not return the count 1, whether a confirmation was asked for or
    not. *)
Lemma batch_partial_count_counterexample :
  (exists fs',
      delete_files name_match (fun _ _ => "y") mixed_pm "*.tmp" false mixed_fs
      = (Raise IsADirectoryError, fs')
      /\ Fs.lookup fs' ["proj"; "a.tmp"] = None)
  /\ (exists fs',
        delete_files name_match (fun _ _ => "y") mixed_pm "*.tmp" true mixed_fs
        = (Raise IsADirectoryError, fs')
        /\ Fs.lookup fs' ["proj"; "a.tmp"] = None)
  /\ (exists fs',
        copy_files name_match mixed_pm "*.tmp" ["out"] true mixed_fs
        = (Raise IsADirectoryError, fs')
        /\ Fs.lookup fs' ["out"; "a.tmp"] = Some (File [x61]))
  /\ (forall confirm fs',
        delete_files name_match (fun _ _ => "y") mixed_pm "*.tmp" confirm
          mixed_fs
        <> (Ok 1%nat, fs'))
  /\ (forall fs',
        copy_files name_match mixed_pm "*.tmp" ["out"] true mixed_fs
        <> (Ok 1%nat, fs')).
Proof.
  split_and!.
  - eexists. split; reflexivity.
  - eexists. split; reflexivity.
  - eexists. split; reflexivity.
  - intros [] fs'; vm_compute; discriminate.
  - intros fs'. vm_compute. discriminate.
Qed.

(** ** Copying into an empty directory *)

Section Listings.

Lemma lookup_entry_app (x : string) (es es' : list (string * node)) :
  Fs.lookup_entry x (es ++ es')
  = match Fs.lookup_entry x es with
    | Some c => Some c
    | None => Fs.lookup_entry x es'
    end.
Proof.
  induction es as [|[y m] es IH]; simpl; [done|].
  by destruct (String.eqb y x).
Qed.

Lemma lookup_entry_update_eq (x : string) (c c' : node)
    (es : list (string * node)) :
  Fs.lookup_entry x es = Some c ->
  Fs.lookup_entry x (Fs.update_entry x c' es) = Some c'.
Proof.
  induction es as [|[y m] es IH]; simpl; [done|].
  destruct (String.eqb y x) eqn:E; simpl; rewrite E; [done|apply IH].
Qed.

Lemma lookup_entry_update_ne (x y : string) (c' : node)
    (es : list (string * node)) :
  x <> y ->
  Fs.lookup_entry y (Fs.update_entry x c' es) = Fs.lookup_entry y es.
Proof.
  intros Hne. induction es as [|[z m] es IH]; simpl; [done|].
  destruct (String.eqb_spec z x) as [->|Hzx]; simpl.
  - by destruct (String.eqb_spec x y).
  - by rewrite IH.
Qed.

(** Writing a new file into a directory: the directory gains the
    entry, and every regular file that was there is as before. *)
Lemma write_new (dest : path) (nm : string) (data : list byte) :
  forall fs es,
    Fs.resolve_node fs dest = Ok (Dir es) ->
    Fs.lookup_entry nm es = None ->
    exists fs',
      Os.write_at fs (dest ++ [nm]) data = Ok fs'
      /\ Fs.resolve_node fs' dest = Ok (Dir (es ++ [(nm, File data)]))
      /\ forall q c,
           Fs.resolve_node fs q = Ok (File c) ->
           Fs.resolve_node fs' q = Ok (File c).
Proof.
  induction dest as [|d dest IH]; intros fs es Hdest Hnew; simpl in *.
  - injection Hdest as ->. rewrite Hnew. eexists. split_and!; [done..|].
    intros [|x q] c; simpl; [done|]. rewrite lookup_entry_app.
    by destruct (Fs.lookup_entry x es).
  - destruct fs as [c0|es0]; [done|].
    destruct (Fs.lookup_entry d es0) as [c0|] eqn:Hd; [|done].
    destruct (IH c0 es Hdest Hnew) as (c0' & -> & Hdest' & Hframe). simpl.
    eexists. split_and!; [done| |].
    + simpl. by rewrite (lookup_entry_update_eq d c0 c0' es0 Hd).
    + intros [|x q] c; simpl; [done|].
      destruct (String.eqb_spec d x) as [Heq|Hne].
      * subst x. rewrite Hd, (lookup_entry_update_eq d c0 c0' es0 Hd).
        apply Hframe.
      * by rewrite lookup_entry_update_ne.
Qed.

End Listings.

Section Copying.

Variable glob_match : string -> path -> bool.
Variable dest : path.

(** The loop of [copy_files] over regular files with fresh, pairwise
    distinct base names. *)
Lemma copy_loop_fresh (files : list path) :
  forall fs es count,
    Fs.resolve_node fs dest = Ok (Dir es) ->
    Forall (fun f => exists c, Fs.resolve_node fs f = Ok (File c)) files ->
    NoDup (map Fs.name files) ->
    (forall f, f ∈ files -> Fs.lookup_entry (Fs.name f) es = None) ->
    exists fs',
      copy_loop dest files count fs = (Ok (count + length files)%nat, fs')
      /\ Fs.resolve_node fs' dest
         = Ok (Dir (es ++ map (copied_entry fs) files)).
Proof.
  induction files as [|f files IH]; intros fs es count Hdest Hfiles Hnd Hfresh.
  - exists fs. simpl. unfold ret. by rewrite app_nil_r, Nat.add_0_r.
  - apply Forall_cons in Hfiles as [[c Hf] Hfiles].
    simpl in Hnd. apply NoDup_cons in Hnd as [Hf_new Hnd].
    destruct (write_new dest (Fs.name f) c fs es Hdest)
      as (fs1 & Hwrite & Hdest1 & Hframe).
    { apply Hfresh. by left. }
    destruct (IH fs1 (es ++ [(Fs.name f, File c)]) (count + 1)%nat)
      as (fs' & Hloop & Hdest'); [done| |done| |].
    { eapply Forall_impl; [exact Hfiles|]. intros g [cg Hg].
      exists cg. by apply Hframe. }
    { intros g Hg. rewrite lookup_entry_app, Hfresh by (by right). simpl.
      destruct (String.eqb_spec (Fs.name f) (Fs.name g)) as [Heq|_]; [|done].
      exfalso. apply Hf_new. rewrite Heq.
      change (map ?f ?l) with (f <$> l). by apply list_elem_of_fmap_2. }
    exists fs'. split.
    + simpl. unfold bind at 1, copy_one, bind, read_bytes, query,
        write_bytes, update, Os.read_at. rewrite Hf. simpl. rewrite Hwrite.
      rewrite Hloop. do 2 f_equal. lia.
    + rewrite Hdest', <- app_assoc. do 3 f_equal. simpl. f_equal.
      * unfold copied_entry. by rewrite Hf.
      * apply map_ext_in. intros g Hg. unfold copied_entry.
        rewrite List.Forall_forall in Hfiles.
        destruct (Hfiles g Hg) as [cg Hcg].
        by rewrite Hcg, (Hframe g cg Hcg).
Qed.

(** A directory that holds regular files with visible names only. *)
Lemma scan_flat_directory (fs : node) (es : list (string * node)) (md : Z) :
  Fs.resolve_node fs dest = Ok (Dir es) ->
  Forall (fun e => Fs.is_file (snd e) = true
                   /\ Str.starts_with_dot (fst e) = false) es ->
  1 <= md ->
  exists st,
    scan_project fs (mkProjectManager dest) md = Ok st
    /\ total_files st = length es /\ total_dirs st = 0%nat.
Proof.
  intros Hdest Hes Hmd. rewrite scan_project_run. eexists.
  split; [reflexivity|].
  rewrite scan_fold_total_files, scan_fold_total_dirs. simpl.
  unfold rel_items, Fs.lookup. rewrite Hdest. simpl.
  assert (flat_map (fun e : string * node => Fs.walk [fst e] (snd e)) es = [])
    as ->.
  { clear Hdest. induction Hes as [|[x n] es [Hx _] _ IH]; simpl; [done|].
    destruct n; [|done]. by rewrite IH. }
  rewrite app_nil_r. clear Hdest.
  induction Hes as [|[x n] es [Hn Hx] _ [IHf IHd]]; [done|].
  simpl in Hn, Hx. destruct n as [c|]; [|done].
  cbn [map List.filter fst snd Fs.is_file Fs.is_dir].
  assert (visible md [x] = true) as ->.
  { unfold visible, hidden. simpl. rewrite Hx. simpl.
    by destruct (Z.gtb_spec (Z.of_nat 1) md) as [|_]; [lia|]. }
  simpl. by rewrite IHf, IHd.
Qed.

Lemma lookup_Some (fs : node) (p : path) (n : node) :
  Fs.lookup fs p = Some n <-> Fs.resolve_node fs p = Ok n.
Proof.
  unfold Fs.lookup. destruct (Fs.resolve_node fs p); split; congruence.
Qed.

(** C4 (amended): when the destination, once it exists, is an empty
    directory and the matched entries are regular files whose base
    names are pairwise distinct and do not start with a dot, the copy
    returns the number of matches, a scan of the destination with a
    depth limit of at least 1 counts that many files and no
    directory, and every copy lies directly in the destination under
    the base name of its source. *)
Theorem copy_then_scan (self : ProjectManager) (pattern : string)
    (create_dirs : bool) (md : Z) (fs fs1 : node) :
  (if create_dirs then mkdir dest else ret tt) fs = (Ok tt, fs1) ->
  Fs.lookup fs1 dest = Some (Dir []) ->
  Forall (fun f => exists c, Fs.lookup fs1 f = Some (File c))
    (find_files glob_match fs1 self pattern None) ->
  NoDup (map Fs.name (find_files glob_match fs1 self pattern None)) ->
  Forall (fun f => Str.starts_with_dot (Fs.name f) = false)
    (find_files glob_match fs1 self pattern None) ->
  1 <= md ->
  exists fs' st,
    copy_files glob_match self pattern dest create_dirs fs
    = (Ok (length (find_files glob_match fs1 self pattern None)), fs')
    /\ scan_project fs' (mkProjectManager dest) md = Ok st
    /\ total_files st
       = length (find_files glob_match fs1 self pattern None)
    /\ total_dirs st = 0%nat
    /\ Forall (fun f => Fs.lookup fs' (dest ++ [Fs.name f]) = Fs.lookup fs1 f)
         (find_files glob_match fs1 self pattern None).
Proof.
  set (files := find_files glob_match fs1 self pattern None).
  intros Hprep Hdest Hfiles Hnd Hvis Hmd.
  apply lookup_Some in Hdest.
  assert (Forall (fun f => exists c, Fs.resolve_node fs1 f = Ok (File c))
            files) as Hfiles'.
  { eapply Forall_impl; [exact Hfiles|]. intros f [c Hc]. exists c.
    by apply lookup_Some. }
  destruct (copy_loop_fresh files fs1 [] 0%nat Hdest Hfiles' Hnd)
    as (fs' & Hloop & Hdest'); [done|].
  simpl in Hloop, Hdest'.
  assert (Forall (fun e => Fs.is_file (snd e) = true
                           /\ Str.starts_with_dot (fst e) = false)
            (map (copied_entry fs1) files)) as Hentries.
  { apply List.Forall_forall. intros e He.
    apply in_map_iff in He as (f & <- & Hf).
    rewrite List.Forall_forall in Hfiles', Hvis.
    destruct (Hfiles' f Hf) as [c Hc]. unfold copied_entry. simpl.
    rewrite Hc. split; [done|]. by apply Hvis. }
  destruct (scan_flat_directory fs' _ md Hdest' Hentries Hmd)
    as (st & Hscan & Hcount & Hdirs).
  exists fs', st. split_and!.
  - unfold copy_files, bind at 1. rewrite Hprep.
    unfold bind at 1, query. fold files. exact Hloop.
  - done.
  - by rewrite Hcount, length_map.
  - done.
  - apply List.Forall_forall. intros f Hf. unfold Fs.lookup.
    rewrite resolve_node_app, Hdest'. simpl.
    rewrite (lookup_entry_NoDup (Fs.name f) _ (snd (copied_entry fs1 f))).
    + unfold copied_entry. simpl.
      rewrite List.Forall_forall in Hfiles'.
      destruct (Hfiles' f Hf) as [c ->]. done.
    + by rewrite map_map.
    + apply list_elem_of_In, in_map_iff. by exists f.
Qed.

End Copying.

(** Copying the two [.py] files of the sample project into a new
    directory [backup]. *)
Lemma copy_then_scan_witness :
  exists fs' st,
    copy_files name_match sample_pm "*.py" ["backup"] true sample_fs
    = (Ok 2%nat, fs')
    /\ scan_project fs' (mkProjectManager ["backup"]) 20 = Ok st
    /\ total_files st = 2%nat
    /\ total_dirs st = 0%nat
    /\ Fs.lookup fs' ["backup"; "module.py"]
       = Fs.lookup sample_fs ["home"; "proj"; "src"; "module.py"].
Proof.
  destruct (copy_then_scan name_match ["backup"] sample_pm "*.py" true 20
              sample_fs
              (Dir (match sample_fs with
                    | Dir es => es ++ [("backup", Dir [])]
                    | File _ => []
                    end)))
    as (fs' & st & Hcopy & Hscan & Hfiles & Hdirs & Hall).
  - reflexivity.
  - reflexivity.
  - repeat constructor; by eexists.
  - apply (bool_decide_unpack _). by vm_compute.
  - by repeat constructor.
  - lia.
  - exists fs', st. split_and!; [done..|].
    apply (proj1 (List.Forall_forall _ _) Hall ["home"; "proj"; "src"; "module.py"]).
    vm_compute. tauto.
Defined.

(** C4 as stated fails: two matched files share the base name [x.py];
    the copy returns 2 and the destination then holds one file. *)
Lemma copy_same_name_counterexample :
  exists fs' st,
    copy_files name_match twin_pm "*.py" ["out"] true twin_fs = (Ok 2%nat, fs')
    /\ length (find_files name_match twin_fs twin_pm "*.py" None) = 2%nat
    /\ scan_project fs' (mkProjectManager ["out"]) 20 = Ok st
    /\ total_files st = 1%nat.
Proof. do 2 eexists. split_and!; reflexivity. Qed.

(** ** Further statistics of a scan *)

Section ScanFields.

Variable root : path.
Variable md : Z.

Lemma scan_fold_total_size (items : list (path * node)) (st : stats) :
  total_size (scan_fold root md items st)
  = (total_size st
     + sum_sizes (List.filter
                    (fun e => visible md (fst e) && Fs.is_file (snd e)) items))%N.
Proof.
  revert st. induction items as [|[rel n] items IH]; intros st.
  - simpl. lia.
  - rewrite scan_fold_cons, IH. cbn [fst snd List.filter].
    destruct (visible md rel) eqn:Hv.
    + rewrite scan_entry_see by done.
      destruct n as [c|es]; cbn [Fs.is_file andb]; [|simpl; lia].
      cbn [see_file total_size see_depth sum_sizes fold_right snd node_size].
      fold (sum_sizes (List.filter
              (fun e => visible md (fst e) && Fs.is_file (snd e)) items)).
      lia.
    + rewrite scan_entry_skip by done. simpl. lia.
Qed.

Lemma scan_fold_max_depth (items : list (path * node)) (st : stats) :
  max_depth (scan_fold root md items st)
  = Nat.max (max_depth st)
      (max_length (List.filter (fun e => visible md (fst e)) items)).
Proof.
  revert st. induction items as [|[rel n] items IH]; intros st.
  - simpl. lia.
  - rewrite scan_fold_cons, IH. cbn [fst snd List.filter].
    destruct (visible md rel) eqn:Hv.
    + rewrite scan_entry_see by done.
      cbn [max_length fold_right fst].
      fold (max_length (List.filter (fun e => visible md (fst e)) items)).
      destruct n as [c|es]; simpl; lia.
    + rewrite scan_entry_skip by done. lia.
Qed.

Lemma scan_fold_by_extension (items : list (path * node)) (st : stats)
    (ext : string) :
  default 0%nat (by_extension (scan_fold root md items st) !! ext)
  = (default 0%nat (by_extension st !! ext)
     + length (List.filter
                 (fun e => visible md (fst e) && Fs.is_file (snd e)
                           && String.eqb (extension_of (root ++ fst e)) ext)
                 items))%nat.
Proof.
  revert st. induction items as [|[rel n] items IH]; intros st.
  - simpl. lia.
  - rewrite scan_fold_cons, IH. cbn [fst snd List.filter].
    destruct (visible md rel) eqn:Hv.
    + rewrite scan_entry_see by done.
      destruct n as [c|es]; cbn [Fs.is_file andb]; [|simpl; lia].
      cbn [see_file by_extension see_depth]. rewrite incr_lookup.
      fold (extension_of (root ++ rel)).
      destruct (String.eqb (extension_of (root ++ rel)) ext); simpl; lia.
    + rewrite scan_entry_skip by done. simpl. lia.
Qed.

End ScanFields.

Lemma elem_of_max_length (l : list (path * node)) :
  (forall e, e ∈ l -> (length (fst e) <= max_length l)%nat)
  /\ (l <> [] -> exists e, e ∈ l /\ length (fst e) = max_length l).
Proof.
  induction l as [|e l [IHle IHex]].
  - split; [by inversion 1|done].
  - change (max_length (e :: l))
      with (Nat.max (length (fst e)) (max_length l)).
    unfold path in *. split.
    + intros e' [->|Hin]%elem_of_cons; [lia|]. specialize (IHle e' Hin). lia.
    + intros _. destruct (decide (l = [])) as [->|Hne].
      * exists e. split; [by left|]. change (max_length []) with 0%nat. lia.
      * destruct (IHex Hne) as (e0 & Hin & Heq).
        destruct (Nat.max_spec (length (fst e)) (max_length l))
          as [[_ Hmax]|[_ Hmax]]; rewrite Hmax.
        -- exists e0. split; [by right|done].
        -- exists e. split; [by left|done].
Qed.

(** X1: [total_size] is the sum of the sizes of the visited regular
    files. *)
Theorem scan_total_size (fs : node) (self : ProjectManager) (md : Z) :
  Wf.wf fs = true ->
  exists st,
    scan_project fs self md = Ok st
    /\ exists files : list (path * node),
         NoDup (map fst files)
         /\ (forall rel n,
               (rel, n) ∈ files
               <-> visited fs (project_path self) md rel n
                   /\ Fs.is_file n = true)
         /\ total_size st = sum_sizes files.
Proof.
  intros Hwf. rewrite scan_project_run. eexists. split; [reflexivity|].
  rewrite scan_fold_total_size. simpl.
  eexists. split_and!; [| |reflexivity].
  - apply NoDup_map_fst_filter. by apply rel_items_NoDup.
  - intros rel n. rewrite elem_of_filter_items. simpl.
    rewrite (visited_rel_items fs (project_path self) md rel n Hwf).
    rewrite andb_true_iff. tauto.
Qed.

Lemma scan_total_size_witness :
  exists st,
    scan_project sample_fs sample_pm 20 = Ok st /\ total_size st = 10%N.
Proof.
  destruct (scan_total_size sample_fs sample_pm 20 eq_refl)
    as (st & Hst & _).
  exists st. split; [done|].
  rewrite scan_project_run in Hst. injection Hst as <-. reflexivity.
Defined.

(** X2: [max_depth] bounds the depth of every visited entry and is
    reached by one of them (it is 0 when nothing is visited); it never
    exceeds the depth limit. *)
Theorem scan_max_depth (fs : node) (self : ProjectManager) (md : Z) :
  Wf.wf fs = true ->
  exists st,
    scan_project fs self md = Ok st
    /\ (forall rel n,
          visited fs (project_path self) md rel n ->
          (length rel <= max_depth st)%nat)
    /\ ((exists rel n,
           visited fs (project_path self) md rel n
           /\ length rel = max_depth st)
        \/ (max_depth st = 0%nat
            /\ forall rel n, ~ visited fs (project_path self) md rel n))
    /\ Z.of_nat (max_depth st) <= Z.max 0 md.
Proof.
  intros Hwf. rewrite scan_project_run. eexists. split; [reflexivity|].
  rewrite scan_fold_max_depth. simpl.
  set (root := project_path self).
  set (l := List.filter (fun e : path * node => visible md (fst e))
              (rel_items fs root)).
  assert (forall rel n, (rel, n) ∈ l <-> visited fs root md rel n) as Hl.
  { intros rel n. unfold l. rewrite elem_of_filter_items. simpl.
    by rewrite (visited_rel_items fs root md rel n Hwf). }
  destruct (elem_of_max_length l) as [Hle Hex].
  split_and!.
  - intros rel n Hvis%Hl. apply (Hle (rel, n) Hvis).
  - destruct (decide (l = [])) as [Hnil|Hne].
    + right. rewrite Hnil. split; [done|].
      intros rel n Hvis%Hl. rewrite Hnil in Hvis. inversion Hvis.
    + left. destruct (Hex Hne) as ([rel n] & Hin & Heq).
      exists rel, n. split; [by apply Hl|done].
  - destruct (decide (l = [])) as [Hnil|Hne].
    + rewrite Hnil. simpl. lia.
    + destruct (Hex Hne) as ([rel n] & Hin & Heq). rewrite <- Heq. simpl.
      apply Hl in Hin as (_ & _ & _ & Hmd). lia.
Qed.

Lemma scan_max_depth_witness :
  exists st,
    scan_project sample_fs sample_pm 20 = Ok st
    /\ (length ["src"; "module.py"] <= max_depth st)%nat
    /\ Z.of_nat (max_depth st) <= Z.max 0 20.
Proof.
  destruct (scan_max_depth sample_fs sample_pm 20 eq_refl)
    as (st & Hst & Hle & _ & Hmd).
  exists st. split_and!; [done| |done].
  apply (Hle ["src"; "module.py"] (File [x78])).
  unfold visited. split_and!; [done|reflexivity|reflexivity|simpl; lia].
Defined.

Lemma listed_extension_file_visited (fs : node) (root : path) (md : Z)
    (ext : string) (rel : path) :
  Wf.wf fs = true ->
  (exists n, (rel, n) ∈ rel_items fs root
             /\ visible md rel && Fs.is_file n
                && String.eqb (extension_of (root ++ rel)) ext = true)
  <-> (exists c, visited fs root md rel (File c)
                 /\ Str.lower (Fs.suffix rel) = ext).
Proof.
  intros Hwf. split.
  - intros (n & Hin & [[Hv Hf]%andb_prop Ht]%andb_prop).
    destruct n as [c|es]; [|done]. exists c.
    destruct (rel_items_valid fs root rel (File c) Hwf Hin) as [Hne _].
    split; [by apply visited_rel_items|].
    apply String.eqb_eq in Ht. unfold extension_of in Ht.
    by rewrite suffix_app in Ht.
  - intros (c & Hvis & Ht).
    pose proof Hvis as (Hne & _).
    apply visited_rel_items in Hvis as [Hin Hv]; [|done].
    exists (File c). split; [done|]. rewrite Hv. simpl.
    apply String.eqb_eq. unfold extension_of. by rewrite suffix_app.
Qed.

Lemma scan_fold_extension_keys (root : path) (md : Z)
    (items : list (path * node)) (st : stats) :
  (forall k n, by_extension st !! k = Some n ->
               Str.lower k = k /\ (1 <= n)%nat) ->
  forall k n,
    by_extension (scan_fold root md items st) !! k = Some n ->
    Str.lower k = k /\ (1 <= n)%nat.
Proof.
  revert st. induction items as [|[rel m] items IH]; intros st Hst; [done|].
  rewrite scan_fold_cons. apply IH. cbn [fst snd].
  destruct (visible md rel) eqn:Hv.
  - rewrite scan_entry_see by done. destruct m as [c|es]; [|done].
    cbn [see_file by_extension see_depth]. intros k n. unfold incr.
    destruct (decide (Str.lower (Fs.suffix (root ++ rel)) = k)) as [<-|Hne].
    + rewrite lookup_insert_eq. intros [= <-]. split; [apply lower_idem|lia].
    + rewrite lookup_insert_ne by done. apply Hst.
  - by rewrite scan_entry_skip.
Qed.

Lemma lower_ascii_is_ascii (c : ascii) :
  (nat_of_ascii c <? 128)%nat = true ->
  (nat_of_ascii (Str.lower_ascii c) <? 128)%nat = true.
Proof. destruct c as [[] [] [] [] [] [] [] []]; intros H; exact H || reflexivity. Qed.

Lemma lower_is_ascii (s : string) :
  Str.is_ascii s = true -> Str.is_ascii (Str.lower s) = true.
Proof.
  induction s as [|c s IH]; simpl; [done|].
  intros [Hc Hs]%andb_prop. by rewrite lower_ascii_is_ascii, IH.
Qed.

Lemma scan_fold_ascii_keys (root : path) (md : Z)
    (items : list (path * node)) (st : stats) :
  (forall rel c, (rel, File c) ∈ items -> visible md rel = true ->
                 Str.is_ascii (Fs.suffix (root ++ rel)) = true) ->
  (forall k n, by_extension st !! k = Some n -> Str.is_ascii k = true) ->
  forall k n,
    by_extension (scan_fold root md items st) !! k = Some n ->
    Str.is_ascii k = true.
Proof.
  revert st. induction items as [|[rel m] items IH]; intros st Hitems Hst;
    [done|].
  rewrite scan_fold_cons. apply IH.
  { intros rel' c Hin. apply (Hitems rel' c). by right. }
  cbn [fst snd]. destruct (visible md rel) eqn:Hv.
  - rewrite scan_entry_see by done. destruct m as [c|es]; [|done].
    cbn [see_file by_extension see_depth]. intros k n. unfold incr.
    destruct (decide (Str.lower (Fs.suffix (root ++ rel)) = k)) as [<-|Hne].
    + intros _. apply lower_is_ascii. apply (Hitems rel c); [by left|done].
    + rewrite lookup_insert_ne by done. apply Hst.
  - by rewrite scan_entry_skip.
Qed.

(** X3: in a project whose visited regular files have suffixes of
    ASCII characters, on which [Str.lower] is [str.lower()],
    [by_extension] counts the visited regular files by their lowercased
    suffix (the empty string for a name without one); its keys are
    lowercase strings of ASCII characters and no counter is 0. *)
Theorem scan_by_extension (fs : node) (self : ProjectManager) (md : Z) :
  Wf.wf fs = true ->
  (forall rel c,
      visited fs (project_path self) md rel (File c) ->
      Str.is_ascii (Fs.suffix rel) = true) ->
  exists st,
    scan_project fs self md = Ok st
    /\ (forall ext,
          exists l : list path,
            NoDup l
            /\ (forall rel,
                  rel ∈ l
                  <-> exists c,
                        visited fs (project_path self) md rel (File c)
                        /\ Str.lower (Fs.suffix rel) = ext)
            /\ default 0%nat (by_extension st !! ext) = length l)
    /\ (forall ext n,
          by_extension st !! ext = Some n ->
          Str.lower ext = ext /\ Str.is_ascii ext = true /\ (1 <= n)%nat).
Proof.
  intros Hwf Hascii. rewrite scan_project_run.
  eexists. split; [reflexivity|]. split.
  - intros ext. rewrite scan_fold_by_extension. simpl.
    pose proof (rel_items_NoDup fs (project_path self) Hwf) as Hnd.
    destruct (count_listing _
      (fun e => visible md (fst e) && Fs.is_file (snd e)
                && String.eqb (extension_of (project_path self ++ fst e)) ext)
      Hnd) as (l & Hl & Hin & Hlen).
    exists l. split_and!; [done| |done].
    intros rel. rewrite Hin. by apply listed_extension_file_visited.
  - intros ext n Hext. split_and!.
    + eapply scan_fold_extension_keys; [|exact Hext]. intros k m. simpl.
      by rewrite lookup_empty.
    + eapply scan_fold_ascii_keys; [| |exact Hext].
      * intros rel c Hin Hv.
        assert (visited fs (project_path self) md rel (File c)) as Hvis.
        { by apply visited_rel_items. }
        rewrite suffix_app by apply Hvis. by apply (Hascii rel c).
      * intros k m. simpl. by rewrite lookup_empty.
    + eapply scan_fold_extension_keys; [|exact Hext]. intros k m. simpl.
      by rewrite lookup_empty.
Qed.

Lemma scan_by_extension_witness :
  exists st,
    scan_project sample_fs sample_pm 20 = Ok st
    /\ by_extension st !! ".json" = Some 2%nat
    /\ by_extension st !! ".JSON" = None.
Proof.
  destruct (scan_by_extension sample_fs sample_pm 20 eq_refl)
    as (st & Hst & _ & Hkeys).
  { intros rel c Hvis.
    apply visited_rel_items in Hvis as [Hin _]; [|reflexivity].
    vm_compute in Hin.
    repeat (apply elem_of_cons in Hin as [Heq|Hin];
            [simplify_eq; reflexivity|]).
    inversion Hin. }
  exists st. split; [done|].
  assert (by_extension st !! ".json" = Some 2%nat) as Hjson.
  { rewrite scan_project_run in Hst. injection Hst as <-. by vm_compute. }
  split; [done|].
  destruct (by_extension st !! ".JSON") as [n|] eqn:HJ; [|done].
  by destruct (Hkeys ".JSON" n HJ) as [? _].
Defined.

(** ** Invariants of the counters *)

Lemma sum_counts_incr (k : string) (d : gmap string nat) :
  sum_counts (incr k d) = S (sum_counts d).
Proof.
  unfold sum_counts, incr.
  assert (forall z1 z2 y : nat,
            (z1 + (z2 + y) = z2 + (z1 + y))%nat) as Hcomm by (intros; lia).
  destruct (d !! k) as [v|] eqn:Hk; simpl.
  - rewrite <- insert_delete_eq.
    rewrite map_fold_insert_L;
      [|intros; apply Hcomm|by rewrite lookup_delete_eq].
    rewrite (map_fold_delete_L _ _ k v d); [lia|intros; apply Hcomm|done].
  - rewrite map_fold_insert_L; [lia|intros; apply Hcomm|done].
Qed.

Lemma first_type_key (table : list (string * list string)) (s : string) :
  first_type table s = "other" \/ first_type table s ∈ map fst table.
Proof.
  induction table as [|[cat exts] table IH]; simpl; [by left|].
  destruct (mem_string s exts); [right; by left|].
  destruct IH as [IH|IH]; [by left|right; by right].
Qed.

Lemma scan_fold_invariants (root : path) (md : Z)
    (items : list (path * node)) (st : stats) :
  let inv (st : stats) :=
    sum_counts (by_type st) = total_files st
    /\ sum_counts (by_extension st) = total_files st
    /\ (length (empty_dirs st) <= total_dirs st)%nat
    /\ (length (large_files st) <= total_files st)%nat
    /\ (forall k n, by_type st !! k = Some n ->
                    (1 <= n)%nat
                    /\ (k = "other" \/ k ∈ map fst FILE_TYPES)) in
  inv st -> inv (scan_fold root md items st).
Proof.
  intros inv. revert st.
  induction items as [|[rel m] items IH]; intros st Hst; [done|].
  rewrite scan_fold_cons. apply IH. cbn [fst snd].
  destruct (visible md rel) eqn:Hv; [|by rewrite scan_entry_skip].
  rewrite scan_entry_see by done.
  destruct Hst as (H1 & H2 & H3 & H4 & H5).
  destruct m as [c|es]; unfold inv.
  - cbn [see_file see_depth by_type by_extension total_files total_dirs
         empty_dirs large_files].
    rewrite !sum_counts_incr, H1, H2. split_and!; [done|done|done| |].
    + destruct (1024 * 1024 <? Fs.st_size c)%N; [|lia].
      rewrite length_app. simpl. lia.
    + intros k n. unfold incr.
      set (t := _get_file_type (Str.lower (Fs.suffix (root ++ rel)))).
      destruct (decide (t = k)) as [<-|Hne].
      * rewrite lookup_insert_eq. intros [= <-]. split; [lia|].
        apply first_type_key.
      * rewrite lookup_insert_ne by done. apply H5.
  - cbn [see_dir see_depth by_type by_extension total_files total_dirs
         empty_dirs large_files].
    split_and!; [done|done| |done|done].
    destruct es; [rewrite length_app; simpl|]; lia.
Qed.

(** X4: in every result of a scan the counters of [by_type] and those
    of [by_extension] add up to [total_files], there are at most
    [total_dirs] empty directories and [total_files] large files, and
    [by_type] holds positive counters under categories of [FILE_TYPES]
    or ["other"]. *)
Theorem scan_counters_add_up (fs : node) (self : ProjectManager) (md : Z) :
  exists st,
    scan_project fs self md = Ok st
    /\ sum_counts (by_type st) = total_files st
    /\ sum_counts (by_extension st) = total_files st
    /\ (length (empty_dirs st) <= total_dirs st)%nat
    /\ (length (large_files st) <= total_files st)%nat
    /\ (forall k n, by_type st !! k = Some n ->
                    (1 <= n)%nat
                    /\ (k = "other" \/ k ∈ map fst FILE_TYPES)).
Proof.
  rewrite scan_project_run. eexists. split; [reflexivity|].
  apply scan_fold_invariants. simpl. split_and!; done.
Qed.

(** ** The depth limit *)

Lemma rel_items_nonempty (fs : node) (root rel : path) (n : node) :
  (rel, n) ∈ rel_items fs root -> rel <> [].
Proof.
  unfold rel_items. destruct (Fs.lookup fs root) as [d|]; [|by inversion 1].
  apply walk_nonempty_paths.
Qed.

Lemma scan_fold_ext (root : path) (md md' : Z) (items : list (path * node))
    (st : stats) :
  (forall e, e ∈ items -> visible md (fst e) = visible md' (fst e)) ->
  scan_fold root md items st = scan_fold root md' items st.
Proof.
  revert st. induction items as [|[rel n] items IH]; intros st Hext; [done|].
  rewrite !scan_fold_cons. cbn [fst snd].
  assert (visible md rel = visible md' rel) as Hv.
  { apply (Hext (rel, n)). by left. }
  assert (scan_entry md (root ++ rel) rel n st
          = scan_entry md' (root ++ rel) rel n st) as ->.
  { destruct (visible md' rel) eqn:Hv'.
    - by rewrite !scan_entry_see.
    - by rewrite !scan_entry_skip. }
  apply IH. intros e He. apply Hext. by right.
Qed.

Lemma visible_mono (md md' : Z) (rel : path) :
  md <= md' -> visible md rel = true -> visible md' rel = true.
Proof.
  unfold visible. intros Hle [Hh Hd]%andb_prop. rewrite Hh. simpl.
  destruct (Z.gtb_spec (Z.of_nat (length rel)) md); [done|].
  destruct (Z.gtb_spec (Z.of_nat (length rel)) md'); [lia|done].
Qed.

Lemma filter_length_mono {A} (P Q : A -> bool) (l : list A) :
  (forall x, P x = true -> Q x = true) ->
  (length (List.filter P l) <= length (List.filter Q l))%nat.
Proof.
  intros HPQ. induction l as [|x l IH]; simpl; [done|].
  destruct (P x) eqn:HP.
  - rewrite (HPQ x HP). simpl. lia.
  - destruct (Q x); simpl; lia.
Qed.

Lemma filter_sum_sizes_mono (P Q : path * node -> bool)
    (l : list (path * node)) :
  (forall x, P x = true -> Q x = true) ->
  (sum_sizes (List.filter P l) <= sum_sizes (List.filter Q l))%N.
Proof.
  intros HPQ. induction l as [|x l IH]; simpl; [done|].
  destruct (P x) eqn:HP.
  - rewrite (HPQ x HP). simpl. lia.
  - destruct (Q x); simpl; lia.
Qed.

Lemma filter_max_length_mono (P Q : path * node -> bool)
    (l : list (path * node)) :
  (forall x, P x = true -> Q x = true) ->
  (max_length (List.filter P l) <= max_length (List.filter Q l))%nat.
Proof.
  intros HPQ. induction l as [|x l IH]; simpl; [done|].
  destruct (P x) eqn:HP.
  - rewrite (HPQ x HP). simpl. lia.
  - destruct (Q x); simpl; lia.
Qed.

(** X5: with a depth limit of 0 or less the scan returns the empty
    statistics; raising the limit never lowers a total; and a limit
    that no entry exceeds gives the same result as any larger one. *)
Theorem scan_depth_limit (fs : node) (self : ProjectManager) (md md' : Z) :
  (md <= 0 -> scan_project fs self md = Ok stats_init)
  /\ (md <= md' ->
      exists st st',
        scan_project fs self md = Ok st
        /\ scan_project fs self md' = Ok st'
        /\ (total_files st <= total_files st')%nat
        /\ (total_dirs st <= total_dirs st')%nat
        /\ (total_size st <= total_size st')%N
        /\ (max_depth st <= max_depth st')%nat)
  /\ (Wf.wf fs = true ->
      md <= md' ->
      (forall rel n,
          Fs.lookup fs (project_path self ++ rel) = Some n ->
          Z.of_nat (length rel) <= md) ->
      scan_project fs self md = scan_project fs self md').
Proof.
  rewrite !scan_project_run. set (root := project_path self). split_and!.
  - intros Hmd. f_equal.
    rewrite (scan_fold_ext root md (-1)).
    + generalize (rel_items fs root) stats_init.
      induction l as [|[rel n] l IH]; intros st; [done|].
      rewrite scan_fold_cons. cbn [fst snd].
      rewrite scan_entry_skip; [apply IH|].
      unfold visible. destruct (Z.gtb_spec (Z.of_nat (length rel)) (-1));
        [by rewrite andb_false_r|lia].
    + intros [rel n] Hin. simpl. apply rel_items_nonempty in Hin.
      unfold visible. destruct rel as [|x rel]; [done|].
      destruct (Z.gtb_spec (Z.of_nat (length (x :: rel))) md);
        [|simpl in *; lia].
      destruct (Z.gtb_spec (Z.of_nat (length (x :: rel))) (-1)); [done|lia].
  - intros Hle. do 2 eexists. split_and!; [reflexivity|reflexivity|..].
    + rewrite !scan_fold_total_files. simpl.
      apply filter_length_mono. intros [rel n] [Hv ->]%andb_prop. simpl.
      by rewrite (visible_mono md md' rel Hle Hv).
    + rewrite !scan_fold_total_dirs. simpl.
      apply filter_length_mono. intros [rel n] [Hv ->]%andb_prop. simpl.
      by rewrite (visible_mono md md' rel Hle Hv).
    + rewrite !scan_fold_total_size. simpl.
      apply filter_sum_sizes_mono. intros [rel n] [Hv ->]%andb_prop. simpl.
      by rewrite (visible_mono md md' rel Hle Hv).
    + rewrite !scan_fold_max_depth. simpl.
      apply filter_max_length_mono. intros [rel n] Hv. simpl in *.
      by apply (visible_mono md md').
  - intros Hwf Hle Hheight. f_equal. apply scan_fold_ext.
    intros [rel n] Hin. simpl.
    assert (Z.of_nat (length rel) <= md) as Hd.
    { apply (Hheight rel n). unfold rel_items in Hin. rewrite lookup_app.
      destruct (Fs.lookup fs root) as [d|] eqn:Hroot; [|by inversion Hin].
      apply elem_of_walk in Hin as [_ Hres]; [|by apply (lookup_wf fs root)].
      by apply lookup_Some. }
    unfold visible.
    destruct (Z.gtb_spec (Z.of_nat (length rel)) md); [lia|].
    destruct (Z.gtb_spec (Z.of_nat (length rel)) md'); [lia|done].
Qed.

Lemma scan_depth_limit_witness :
  scan_project sample_fs sample_pm 0 = Ok stats_init
  /\ (exists st st',
        scan_project sample_fs sample_pm 1 = Ok st
        /\ scan_project sample_fs sample_pm 2 = Ok st'
        /\ (total_files st <= total_files st')%nat
        /\ (total_dirs st <= total_dirs st')%nat
        /\ (total_size st <= total_size st')%N
        /\ (max_depth st <= max_depth st')%nat)
  /\ scan_project sample_fs sample_pm 2 = scan_project sample_fs sample_pm 20.
Proof.
  split_and!.
  - destruct (scan_depth_limit sample_fs sample_pm 0 0) as (H & _ & _).
    apply H. lia.
  - destruct (scan_depth_limit sample_fs sample_pm 1 2) as (_ & H & _).
    apply H. lia.
  - destruct (scan_depth_limit sample_fs sample_pm 2 20) as (_ & _ & H).
    apply H; [done|lia|].
    intros rel n Hrel. destruct (decide (rel = [])) as [->|Hne]; [simpl; lia|].
    rewrite lookup_app in Hrel.
    destruct (Fs.lookup sample_fs (project_path sample_pm)) as [d|] eqn:Hd;
      [|done].
    vm_compute in Hd. injection Hd as <-.
    apply lookup_Some in Hrel.
    assert ((rel, n) ∈ Fs.walk [] (Dir
              [ ("main.py", File [x70; x72; x69; x6e; x74]);
                ("config.json", File [x7b; x7d]);
                ("src",
                 Dir [ ("data.JSON", File [x5b; x5d]);
                       ("module.py", File [x78]) ]);
                ("empty", Dir []);
                ("cache", Dir [ (".keep", File []) ]);
                (".git", Dir [ ("HEAD", File [x72; x65; x66]) ]);
                (".env", File [x41; x3d; x31]) ])) as Hin.
    { by apply elem_of_walk. }
    vm_compute in Hin.
    repeat (apply elem_of_cons in Hin as [[= -> ->]|Hin]; [simpl; lia|]).
    inversion Hin.
Defined.

(** ** Classification is total and ignores case *)

Lemma first_type_listed (table : list (string * list string)) (s : string) :
  NoDup (map fst table) ->
  first_type table s <> "other" ->
  s ∈ get_extensions table (first_type table s).
Proof.
  induction table as [|[cat exts] table IH]; simpl; [done|].
  intros [Hcat Hnd]%NoDup_cons Hne.
  destruct (mem_string s exts) eqn:Hmem.
  - rewrite String.eqb_refl. by apply mem_string_In.
  - destruct (String.eqb_spec cat (first_type table s)) as [Heq|_].
    + exfalso. apply Hcat. rewrite Heq.
      by destruct (first_type_key table s).
    + by apply IH.
Qed.

(** X6: the category depends on the extension up to case only; it is
    ["other"] exactly when no category lists the lowercased extension;
    and any other category returned lists that extension in
    [FILE_TYPES]. *)
Theorem classify_ignores_case :
  (forall s1 s2,
      Str.lower s1 = Str.lower s2 -> _get_file_type s1 = _get_file_type s2)
  /\ (forall s,
        _get_file_type s = "other"
        <-> forall c e, (c, e) ∈ FILE_TYPES -> Str.lower s ∉ e)
  /\ (forall s,
        _get_file_type s <> "other" ->
        Str.lower s ∈ get_extensions FILE_TYPES (_get_file_type s)).
Proof.
  split_and!.
  - intros s1 s2 Heq. unfold _get_file_type. by rewrite Heq.
  - intros s. unfold _get_file_type.
    destruct (first_type_first_match FILE_TYPES (Str.lower s))
      as [(pre & exts & post & Heq & Hin & Hpre)|[Hother Hnone]].
    + split.
      * intros Hother. exfalso.
        assert ("other" ∈ map fst FILE_TYPES) as Hkey.
        { rewrite Heq, Hother, map_app. apply elem_of_app. right. by left. }
        vm_compute in Hkey.
        repeat (apply elem_of_cons in Hkey as [Hkey|Hkey]; [discriminate|]).
        inversion Hkey.
      * intros Hnone. exfalso.
        apply (Hnone (first_type FILE_TYPES (Str.lower s)) exts); [|done].
        rewrite Heq at 2. apply elem_of_app. right. by left.
    + by split.
  - intros s Hne. unfold _get_file_type in *. apply first_type_listed; [|done].
    apply (bool_decide_unpack _). by vm_compute.
Qed.

Lemma classify_ignores_case_witness :
  _get_file_type ".Py" = _get_file_type ".pY"
  /\ Str.lower ".YAML" ∈ get_extensions FILE_TYPES (_get_file_type ".YAML").
Proof.
  destruct classify_ignores_case as (Hcase & _ & Hlisted). split.
  - apply Hcase. reflexivity.
  - apply Hlisted. discriminate.
Defined.

(** ** The order of paths *)

Section PathOrder.

Lemma ascii_compare_refl (a : ascii) : Ascii.compare a a = Eq.
Proof. unfold Ascii.compare. apply N.compare_refl. Qed.

Lemma ascii_compare_lt_trans (a b c : ascii) :
  Ascii.compare a b = Lt -> Ascii.compare b c = Lt -> Ascii.compare a c = Lt.
Proof.
  unfold Ascii.compare. rewrite !N.compare_lt_iff. lia.
Qed.

Lemma string_compare_refl (s : string) : String.compare s s = Eq.
Proof.
  induction s as [|a s IH]; simpl; [done|]. by rewrite ascii_compare_refl.
Qed.

Lemma string_compare_eq (s t : string) : String.compare s t = Eq -> s = t.
Proof. apply String.compare_eq_iff. Qed.

Lemma string_compare_lt_trans (s t u : string) :
  String.compare s t = Lt -> String.compare t u = Lt ->
  String.compare s u = Lt.
Proof.
  revert t u. induction s as [|a s IH]; intros [|b t] [|c u]; simpl;
    try done.
  destruct (Ascii.compare a b) eqn:Hab; try done;
    destruct (Ascii.compare b c) eqn:Hbc; try done; intros Hst Htu.
  - apply Ascii.compare_eq_iff in Hab as ->. rewrite Hbc. by apply (IH t).
  - apply Ascii.compare_eq_iff in Hab as ->. by rewrite Hbc.
  - apply Ascii.compare_eq_iff in Hbc as ->. by rewrite Hab.
  - by rewrite (ascii_compare_lt_trans a b c).
Qed.

Lemma string_compare_gt_lt (s t : string) :
  String.compare s t = Gt <-> String.compare t s = Lt.
Proof.
  rewrite (String.compare_antisym t s).
  destruct (String.compare s t); simpl; split; congruence.
Qed.

Lemma path_leb_refl (p : path) : path_leb p p = true.
Proof.
  induction p as [|x p IH]; simpl; [done|]. by rewrite string_compare_refl.
Qed.

Lemma path_leb_total (p q : path) :
  path_leb p q = true \/ path_leb q p = true.
Proof.
  revert q. induction p as [|x p IH]; intros [|y q]; simpl; auto.
  rewrite (String.compare_antisym y x).
  destruct (String.compare x y); simpl; auto.
Qed.

Lemma path_leb_trans (p q r : path) :
  path_leb p q = true -> path_leb q r = true -> path_leb p r = true.
Proof.
  revert q r. induction p as [|x p IH]; intros [|y q] [|z r]; simpl;
    try done.
  destruct (String.compare x y) eqn:Hxy; try done;
    destruct (String.compare y z) eqn:Hyz; try done; intros Hpq Hqr.
  - apply string_compare_eq in Hxy as ->. rewrite Hyz. by apply (IH q).
  - apply string_compare_eq in Hxy as ->. by rewrite Hyz.
  - apply string_compare_eq in Hyz as ->. by rewrite Hxy.
  - by rewrite (string_compare_lt_trans x y z).
Qed.

Lemma path_leb_antisym (p q : path) :
  path_leb p q = true -> path_leb q p = true -> p = q.
Proof.
  revert q. induction p as [|x p IH]; intros [|y q]; simpl; try done.
  rewrite (String.compare_antisym y x).
  destruct (String.compare x y) eqn:Hxy; simpl; try done.
  intros Hpq Hqp. apply string_compare_eq in Hxy as ->. f_equal.
  by apply IH.
Qed.

Lemma sorted_paths_sorted (l : list path) :
  StronglySorted path_le (sorted_paths l).
Proof.
  unfold sorted_paths.
  assert (Transitive (fun p q : path => Is_true (path_leb p q))) as Htrans.
  { intros p q r Hpq%Is_true_true Hqr%Is_true_true. apply Is_true_true.
    by apply (path_leb_trans p q r). }
  assert (Total (fun p q : path => Is_true (path_leb p q))) as Htotal.
  { intros p q. destruct (path_leb_total p q) as [H|H];
      [left|right]; by apply Is_true_true. }
  pose proof (StronglySorted_merge_sort
                (fun p q : path => Is_true (path_leb p q)) l) as Hs.
  induction Hs as [|p l' _ IH Hall]; constructor; [done|].
  eapply Forall_impl; [exact Hall|]. intros q Hq. by apply Is_true_true.
Qed.

Lemma sorted_paths_perm (l : list path) : sorted_paths l ≡ₚ l.
Proof. apply merge_sort_Permutation. Qed.

End PathOrder.

(** ** Searches *)

Section Finding.

Variable glob_match : string -> path -> bool.

Lemma elem_of_rglob (fs : node) (root : path) (pattern : string) (f : path) :
  f ∈ rglob glob_match fs root pattern
  <-> exists rel n,
        f = root ++ rel /\ (rel, n) ∈ rel_items fs root
        /\ glob_match pattern rel = true.
Proof.
  unfold rglob. change (map ?g ?l) with (g <$> l). rewrite list_elem_of_fmap.
  split.
  - intros ([rel n] & -> & [Hin Hm]%elem_of_filter_items). by exists rel, n.
  - intros (rel & n & -> & Hin & Hm). exists (rel, n). split; [done|].
    by apply elem_of_filter_items.
Qed.

Lemma rglob_NoDup (fs : node) (root : path) (pattern : string) :
  Wf.wf fs = true -> NoDup (rglob glob_match fs root pattern).
Proof.
  intros Hwf. unfold rglob.
  pose proof (NoDup_map_fst_filter
                (fun e : path * node => glob_match pattern (fst e))
                (rel_items fs root) (rel_items_NoDup fs root Hwf)) as Hnd.
  rewrite <- (map_map fst (fun rel : path => root ++ rel)).
  change (map ?g ?l) with (g <$> l) at 1.
  apply NoDup_fmap_2; [|done]. intros p q. apply app_inv_head.
Qed.

Lemma rel_items_lookup (fs : node) (root rel : path) :
  Wf.wf fs = true ->
  (exists n, (rel, n) ∈ rel_items fs root)
  <-> rel <> [] /\ exists n, Fs.lookup fs (root ++ rel) = Some n.
Proof.
  intros Hwf. unfold rel_items. rewrite lookup_app.
  destruct (Fs.lookup fs root) as [d|] eqn:Hd.
  - pose proof (lookup_wf fs root d Hwf Hd) as Hwfd. split.
    + intros (n & [Hne Hres]%(elem_of_walk d Hwfd)). split; [done|].
      exists n. by apply lookup_Some.
    + intros (Hne & n & Hres%lookup_Some). exists n.
      by apply (elem_of_walk d Hwfd).
  - split; [intros [n H]; inversion H|by intros (_ & n & ?)].
Qed.

(** What a search by pattern returns, whatever the matching is. *)
Lemma find_files_listing (fs : node) (self : ProjectManager)
    (pattern : string) :
  Wf.wf fs = true ->
  StronglySorted path_le (find_files glob_match fs self pattern None)
  /\ NoDup (find_files glob_match fs self pattern None)
  /\ (forall f,
        f ∈ find_files glob_match fs self pattern None
        <-> exists rel n,
              f = project_path self ++ rel /\ rel <> []
              /\ Fs.lookup fs f = Some n
              /\ glob_match pattern rel = true).
Proof.
  intros Hwf. unfold find_files. split_and!.
  - apply sorted_paths_sorted.
  - rewrite sorted_paths_perm. by apply rglob_NoDup.
  - intros f. rewrite sorted_paths_perm, elem_of_rglob. split.
    + intros (rel & n & -> & Hin & Hm).
      destruct (proj1 (rel_items_lookup fs (project_path self) rel Hwf))
        as (Hne & m & Hm'); [by exists n|].
      by exists rel, m.
    + intros (rel & m & -> & Hne & Hm' & Hm).
      destruct (proj2 (rel_items_lookup fs (project_path self) rel Hwf))
        as [n Hn]; [by eauto|]. by exists rel, n.
Qed.

Lemma get_extensions_unknown (table : list (string * list string))
    (t : string) :
  t ∉ map fst table -> get_extensions table t = [].
Proof.
  induction table as [|[c e] table IH]; simpl; [done|].
  intros [Hne Hnot]%not_elem_of_cons.
  destruct (String.eqb_spec c t); [congruence|by apply IH].
Qed.

(** X8: a search by category ignores the pattern; an empty category
    name falls back to the pattern; a category that [FILE_TYPES] does
    not have finds nothing; otherwise the result is sorted, without
    repetition, and holds what the searches for [*ext] find, for the
    extensions [ext] of the category. *)
Theorem find_files_by_type (fs : node) (self : ProjectManager)
    (pattern : string) (t : string) :
  find_files glob_match fs self pattern (Some EmptyString)
  = find_files glob_match fs self pattern None
  /\ (t <> EmptyString ->
      (forall pattern',
          find_files glob_match fs self pattern' (Some t)
          = find_files glob_match fs self pattern (Some t))
      /\ (t ∉ map fst FILE_TYPES ->
          find_files glob_match fs self pattern (Some t) = [])
      /\ StronglySorted path_le (find_files glob_match fs self pattern (Some t))
      /\ NoDup (find_files glob_match fs self pattern (Some t))
      /\ (forall f,
            f ∈ find_files glob_match fs self pattern (Some t)
            <-> exists ext,
                  ext ∈ get_extensions FILE_TYPES t
                  /\ f ∈ find_files glob_match fs self ("*" +:+ ext) None)).
Proof.
  split; [done|]. intros Ht. destruct t as [|a t]; [done|]. clear Ht.
  unfold find_files. split_and!.
  - done.
  - intros Hunknown. by rewrite get_extensions_unknown.
  - apply sorted_paths_sorted.
  - rewrite sorted_paths_perm. apply NoDup_remove_dups.
  - intros f. rewrite sorted_paths_perm, elem_of_remove_dups.
    rewrite flat_map_bind, list_elem_of_bind. split.
    + intros (ext & Hf & Hext). exists ext. split; [done|].
      by rewrite sorted_paths_perm.
    + intros (ext & Hext & Hf). exists ext. split; [|done].
      by rewrite sorted_paths_perm in Hf.
Qed.

End Finding.

(** ** Searching by a pattern with stars *)

Section StarPatterns.

Lemma append_cons (c : ascii) (s t : string) :
  String c s +:+ t = String c (s +:+ t).
Proof. reflexivity. Qed.

Lemma append_empty (t : string) : EmptyString +:+ t = t.
Proof. reflexivity. Qed.

Lemma length_append (s t : string) :
  String.length (s +:+ t) = (String.length s + String.length t)%nat.
Proof.
  induction s as [|c s IH]; [done|].
  rewrite append_cons. simpl. by rewrite IH.
Qed.

(** A literal character of the pattern has to be the next character of
    the name. *)
Lemma fnmatch_fuel_literal_char (c : ascii) (fuel : nat) (pat name : string) :
  literal_char c = true ->
  fnmatch_fuel (S fuel) (String c pat) name
  = match name with
    | EmptyString => false
    | String d name' => Ascii.eqb c d && fnmatch_fuel fuel pat name'
    end.
Proof.
  destruct c as [[] [] [] [] [] [] [] []]; intros Hc;
    try reflexivity; discriminate Hc.
Qed.

Lemma fnmatch_fuel_star (fuel : nat) (pat name : string) :
  fnmatch_fuel (S fuel) (String "*" pat) name
  = fnmatch_fuel fuel pat name
    || match name with
       | EmptyString => false
       | String _ name' => fnmatch_fuel fuel (String "*" pat) name'
       end.
Proof. reflexivity. Qed.

Lemma fnmatch_fuel_prefix (pre : string) (fuel : nat) (pat name : string) :
  literal pre = true ->
  fnmatch_fuel (String.length pre + fuel) (pre +:+ pat) name = true
  <-> exists tail, name = pre +:+ tail /\ fnmatch_fuel fuel pat tail = true.
Proof.
  revert name. induction pre as [|c pre IH]; intros name.
  - intros _. rewrite append_empty. simpl. split; [by exists name|].
    by intros (tail & -> & ?).
  - cbn [literal]. intros [Hc Hpre]%andb_prop.
    rewrite append_cons. cbn [String.length Nat.add].
    rewrite fnmatch_fuel_literal_char by done.
    destruct name as [|d name].
    { split; [done|]. by intros (tail & ? & _). }
    rewrite andb_true_iff, IH by done. split.
    + intros [->%Ascii.eqb_eq (tail & -> & Htail)]. by exists tail.
    + intros (tail & Hname & Htail). rewrite append_cons in Hname.
      injection Hname as -> ->. split; [apply Ascii.eqb_refl|by exists tail].
Qed.

Lemma fnmatch_fuel_whole (suf : string) (fuel : nat) (name : string) :
  literal suf = true ->
  (String.length suf < fuel)%nat ->
  fnmatch_fuel fuel suf name = true <-> name = suf.
Proof.
  revert fuel name. induction suf as [|c suf IH]; intros fuel name.
  - intros _ Hfuel. destruct fuel as [|fuel]; [simpl in Hfuel; lia|].
    destruct name; simpl; split; done.
  - cbn [literal String.length]. intros [Hc Hsuf]%andb_prop Hfuel.
    destruct fuel as [|fuel]; [lia|].
    rewrite fnmatch_fuel_literal_char by done.
    destruct name as [|d name]; [done|].
    rewrite andb_true_iff, IH by (done || lia). split.
    + by intros [->%Ascii.eqb_eq ->].
    + intros [= -> ->]. split; [apply Ascii.eqb_refl|done].
Qed.

Lemma fnmatch_fuel_suffix (suf name : string) (fuel : nat) :
  literal suf = true ->
  (String.length name + String.length suf + 1 < fuel)%nat ->
  fnmatch_fuel fuel (String "*" suf) name = true
  <-> exists mid, name = mid +:+ suf.
Proof.
  intros Hsuf. revert fuel. induction name as [|d name IH]; intros fuel Hfuel.
  - destruct fuel as [|fuel]; [lia|]. rewrite fnmatch_fuel_star.
    rewrite orb_false_r, fnmatch_fuel_whole by (done || simpl in *; lia).
    split.
    + intros <-. by exists EmptyString.
    + intros (mid & Hmid). destruct mid; [done|]. by rewrite append_cons in Hmid.
  - cbn [String.length] in Hfuel. destruct fuel as [|fuel]; [lia|].
    rewrite fnmatch_fuel_star, orb_true_iff.
    rewrite fnmatch_fuel_whole by (done || simpl in *; lia).
    rewrite IH by lia. split.
    + intros [->|(mid & ->)]; [by exists EmptyString|].
      by exists (String d mid).
    + intros (mid & Hmid). destruct mid as [|d' mid].
      * left. by rewrite append_empty in Hmid.
      * right. rewrite append_cons in Hmid. injection Hmid as -> ->.
        by exists mid.
Qed.

(** On a pattern with one star, fnmatch accepts the names that begin
    with what stands before the star and go on to end with what stands
    after it. *)
Lemma fnmatch_one_star (pre suf name : string) :
  literal pre = true -> literal suf = true ->
  fnmatch (pre +:+ "*" +:+ suf) name = true
  <-> exists mid, name = pre +:+ mid +:+ suf.
Proof.
  intros Hpre Hsuf. unfold fnmatch.
  rewrite length_append, append_cons, append_empty.
  cbn [String.length].
  replace (S (String.length pre + S (String.length suf) + String.length name))
    with (String.length pre
          + (String.length suf + String.length name + 2))%nat by lia.
  rewrite fnmatch_fuel_prefix by done. split.
  - intros (tail & -> & Htail).
    apply fnmatch_fuel_suffix in Htail as [mid ->]; [by exists mid|done|].
    rewrite length_append. lia.
  - intros (mid & ->). exists (mid +:+ suf). split; [done|].
    apply fnmatch_fuel_suffix; [done| |by exists mid].
    rewrite !length_append. lia.
Qed.

Lemma single_stars_one (pre suf : string) :
  literal pre = true -> literal suf = true ->
  plain_pattern (pre +:+ "*" +:+ suf) = true.
Proof.
  intros Hpre Hsuf. unfold plain_pattern.
  assert (forall s, literal s = true -> single_stars false s = true
                    /\ forall b, s <> EmptyString -> single_stars b s = true)
    as Hlit.
  { induction s as [|c s IH]; [done|]. cbn [literal single_stars].
    intros [Hc Hs]%andb_prop.
    assert (Ascii.eqb c "*" = false) as ->.
    { destruct (Ascii.eqb_spec c "*") as [->|]; [done|done]. }
    rewrite Hc. destruct (IH Hs) as [-> _]. done. }
  apply andb_true_intro. split.
  - clear Hpre. induction pre as [|c pre IH]; [done|].
    rewrite append_cons. simpl. rewrite IH. apply orb_true_r.
  - induction pre as [|c pre IH].
    + rewrite append_empty, append_cons, append_empty. simpl.
      destruct suf as [|c suf]; [done|].
      by apply (proj2 (Hlit _ Hsuf)).
    + cbn [literal] in Hpre. apply andb_prop in Hpre as [Hc Hpre].
      rewrite append_cons. cbn [single_stars].
      assert (Ascii.eqb c "*" = false) as ->.
      { destruct (Ascii.eqb_spec c "*") as [->|]; [done|done]. }
      rewrite Hc. by apply IH.
Qed.

End StarPatterns.

(** X7: for a pattern of one component made of literal characters and
    single stars, with a star in it, a search returns, sorted and
    without repetition, exactly the entries strictly below the root
    whose name fnmatch accepts: directories as well as files, hidden or
    not.  For a pattern [pre*suf] with one star these are the entries
    whose name begins with [pre] and goes on to end with [suf]. *)
Theorem find_files_by_pattern (fs : node) (self : ProjectManager)
    (pattern : string) :
  Wf.wf fs = true ->
  plain_pattern pattern = true ->
  StronglySorted path_le (find_files name_match fs self pattern None)
  /\ NoDup (find_files name_match fs self pattern None)
  /\ (forall f,
        f ∈ find_files name_match fs self pattern None
        <-> exists rel n,
              f = project_path self ++ rel /\ rel <> []
              /\ Fs.lookup fs f = Some n
              /\ fnmatch pattern (Fs.name rel) = true)
  /\ (forall pre suf,
        literal pre = true -> literal suf = true ->
        pattern = pre +:+ "*" +:+ suf ->
        forall f,
          f ∈ find_files name_match fs self pattern None
          <-> exists rel n mid,
                f = project_path self ++ rel /\ rel <> []
                /\ Fs.lookup fs f = Some n
                /\ Fs.name rel = pre +:+ mid +:+ suf).
Proof.
  intros Hwf Hplain.
  destruct (find_files_listing name_match fs self pattern Hwf)
    as (Hsorted & Hnd & Hchar).
  split_and!; [done|done|done|].
  intros pre suf Hpre Hsuf -> f. rewrite Hchar. unfold name_match. split.
  - intros (rel & n & -> & Hne & Hn & Hm).
    apply fnmatch_one_star in Hm as [mid Hmid]; [|done|done].
    by exists rel, n, mid.
  - intros (rel & n & mid & -> & Hne & Hn & Hmid). exists rel, n.
    split_and!; [done|done|done|].
    apply fnmatch_one_star; [done|done|by exists mid].
Qed.

(** In the sample project [*.py] finds the two Python files, one of
    them in [src], and [.g*] finds the hidden directory [.git]. *)
Lemma find_files_by_pattern_witness :
  find_files name_match sample_fs sample_pm "*.py" None
  = [ ["home"; "proj"; "main.py"]; ["home"; "proj"; "src"; "module.py"] ]
  /\ (["home"; "proj"; "src"; "module.py"]
        ∈ find_files name_match sample_fs sample_pm "*.py" None)
  /\ ["home"; "proj"; ".git"]
       ∈ find_files name_match sample_fs sample_pm ".g*" None.
Proof.
  split_and!.
  - reflexivity.
  - destruct (find_files_by_pattern sample_fs sample_pm "*.py" eq_refl eq_refl)
      as (_ & _ & _ & Hstar).
    apply (Hstar EmptyString ".py" eq_refl eq_refl eq_refl).
    by exists ["src"; "module.py"], (File [x78]), "module".
  - destruct (find_files_by_pattern sample_fs sample_pm ".g*" eq_refl eq_refl)
      as (_ & _ & _ & Hstar).
    apply (Hstar ".g" EmptyString eq_refl eq_refl eq_refl).
    by exists [".git"], (Dir [("HEAD", File [x72; x65; x66])]), "it".
Defined.

Lemma find_files_by_type_witness :
  find_files name_match sample_fs sample_pm "*" (Some "video") = []
  /\ (["home"; "proj"; "config.json"]
        ∈ find_files name_match sample_fs sample_pm "*" (Some "data")
      <-> exists ext,
            ext ∈ get_extensions FILE_TYPES "data"
            /\ ["home"; "proj"; "config.json"]
                 ∈ find_files name_match sample_fs sample_pm ("*" +:+ ext) None).
Proof.
  split.
  - destruct (find_files_by_type name_match sample_fs sample_pm "*" "video")
      as (_ & H). destruct H as (_ & Hunknown & _); [done|].
    apply Hunknown. vm_compute. intros Hin.
    repeat (apply elem_of_cons in Hin as [Hin|Hin]; [discriminate|]).
    inversion Hin.
  - destruct (find_files_by_type name_match sample_fs sample_pm "*" "data")
      as (_ & H). destruct H as (_ & _ & _ & _ & Hchar); [done|].
    apply Hchar.
Defined.

(** ** Deleting regular files *)

Section Unlinking.

Lemma NoDup_distinct (l : list string) : NoDup l -> Wf.distinct l = true.
Proof.
  induction 1 as [|x l Hx Hl IH]; simpl; [done|]. rewrite IH, andb_true_r.
  apply negb_true_iff. destruct (mem_string x l) eqn:Hmem; [|done].
  by apply mem_string_In in Hmem.
Qed.

Lemma wf_Dir_intro (es : list (string * node)) :
  NoDup (map fst es) ->
  Forall (fun e => Wf.valid_name (fst e) = true) es ->
  Forall (fun e => Wf.wf (snd e) = true) es ->
  Wf.wf (Dir es) = true.
Proof.
  intros Hnd Hval Hsub. simpl. rewrite NoDup_distinct by done. simpl.
  apply andb_true_intro. split.
  - apply forallb_forall. intros x Hx. apply in_map_iff in Hx as (e & <- & He).
    rewrite List.Forall_forall in Hval. by apply Hval.
  - apply forallb_forall. rewrite List.Forall_forall in Hsub. apply Hsub.
Qed.

Lemma update_entry_names (x : string) (c : node) (es : list (string * node)) :
  map fst (Fs.update_entry x c es) = map fst es.
Proof.
  induction es as [|[y m] es IH]; simpl; [done|].
  destruct (String.eqb y x); simpl; [done|by rewrite IH].
Qed.

Lemma update_entry_Forall (P : node -> Prop) (x : string) (c : node)
    (es : list (string * node)) :
  P c -> Forall (fun e => P (snd e)) es ->
  Forall (fun e => P (snd e)) (Fs.update_entry x c es).
Proof.
  intros Hc. induction 1 as [|[y m] es Hm Hes IH]; simpl; [constructor|].
  destruct (String.eqb y x); by constructor.
Qed.

Lemma wf_update_entry (x : string) (c : node) (es : list (string * node)) :
  Wf.wf (Dir es) = true -> Wf.wf c = true ->
  Wf.wf (Dir (Fs.update_entry x c es)) = true.
Proof.
  intros (Hnd & Hval & Hsub)%wf_Dir Hc. apply wf_Dir_intro.
  - by rewrite update_entry_names.
  - apply List.Forall_forall. intros e He.
    assert (In (fst e) (map fst es)) as Hin.
    { rewrite <- (update_entry_names x c). by apply in_map. }
    apply in_map_iff in Hin as (e' & <- & He').
    rewrite List.Forall_forall in Hval. by apply Hval.
  - by apply (update_entry_Forall (fun n => Wf.wf n = true)).
Qed.

Lemma remove_entry_sublist (x : string) (es : list (string * node)) :
  sublist (Fs.remove_entry x es) es.
Proof.
  induction es as [|[y m] es IH]; simpl; [done|].
  destruct (String.eqb y x); [by apply sublist_cons|by apply sublist_skip].
Qed.

Lemma Forall_of_sublist {A} (P : A -> Prop) (l1 l2 : list A) :
  sublist l1 l2 -> Forall P l2 -> Forall P l1.
Proof.
  induction 1 as [|x l1 l2 _ IH|x l1 l2 _ IH]; [done|..];
    intros [Hx Hl]%Forall_cons; [constructor|]; auto.
Qed.

Lemma wf_remove_entry (x : string) (es : list (string * node)) :
  Wf.wf (Dir es) = true -> Wf.wf (Dir (Fs.remove_entry x es)) = true.
Proof.
  intros (Hnd & Hval & Hsub)%wf_Dir.
  pose proof (remove_entry_sublist x es) as Hsl. apply wf_Dir_intro.
  - assert (sublist (map fst (Fs.remove_entry x es)) (map fst es)) as Hs.
    { change (map ?g ?l) with (g <$> l). by apply fmap_sublist. }
    by apply (sublist_NoDup _ (map fst es)).
  - by apply (Forall_of_sublist _ _ es).
  - by apply (Forall_of_sublist _ _ es).
Qed.

Lemma lookup_entry_remove_eq (x : string) (es : list (string * node)) :
  NoDup (map fst es) -> Fs.lookup_entry x (Fs.remove_entry x es) = None.
Proof.
  induction es as [|[y m] es IH]; simpl; [done|].
  intros [Hy Hnd]%NoDup_cons.
  destruct (String.eqb_spec y x) as [->|Hne]; simpl.
  - by apply lookup_entry_None.
  - destruct (String.eqb_spec y x); [done|by apply IH].
Qed.

Lemma lookup_entry_remove_ne (x y : string) (es : list (string * node)) :
  x <> y -> Fs.lookup_entry y (Fs.remove_entry x es) = Fs.lookup_entry y es.
Proof.
  intros Hne. induction es as [|[z m] es IH]; simpl; [done|].
  destruct (String.eqb_spec z x) as [->|Hzx]; simpl.
  - by destruct (String.eqb_spec x y).
  - by rewrite IH.
Qed.

Lemma unlink_at_deeper (es : list (string * node)) (x y : string)
    (f : path) :
  Os.unlink_at (Dir es) (x :: y :: f)
  = match Fs.lookup_entry x es with
    | None => Raise FileNotFoundError
    | Some c =>
        c' <-? Os.unlink_at c (y :: f); Ok (Dir (Fs.update_entry x c' es))
    end.
Proof. done. Qed.

(** Unlinking a regular file: it is gone, every other regular file and
    every directory is still there, and nothing new appears. *)
Lemma unlink_file (f : path) :
  forall fs c,
    f <> [] -> Wf.wf fs = true -> Fs.resolve_node fs f = Ok (File c) ->
    exists fs',
      Os.unlink_at fs f = Ok fs'
      /\ Wf.wf fs' = true
      /\ Fs.lookup fs' f = None
      /\ (forall q c', q <> f -> Fs.resolve_node fs q = Ok (File c') ->
                       Fs.resolve_node fs' q = Ok (File c'))
      /\ (forall q es, Fs.resolve_node fs q = Ok (Dir es) ->
                       exists es', Fs.resolve_node fs' q = Ok (Dir es'))
      /\ (forall q, Fs.lookup fs q = None -> Fs.lookup fs' q = None).
Proof.
  induction f as [|x f IH]; intros fs c Hne Hwf Hres; [done|].
  simpl in Hres. destruct fs as [c0|es]; [done|].
  destruct (Fs.lookup_entry x es) as [c0|] eqn:Hx; [|done].
  pose proof Hwf as (Hnd & Hval & Hsub)%wf_Dir.
  destruct f as [|y f].
  - simpl in Hres. injection Hres as ->. simpl. rewrite Hx.
    eexists. split_and!; [done|by apply wf_remove_entry|..].
    + unfold Fs.lookup. simpl. by rewrite lookup_entry_remove_eq.
    + intros [|z q] c' Hq; simpl; [done|].
      destruct (String.eqb_spec x z) as [<-|Hxz].
      * rewrite Hx. destruct q; [done|done].
      * by rewrite lookup_entry_remove_ne.
    + intros [|z q] es0; simpl; [by eauto|].
      destruct (String.eqb_spec x z) as [<-|Hxz].
      * rewrite Hx. destruct q; done.
      * rewrite lookup_entry_remove_ne by done. eauto.
    + intros [|z q]; unfold Fs.lookup; simpl; [done|].
      destruct (String.eqb_spec x z) as [<-|Hxz].
      * by rewrite lookup_entry_remove_eq.
      * by rewrite lookup_entry_remove_ne.
  - assert (Wf.wf c0 = true) as Hwf0.
    { rewrite List.Forall_forall in Hsub.
      apply lookup_entry_Some, list_elem_of_In in Hx. apply (Hsub _ Hx). }
    destruct (IH c0 c) as (c0' & Hun & Hwf' & Hgone & Hfiles & Hdirs & Hnone);
      [done|done|done|].
    rewrite unlink_at_deeper, Hx, Hun. cbn [rbind].
    eexists. split_and!; [done|by apply wf_update_entry|..].
    + unfold Fs.lookup in *. cbn [Fs.resolve_node].
      by rewrite (lookup_entry_update_eq x c0 c0' es Hx).
    + intros [|z q] c' Hq; cbn [Fs.resolve_node]; [done|].
      destruct (String.eqb_spec x z) as [<-|Hxz].
      * rewrite Hx, (lookup_entry_update_eq x c0 c0' es Hx).
        apply Hfiles. congruence.
      * by rewrite lookup_entry_update_ne.
    + intros [|z q] es0; cbn [Fs.resolve_node]; [by eauto|].
      destruct (String.eqb_spec x z) as [<-|Hxz].
      * rewrite Hx, (lookup_entry_update_eq x c0 c0' es Hx). apply Hdirs.
      * rewrite lookup_entry_update_ne by done. eauto.
    + intros [|z q]; unfold Fs.lookup in *; cbn [Fs.resolve_node]; [done|].
      destruct (String.eqb_spec x z) as [<-|Hxz].
      * rewrite Hx, (lookup_entry_update_eq x c0 c0' es Hx). apply Hnone.
      * by rewrite lookup_entry_update_ne.
Qed.

End Unlinking.

Section Deleting.

Variable glob_match : string -> path -> bool.

Lemma delete_loop_files (files : list path) :
  forall fs count,
    Wf.wf fs = true -> NoDup files -> Forall (fun f => f <> []) files ->
    Forall (fun f => exists c, Fs.resolve_node fs f = Ok (File c)) files ->
    exists fs',
      delete_loop files count fs = (Ok (count + length files)%nat, fs')
      /\ Wf.wf fs' = true
      /\ (forall f, f ∈ files -> Fs.lookup fs' f = None)
      /\ (forall q c, q ∉ files -> Fs.resolve_node fs q = Ok (File c) ->
                      Fs.resolve_node fs' q = Ok (File c))
      /\ (forall q es, Fs.resolve_node fs q = Ok (Dir es) ->
                       exists es', Fs.resolve_node fs' q = Ok (Dir es'))
      /\ (forall q, Fs.lookup fs q = None -> Fs.lookup fs' q = None).
Proof.
  induction files as [|f files IH]; intros fs count Hwf Hnd Hne Hfiles.
  - exists fs. simpl. unfold ret. rewrite Nat.add_0_r.
    split_and!; try done; [by inversion 1|by eauto].
  - apply NoDup_cons in Hnd as [Hf Hnd].
    apply Forall_cons in Hne as [Hfne Hne].
    apply Forall_cons in Hfiles as [[c Hc] Hfiles].
    destruct (unlink_file f fs c Hfne Hwf Hc)
      as (fs1 & Hun & Hwf1 & Hgone & Hframe & Hdirs & Hnone).
    destruct (IH fs1 (count + 1)%nat Hwf1 Hnd Hne)
      as (fs' & Hloop & Hwf' & Hgone' & Hframe' & Hdirs' & Hnone').
    { apply List.Forall_forall. intros g Hg.
      rewrite List.Forall_forall in Hfiles. destruct (Hfiles g Hg) as [cg Hcg].
      exists cg. apply Hframe; [|done].
      intros ->. by apply Hf, list_elem_of_In. }
    exists fs'. split_and!.
    + simpl. unfold bind, unlink, update. rewrite Hun, Hloop.
      do 2 f_equal. lia.
    + done.
    + intros g [->|Hg]%elem_of_cons; [by apply Hnone'|by apply Hgone'].
    + intros q cq [Hqf Hq]%not_elem_of_cons Hres.
      apply Hframe'; [done|]. by apply Hframe.
    + intros q es Hres. destruct (Hdirs q es Hres) as [es1 Hes1].
      by apply (Hdirs' q es1).
    + intros q Hq. by apply Hnone', Hnone.
Qed.

(** X9: when every match is a regular file and the deletion is not
    declined, [delete_files] returns the number of matches; afterwards
    no match exists, every other regular file is unchanged, every
    directory is still a directory and nothing new exists. *)
Theorem delete_files_removes (input : list string -> string -> string)
    (self : ProjectManager) (pattern : string) (confirm : bool) (fs : node) :
  Wf.wf fs = true ->
  Forall (fun f => exists c, Fs.lookup fs f = Some (File c))
    (find_files glob_match fs self pattern None) ->
  confirm = false
  \/ (forall printed prompt, Str.lower (input printed prompt) = "y") ->
  exists fs',
    delete_files glob_match input self pattern confirm fs
    = (Ok (length (find_files glob_match fs self pattern None)), fs')
    /\ Wf.wf fs' = true
    /\ (forall f, f ∈ find_files glob_match fs self pattern None ->
                  Fs.lookup fs' f = None)
    /\ (forall q c, q ∉ find_files glob_match fs self pattern None ->
                    Fs.lookup fs q = Some (File c) ->
                    Fs.lookup fs' q = Some (File c))
    /\ (forall q es, Fs.lookup fs q = Some (Dir es) ->
                     exists es', Fs.lookup fs' q = Some (Dir es'))
    /\ (forall q, Fs.lookup fs q = None -> Fs.lookup fs' q = None).
Proof.
  intros Hwf Hfiles Hyes.
  destruct (find_files_listing glob_match fs self pattern Hwf)
    as (_ & Hnd & Hchar).
  pose proof (find_files_under glob_match fs self pattern) as Hunder.
  set (files := find_files glob_match fs self pattern None) in *.
  destruct (delete_loop_files files fs 0%nat Hwf Hnd)
    as (fs' & Hloop & Hwf' & Hgone & Hframe & Hdirs & Hnone).
  { apply List.Forall_forall. intros f Hf%list_elem_of_In%Hchar.
    destruct Hf as (rel & n & -> & Hne & _).
    by destruct (project_path self), rel. }
  { eapply Forall_impl; [exact Hfiles|]. intros f [c Hc]. exists c.
    by apply lookup_Some. }
  simpl in Hloop. exists fs'. split_and!; try done.
  - unfold delete_files, bind at 1, query. fold files.
    destruct files as [|f0 l] eqn:Hl.
    { simpl in Hloop. unfold ret in *. by injection Hloop as <-. }
    unfold bind at 1. destruct confirm.
    + destruct Hyes as [?|Hyes]; [done|].
      unfold bind at 1, query.
      destruct (announce_under (project_path self) (f0 :: l) Hunder)
        as [printed ->].
      unfold ret. rewrite Hyes. exact Hloop.
    + unfold ret. exact Hloop.
  - intros q c Hq Hres%lookup_Some. apply lookup_Some. by apply Hframe.
  - intros q es Hres%lookup_Some.
    destruct (Hdirs q es Hres) as [es' Hes']. exists es'.
    by apply lookup_Some.
Qed.

End Deleting.

(** Deleting the two [.py] files of the sample project, after the
    answer [Y]. *)
Lemma delete_files_removes_witness :
  exists fs',
    delete_files name_match (fun _ _ => "Y") sample_pm "*.py" true sample_fs
    = (Ok 2%nat, fs')
    /\ Fs.lookup fs' ["home"; "proj"; "src"; "module.py"] = None
    /\ Fs.lookup fs' ["home"; "proj"; "config.json"]
       = Some (File [x7b; x7d]).
Proof.
  destruct (delete_files_removes name_match (fun _ _ => "Y") sample_pm "*.py"
              true sample_fs eq_refl)
    as (fs' & Hdel & _ & Hgone & Hframe & _).
  - repeat constructor; by eexists.
  - right. reflexivity.
  - exists fs'. split_and!.
    + exact Hdel.
    + apply Hgone. apply (bool_decide_unpack _). by vm_compute.
    + apply Hframe; [|reflexivity]. apply (bool_decide_unpack _).
      by vm_compute.
Defined.

(** ** Copying, with base names that may repeat *)

Section Putting.

Lemma lookup_entry_put_eq (e : string * node) (es : list (string * node)) :
  Fs.lookup_entry (fst e) (put_entry e es) = Some (snd e).
Proof.
  unfold put_entry. destruct (Fs.lookup_entry (fst e) es) as [c|] eqn:He.
  - by apply (lookup_entry_update_eq _ c).
  - rewrite lookup_entry_app, He. destruct e as [x n]. simpl.
    by rewrite String.eqb_refl.
Qed.

Lemma lookup_entry_put_ne (e : string * node) (es : list (string * node))
    (y : string) :
  fst e <> y -> Fs.lookup_entry y (put_entry e es) = Fs.lookup_entry y es.
Proof.
  intros Hne. unfold put_entry.
  destruct (Fs.lookup_entry (fst e) es) as [c|] eqn:He.
  - by apply lookup_entry_update_ne.
  - rewrite lookup_entry_app. destruct (Fs.lookup_entry y es); [done|].
    destruct e as [x n]. simpl in *. by destruct (String.eqb_spec x y).
Qed.

Lemma put_entry_names (e : string * node) (es : list (string * node)) :
  map fst (put_entry e es)
  = match Fs.lookup_entry (fst e) es with
    | Some _ => map fst es
    | None => map fst es ++ [fst e]
    end.
Proof.
  unfold put_entry. destruct (Fs.lookup_entry (fst e) es).
  - apply update_entry_names.
  - by rewrite map_app.
Qed.

Lemma put_entry_NoDup (e : string * node) (es : list (string * node)) :
  NoDup (map fst es) -> NoDup (map fst (put_entry e es)).
Proof.
  intros Hnd. rewrite put_entry_names.
  destruct (Fs.lookup_entry (fst e) es) eqn:He; [done|].
  apply NoDup_app. split_and!; [done| |apply NoDup_singleton].
  intros x Hx ->%list_elem_of_singleton. by apply lookup_entry_None in He.
Qed.

Lemma put_entry_files (e : string * node) (es : list (string * node)) :
  Fs.is_file (snd e) = true ->
  Forall (fun e' => Fs.is_file (snd e') = true) es ->
  Forall (fun e' => Fs.is_file (snd e') = true) (put_entry e es).
Proof.
  intros He Hes. unfold put_entry. destruct (Fs.lookup_entry (fst e) es).
  - by apply (update_entry_Forall (fun n => Fs.is_file n = true)).
  - apply Forall_app. split; [done|by constructor].
Qed.

Lemma elem_of_put_entry_names (e : string * node) (es : list (string * node))
    (x : string) :
  x ∈ map fst (put_entry e es) <-> x = fst e \/ x ∈ map fst es.
Proof.
  rewrite put_entry_names.
  destruct (Fs.lookup_entry (fst e) es) as [c|] eqn:He.
  - split; [by right|]. intros [->|?]; [|done].
    apply lookup_entry_Some in He.
    change (map fst es) with (fst <$> es). apply list_elem_of_fmap.
    by exists (fst e, c).
  - rewrite elem_of_app, list_elem_of_singleton. tauto.
Qed.

Variable fs : node.

Lemma copied_listing_cons (f : path) (files : list path)
    (es : list (string * node)) :
  copied_listing fs (f :: files) es
  = copied_listing fs files (put_entry (copied_entry fs f) es).
Proof. done. Qed.

Lemma copied_listing_app (pre post : list path) (es : list (string * node)) :
  copied_listing fs (pre ++ post) es
  = copied_listing fs post (copied_listing fs pre es).
Proof. unfold copied_listing. apply fold_left_app. Qed.

Lemma copied_listing_snoc (files : list path) (f : path)
    (es : list (string * node)) :
  copied_listing fs (files ++ [f]) es
  = put_entry (copied_entry fs f) (copied_listing fs files es).
Proof. unfold copied_listing. by rewrite fold_left_app. Qed.

Lemma copied_listing_keep (files : list path) (es : list (string * node))
    (x : string) :
  x ∉ map Fs.name files ->
  Fs.lookup_entry x (copied_listing fs files es) = Fs.lookup_entry x es.
Proof.
  revert es. induction files as [|f files IH]; intros es Hx; [done|].
  simpl in Hx. apply not_elem_of_cons in Hx as [Hxf Hx].
  rewrite copied_listing_cons, IH by done.
  apply lookup_entry_put_ne. simpl. congruence.
Qed.

Lemma copied_listing_last (pre post : list path) (f : path)
    (es : list (string * node)) :
  Fs.name f ∉ map Fs.name post ->
  Fs.lookup_entry (Fs.name f) (copied_listing fs (pre ++ f :: post) es)
  = Some (snd (copied_entry fs f)).
Proof.
  intros Hlast.
  rewrite copied_listing_app, copied_listing_cons, copied_listing_keep
    by done.
  apply (lookup_entry_put_eq (copied_entry fs f)).
Qed.

Lemma copied_listing_NoDup (files : list path) (es : list (string * node)) :
  NoDup (map fst es) -> NoDup (map fst (copied_listing fs files es)).
Proof.
  revert es. induction files as [|f files IH]; intros es Hnd; [done|].
  rewrite copied_listing_cons. apply IH. by apply put_entry_NoDup.
Qed.

Lemma elem_of_copied_listing_names (files : list path)
    (es : list (string * node)) (x : string) :
  x ∈ map fst (copied_listing fs files es)
  <-> x ∈ map Fs.name files \/ x ∈ map fst es.
Proof.
  revert es. induction files as [|f files IH]; intros es.
  - simpl. split; [by right|]. by intros [H|H]; [inversion H|].
  - rewrite copied_listing_cons, IH, elem_of_put_entry_names. simpl.
    rewrite elem_of_cons. tauto.
Qed.

End Putting.

Section Overwriting.

(** Writing a file into a directory whose entry of that name, if any,
    is a regular file: the listing changes as [put_entry] says, and
    every other regular file is as before. *)
Lemma write_file (dest : path) (nm : string) (data : list byte) :
  forall fs es,
    Fs.resolve_node fs dest = Ok (Dir es) ->
    Forall (fun e => Fs.is_file (snd e) = true) es ->
    exists fs',
      Os.write_at fs (dest ++ [nm]) data = Ok fs'
      /\ Fs.resolve_node fs' dest = Ok (Dir (put_entry (nm, File data) es))
      /\ forall q c,
           q <> dest ++ [nm] ->
           Fs.resolve_node fs q = Ok (File c) ->
           Fs.resolve_node fs' q = Ok (File c).
Proof.
  induction dest as [|d dest IH]; intros fs es Hdest Hfiles; simpl in *.
  - injection Hdest as ->. unfold put_entry. simpl.
    destruct (Fs.lookup_entry nm es) as [c0|] eqn:Hnm.
    + assert (Fs.is_file c0 = true) as Hc0.
      { rewrite List.Forall_forall in Hfiles.
        apply lookup_entry_Some, list_elem_of_In in Hnm.
        apply (Hfiles _ Hnm). }
      destruct c0 as [c0|]; [|done]. simpl.
      eexists. split_and!; [done..|].
      intros [|x q] c Hq; simpl; [done|].
      destruct (String.eqb_spec nm x) as [<-|Hne].
      * rewrite Hnm. destruct q; [done|done].
      * by rewrite lookup_entry_update_ne.
    + eexists. split_and!; [done..|].
      intros [|x q] c _; simpl; [done|]. rewrite lookup_entry_app.
      by destruct (Fs.lookup_entry x es).
  - destruct fs as [c0|es0]; [done|].
    destruct (Fs.lookup_entry d es0) as [c0|] eqn:Hd; [|done].
    destruct (IH c0 es Hdest Hfiles) as (c0' & -> & Hdest' & Hframe). simpl.
    eexists. split_and!; [done| |].
    + simpl. by rewrite (lookup_entry_update_eq d c0 c0' es0 Hd).
    + intros [|x q] c Hq; simpl; [done|].
      destruct (String.eqb_spec d x) as [Heq|Hne].
      * subst x. rewrite Hd, (lookup_entry_update_eq d c0 c0' es0 Hd).
        apply Hframe. congruence.
      * by rewrite lookup_entry_update_ne.
Qed.

Variable glob_match : string -> path -> bool.
Variable dest : path.

(** The loop of [copy_files] over regular files, none of which lies
    directly in the destination. *)
Lemma copy_loop_any (files : list path) :
  forall fs es count,
    Fs.resolve_node fs dest = Ok (Dir es) ->
    Forall (fun e => Fs.is_file (snd e) = true) es ->
    Forall (fun f => exists c, Fs.resolve_node fs f = Ok (File c)) files ->
    Forall (fun f => forall nm, f <> dest ++ [nm]) files ->
    exists fs',
      copy_loop dest files count fs = (Ok (count + length files)%nat, fs')
      /\ Fs.resolve_node fs' dest = Ok (Dir (copied_listing fs files es))
      /\ forall q c,
           (forall nm, q <> dest ++ [nm]) ->
           Fs.resolve_node fs q = Ok (File c) ->
           Fs.resolve_node fs' q = Ok (File c).
Proof.
  induction files as [|f files IH];
    intros fs es count Hdest Hes Hfiles Hout.
  - exists fs. simpl. unfold ret. by rewrite Nat.add_0_r.
  - apply Forall_cons in Hfiles as [[c Hf] Hfiles].
    apply Forall_cons in Hout as [Hfout Hout].
    destruct (write_file dest (Fs.name f) c fs es Hdest Hes)
      as (fs1 & Hwrite & Hdest1 & Hframe).
    assert (Forall (fun g => exists c, Fs.resolve_node fs1 g = Ok (File c))
              files) as Hfiles1.
    { apply List.Forall_forall. intros g Hg.
      rewrite List.Forall_forall in Hfiles, Hout.
      destruct (Hfiles g Hg) as [cg Hcg]. exists cg.
      apply Hframe; [apply (Hout g Hg)|done]. }
    destruct (IH fs1 (put_entry (Fs.name f, File c) es) (count + 1)%nat)
      as (fs' & Hloop & Hdest' & Hframe'); [done| |done|done|].
    { by apply put_entry_files. }
    exists fs'. split_and!.
    + simpl. unfold bind at 1, copy_one, bind, read_bytes, query,
        write_bytes, update, Os.read_at. rewrite Hf. simpl. rewrite Hwrite.
      rewrite Hloop. do 2 f_equal. lia.
    + rewrite Hdest'. do 2 f_equal. rewrite copied_listing_cons.
      assert (copied_entry fs f = (Fs.name f, File c)) as ->.
      { unfold copied_entry. by rewrite Hf. }
      generalize (put_entry (Fs.name f, File c) es). intros es1.
      clear -Hfiles Hout Hframe. revert es1.
      induction files as [|g files IHg]; intros es1; [done|].
      apply Forall_cons in Hfiles as [[cg Hcg] Hfiles].
      apply Forall_cons in Hout as [Hgout Hout].
      rewrite !copied_listing_cons.
      assert (copied_entry fs1 g = copied_entry fs g) as ->.
      { unfold copied_entry. by rewrite Hcg, (Hframe g cg (Hgout _) Hcg). }
      by apply IHg.
    + intros q cq Hq Hres. apply Hframe'; [done|]. by apply Hframe.
Qed.

(** X10: when the destination, once it exists, is an empty directory
    and the matches are regular files, [copy_files] returns the number
    of matches and leaves them as they were; the destination then
    holds, for every base name among the matches, the content of the
    last match of that name, and nothing else, that is as many files
    as there are distinct base names. *)
Theorem copy_files_last_wins (self : ProjectManager) (pattern : string)
    (create_dirs : bool) (fs fs1 : node) :
  (if create_dirs then mkdir dest else ret tt) fs = (Ok tt, fs1) ->
  Fs.lookup fs1 dest = Some (Dir []) ->
  Forall (fun f => exists c, Fs.lookup fs1 f = Some (File c))
    (find_files glob_match fs1 self pattern None) ->
  exists fs' es,
    copy_files glob_match self pattern dest create_dirs fs
    = (Ok (length (find_files glob_match fs1 self pattern None)), fs')
    /\ (forall f,
          f ∈ find_files glob_match fs1 self pattern None ->
          Fs.lookup fs' f = Fs.lookup fs1 f)
    /\ (forall pre f post,
          find_files glob_match fs1 self pattern None = pre ++ f :: post ->
          Fs.name f ∉ map Fs.name post ->
          Fs.lookup fs' (dest ++ [Fs.name f]) = Fs.lookup fs1 f)
    /\ Fs.lookup fs' dest = Some (Dir es)
    /\ Forall (fun e => Fs.is_file (snd e) = true) es
    /\ (forall nm,
          nm ∈ map fst es
          <-> nm ∈ map Fs.name (find_files glob_match fs1 self pattern None))
    /\ length es
       = length (remove_dups
                   (map Fs.name (find_files glob_match fs1 self pattern None))).
Proof.
  set (files := find_files glob_match fs1 self pattern None).
  intros Hprep Hdest%lookup_Some Hfiles.
  assert (Forall (fun f => exists c, Fs.resolve_node fs1 f = Ok (File c))
            files) as Hfiles'.
  { eapply Forall_impl; [exact Hfiles|]. intros f [c Hc]. exists c.
    by apply lookup_Some. }
  assert (Forall (fun f => forall nm, f <> dest ++ [nm]) files) as Hout.
  { apply List.Forall_forall. intros f Hf nm ->.
    rewrite List.Forall_forall in Hfiles'. destruct (Hfiles' _ Hf) as [c Hc].
    rewrite resolve_node_app, Hdest in Hc. done. }
  destruct (copy_loop_any files fs1 [] 0%nat Hdest) as (fs' & Hloop & Hdest' & Hframe);
    [constructor|done|done|].
  simpl in Hloop.
  exists fs', (copied_listing fs1 files []). split_and!.
  - unfold copy_files, bind at 1. rewrite Hprep.
    unfold bind at 1, query. fold files. exact Hloop.
  - intros f Hf%list_elem_of_In.
    rewrite List.Forall_forall in Hfiles', Hout.
    destruct (Hfiles' f Hf) as [c Hc]. unfold Fs.lookup.
    by rewrite Hc, (Hframe f c (Hout f Hf) Hc).
  - intros pre f post Heq Hlast. unfold Fs.lookup at 1.
    rewrite resolve_node_app, Hdest'. simpl. rewrite Heq.
    rewrite copied_listing_last by done. unfold copied_entry. simpl.
    assert (In f files) as Hf.
    { rewrite Heq. apply in_app_iff. right. by left. }
    rewrite List.Forall_forall in Hfiles'. destruct (Hfiles' f Hf) as [c Hc].
    unfold Fs.lookup. by rewrite Hc.
  - by apply lookup_Some.
  - clear -Hfiles'. unfold copied_listing.
    assert (Forall (fun e : string * node => Fs.is_file (snd e) = true) [])
      as Hnil by constructor.
    revert Hnil. generalize (@nil (string * node)).
    induction files as [|f files IH]; intros es Hes; [done|].
    apply Forall_cons in Hfiles' as [[c Hc] Hfiles']. simpl.
    apply IH; [done|]. apply put_entry_files; [|done].
    unfold copied_entry. simpl. by rewrite Hc.
  - intros nm. rewrite elem_of_copied_listing_names. simpl.
    split; [intros [?|H]; [done|inversion H]|by left].
  - rewrite <- (length_map fst). apply Permutation_length.
    apply NoDup_Permutation.
    + apply copied_listing_NoDup. constructor.
    + apply NoDup_remove_dups.
    + intros nm. rewrite elem_of_copied_listing_names, elem_of_remove_dups.
      simpl. split; [intros [?|H]; [done|inversion H]|by left].
Qed.

End Overwriting.

(** Copying [*.py] where [a/x.py] and [b/x.py] both match: the count is
    2, the destination holds one file, with the content of [b/x.py]. *)
Lemma copy_files_last_wins_witness :
  exists fs' es,
    copy_files name_match twin_pm "*.py" ["out"] true twin_fs = (Ok 2%nat, fs')
    /\ Fs.lookup fs' ["out"; "x.py"] = Some (File [x62])
    /\ Fs.lookup fs' ["proj"; "a"; "x.py"] = Some (File [x61])
    /\ Fs.lookup fs' ["out"] = Some (Dir es)
    /\ length es = 1%nat.
Proof.
  destruct (copy_files_last_wins name_match ["out"] twin_pm "*.py" true
              twin_fs
              (Dir (match twin_fs with
                    | Dir es => es ++ [("out", Dir [])]
                    | File _ => []
                    end)))
    as (fs' & es & Hcopy & Hsrc & Hlast & Hdest & _ & _ & Hlen).
  - reflexivity.
  - reflexivity.
  - repeat constructor; by eexists.
  - exists fs', es. split_and!.
    + exact Hcopy.
    + apply (Hlast [["proj"; "a"; "x.py"]] ["proj"; "b"; "x.py"] []).
      * reflexivity.
      * by inversion 1.
    + apply (Hsrc ["proj"; "a"; "x.py"]).
      apply (bool_decide_unpack _). by vm_compute.
    + exact Hdest.
    + exact Hlen.
Defined.

(** ** Copying: the destination and the first match *)

Section CopyEdges.

Lemma write_at_missing_dir (dest : path) (nm : string) (data : list byte) :
  forall fs e,
    Fs.resolve_node fs dest = Raise e ->
    Os.write_at fs (dest ++ [nm]) data = Raise e.
Proof.
  induction dest as [|d dest IH]; intros fs e; simpl; [done|].
  destruct fs as [c|es]; [done|].
  destruct (Fs.lookup_entry d es) as [c|] eqn:Hd.
  - intros Hres. by rewrite (IH c e Hres).
  - intros [= <-]. by destruct dest.
Qed.

Lemma mkdir_p_on_file (dest : path) :
  forall fs c,
    Fs.resolve_node fs dest = Ok (File c) ->
    Os.mkdir_p fs dest = Raise FileExistsError.
Proof.
  induction dest as [|d dest IH]; intros fs c; simpl.
  - by intros [= ->].
  - destruct fs as [c0|es]; [done|].
    destruct (Fs.lookup_entry d es) as [c0|]; [|done].
    intros Hres. by rewrite (IH c0 c Hres).
Qed.

Lemma update_entry_same (x : string) (c : node) (es : list (string * node)) :
  Fs.lookup_entry x es = Some c -> Fs.update_entry x c es = es.
Proof.
  induction es as [|[y m] es IH]; simpl; [done|].
  destruct (String.eqb_spec y x) as [->|Hne].
  - by intros [= ->].
  - intros Hx. by rewrite IH.
Qed.

Lemma mkdir_p_on_dir (dest : path) :
  forall fs es,
    Fs.resolve_node fs dest = Ok (Dir es) -> Os.mkdir_p fs dest = Ok fs.
Proof.
  induction dest as [|d dest IH]; intros fs es; simpl.
  - by intros [= ->].
  - destruct fs as [c0|es0]; [done|].
    destruct (Fs.lookup_entry d es0) as [c0|] eqn:Hd; [|done].
    intros Hres. rewrite (IH c0 es Hres). simpl.
    by rewrite update_entry_same.
Qed.

Variable glob_match : string -> path -> bool.

(** X11: the edges of [copy_files].  Without a match it returns 0 and
    does no more than create the destination; a destination that is a
    regular file makes [create_dirs] raise [FileExistsError]; for a
    destination that is a directory [create_dirs] changes nothing;
    without [create_dirs] a destination that cannot be reached raises
    the error of reaching it at the first file; and a first match that
    is a directory raises [IsADirectoryError].  In each failure
    nothing has been copied. *)
Theorem copy_files_edges (self : ProjectManager) (pattern : string)
    (dest : path) (fs : node) :
  (forall (create_dirs : bool) fs1,
      (if create_dirs then mkdir dest else ret tt) fs = (Ok tt, fs1) ->
      find_files glob_match fs1 self pattern None = [] ->
      copy_files glob_match self pattern dest create_dirs fs = (Ok 0%nat, fs1))
  /\ (forall c,
        Fs.lookup fs dest = Some (File c) ->
        copy_files glob_match self pattern dest true fs
        = (Raise FileExistsError, fs))
  /\ (forall es,
        Fs.lookup fs dest = Some (Dir es) ->
        copy_files glob_match self pattern dest true fs
        = copy_files glob_match self pattern dest false fs)
  /\ (forall e f rest c,
        Fs.resolve_node fs dest = Raise e ->
        find_files glob_match fs self pattern None = f :: rest ->
        Fs.lookup fs f = Some (File c) ->
        copy_files glob_match self pattern dest false fs = (Raise e, fs))
  /\ (forall (create_dirs : bool) fs1 f rest es,
        (if create_dirs then mkdir dest else ret tt) fs = (Ok tt, fs1) ->
        find_files glob_match fs1 self pattern None = f :: rest ->
        Fs.lookup fs1 f = Some (Dir es) ->
        copy_files glob_match self pattern dest create_dirs fs
        = (Raise IsADirectoryError, fs1)).
Proof.
  split_and!.
  - intros create_dirs fs1 Hprep Hnone.
    unfold copy_files, bind at 1. rewrite Hprep.
    unfold bind, query. by rewrite Hnone.
  - intros c Hdest%lookup_Some.
    unfold copy_files, bind at 1, mkdir, update.
    by rewrite (mkdir_p_on_file dest fs c).
  - intros es Hdest%lookup_Some.
    unfold copy_files, bind at 1 3, mkdir, update, ret.
    by rewrite (mkdir_p_on_dir dest fs es).
  - intros e f rest c Hdest Hfiles Hf%lookup_Some.
    unfold copy_files, bind at 1, ret. unfold bind at 1, query.
    rewrite Hfiles. simpl.
    unfold bind at 1, copy_one, bind, read_bytes, query, write_bytes, update,
      Os.read_at.
    rewrite Hf. simpl. by rewrite (write_at_missing_dir dest _ c fs e).
  - intros create_dirs fs1 f rest es Hprep Hfiles Hf%lookup_Some.
    unfold copy_files, bind at 1. rewrite Hprep.
    unfold bind at 1, query. rewrite Hfiles. simpl.
    unfold bind at 1, copy_one, bind, read_bytes, query, Os.read_at.
    by rewrite Hf.
Qed.

End CopyEdges.

Lemma copy_files_edges_witness :
  copy_files name_match sample_pm "*.rs" ["backup"] false sample_fs
  = (Ok 0%nat, sample_fs)
  /\ copy_files name_match sample_pm "*.py" ["home"; "proj"; "main.py"] true
       sample_fs
     = (Raise FileExistsError, sample_fs)
  /\ copy_files name_match sample_pm "*.py" ["backup"] false sample_fs
     = (Raise FileNotFoundError, sample_fs)
  /\ copy_files name_match sample_pm "src" ["home"; "proj"; "empty"] true
       sample_fs
     = (Raise IsADirectoryError, sample_fs).
Proof.
  destruct (copy_files_edges name_match sample_pm "*.rs" ["backup"] sample_fs)
    as (Hnone & _).
  destruct (copy_files_edges name_match sample_pm "*.py"
              ["home"; "proj"; "main.py"] sample_fs) as (_ & Hfile & _).
  destruct (copy_files_edges name_match sample_pm "*.py" ["backup"] sample_fs)
    as (_ & _ & _ & Hmissing & _).
  destruct (copy_files_edges name_match sample_pm "src"
              ["home"; "proj"; "empty"] sample_fs) as (_ & _ & _ & _ & Hdir).
  split_and!.
  - by apply (Hnone false).
  - by apply (Hfile [x70; x72; x69; x6e; x74]).
  - by apply (Hmissing FileNotFoundError ["home"; "proj"; "main.py"]
                [["home"; "proj"; "src"; "module.py"]]
                [x70; x72; x69; x6e; x74]).
  - by apply (Hdir true sample_fs ["home"; "proj"; "src"] []
                [ ("data.JSON", File [x5b; x5d]); ("module.py", File [x78]) ]).
Defined.

(** ** The tree listing: the root *)

Lemma tree_levels_succ (md : Z) :
  0 <= md -> Z.to_nat (md + 1) = S (Z.to_nat md).
Proof. lia. Qed.

(** X12: the listing is the single line of the root when [max_depth] is
    negative, when the name of the root starts with a dot, or when the
    root is an empty directory; otherwise a root that is a regular file
    raises [NotADirectoryError] and a root that cannot be reached
    raises the error of reaching it. *)
Theorem tree_of_root (fs : node) (self : ProjectManager) (md : Z) :
  (md < 0 ->
   get_project_tree fs self md = Ok (Fs.name (project_path self) +:+ "/"))
  /\ (Str.starts_with_dot (Fs.name (project_path self)) = true ->
      get_project_tree fs self md = Ok (Fs.name (project_path self) +:+ "/"))
  /\ (0 <= md ->
      Str.starts_with_dot (Fs.name (project_path self)) = false ->
      (Fs.lookup fs (project_path self) = Some (Dir []) ->
       get_project_tree fs self md
       = Ok (Fs.name (project_path self) +:+ "/"))
      /\ (forall c,
            Fs.lookup fs (project_path self) = Some (File c) ->
            get_project_tree fs self md = Raise NotADirectoryError)
      /\ (forall e,
            Fs.resolve_node fs (project_path self) = Raise e ->
            get_project_tree fs self md = Raise e)).
Proof.
  unfold get_project_tree. split_and!.
  - intros Hmd. assert (Z.to_nat (md + 1) = 0%nat) as -> by lia. done.
  - intros Hdot. destruct (Z.to_nat (md + 1)) as [|k]; simpl.
    + done.
    + by rewrite Hdot.
  - intros Hmd Hdot. rewrite tree_levels_succ by done. simpl. rewrite Hdot.
    unfold Os.iterdir. split_and!.
    + intros Hroot%lookup_Some. by rewrite Hroot.
    + intros c Hroot%lookup_Some. by rewrite Hroot.
    + intros e Hroot. by rewrite Hroot.
Qed.

Lemma tree_of_root_witness :
  get_project_tree sample_fs sample_pm (-1) = Ok "proj/"
  /\ get_project_tree sample_fs (mkProjectManager ["home"; "proj"; ".git"]) 3
     = Ok ".git/"
  /\ get_project_tree sample_fs (mkProjectManager ["home"; "proj"; "empty"]) 3
     = Ok "empty/"
  /\ get_project_tree sample_fs
       (mkProjectManager ["home"; "proj"; "main.py"]) 3
     = Raise NotADirectoryError
  /\ get_project_tree sample_fs (mkProjectManager ["home"; "gone"]) 3
     = Raise FileNotFoundError.
Proof.
  split_and!.
  - destruct (tree_of_root sample_fs sample_pm (-1)) as (H & _). apply H. lia.
  - destruct (tree_of_root sample_fs
                (mkProjectManager ["home"; "proj"; ".git"]) 3) as (_ & H & _).
    by apply H.
  - destruct (tree_of_root sample_fs
                (mkProjectManager ["home"; "proj"; "empty"]) 3)
      as (_ & _ & H).
    destruct H as (Hempty & _); [lia|done|]. by apply Hempty.
  - destruct (tree_of_root sample_fs
                (mkProjectManager ["home"; "proj"; "main.py"]) 3)
      as (_ & _ & H).
    destruct H as (_ & Hfile & _); [lia|done|].
    by apply (Hfile [x70; x72; x69; x6e; x74]).
  - destruct (tree_of_root sample_fs (mkProjectManager ["home"; "gone"]) 3)
      as (_ & _ & H).
    destruct H as (_ & _ & Hgone); [lia|done|]. by apply Hgone.
Defined.

(** ** The size format: accuracy and edges *)

Section SizeAccuracy.

Import Num.

Lemma round_half_even_near (num den : Z) :
  0 < den -> 2 * Z.abs (round_half_even num den * den - num) <= den.
Proof.
  intros Hden. unfold round_half_even.
  pose proof (Z.div_mod num den) as Hdm.
  pose proof (Z.mod_pos_bound num den Hden) as Hr.
  destruct (Z.compare_spec (2 * (num mod den)) den) as [Heq|Hlt|Hgt].
  - destruct (Z.even (num / den)); nia.
  - nia.
  - nia.
Qed.

Lemma round_half_even_range (num den bound : Z) :
  0 < den -> 0 <= num -> num <= bound * den ->
  0 <= round_half_even num den <= bound.
Proof.
  intros Hden Hnum Hle. unfold round_half_even.
  pose proof (Z.div_mod num den) as Hdm.
  pose proof (Z.mod_pos_bound num den Hden) as Hr.
  assert (0 <= num / den) by (apply Z.div_pos; lia).
  assert (num / den <= bound) as Hq.
  { apply Z.div_le_upper_bound; lia. }
  destruct (Z.compare_spec (2 * (num mod den)) den) as [Heq|Hlt|Hgt].
  - destruct (Z.even (num / den)); [lia|]. nia.
  - lia.
  - nia.
Qed.

Lemma string_append_assoc (a b c : string) :
  (a +:+ b) +:+ c = a +:+ (b +:+ c).
Proof.
  induction a as [|x a IH]; [done|].
  change (String x ((a +:+ b) +:+ c) = String x (a +:+ (b +:+ c))).
  by rewrite IH.
Qed.

Lemma unit_index_bounds (size : Z) :
  0 <= size ->
  let k := unit_index size in
  (k < 4)%nat -> size < 1024 * 1024 ^ Z.of_nat k.
Proof.
  intros Hsize. unfold unit_index.
  repeat (case_match; [simpl; lia|]). simpl. lia.
Qed.

Lemma format_size_bytes (size : Z) :
  0 <= size < 1024 -> _format_size size = Ok (pretty size +:+ ".0 B").
Proof.
  intros Hsize. rewrite format_size_exact by lia.
  unfold format_size_spec, unit_index.
  destruct (Z.ltb_spec size 1024); [|lia].
  unfold one_decimal, round_half_even. change (1024 ^ Z.of_nat 0) with 1.
  rewrite Z.div_1_r, Z.mod_1_r. simpl (2 * 0 ?= 1).
  cbv iota.
  replace (10 * size / 10) with size by (rewrite Z.mul_comm, Z.div_mul; lia).
  replace ((10 * size) mod 10) with 0
    by (rewrite Z.mul_comm, Z.mod_mul; lia).
  f_equal. unfold unit_name. simpl nth.
  by rewrite string_append_assoc.
Qed.

Lemma format_size_below_MB (size : Z) :
  1048525 <= size < 1048576 -> _format_size size = Ok "1024.0 KB".
Proof.
  intros Hsize. rewrite format_size_exact by lia.
  unfold format_size_spec, unit_index.
  destruct (Z.ltb_spec size 1024); [lia|].
  destruct (Z.ltb_spec size (1024 * 1024)); [|lia].
  unfold one_decimal. change (1024 ^ Z.of_nat 1) with 1024.
  pose proof (round_half_even_near (10 * size) 1024) as Hnear.
  assert (round_half_even (10 * size) 1024 = 10240) as -> by lia.
  by vm_compute.
Qed.

End SizeAccuracy.

(** X13. [_format_size] is accurate and has one anomaly at a unit
    boundary.  For a size from 0 to below 2^53 bytes the function
    returns [d.t unit] where the shown number of tenths [10 * d + t]
    differs from the exact quotient [10 * size / 1024^k] by at most one
    half ([k] the index of the unit), and, in the units B to GB, never
    exceeds 1024.0.  A size below 1024 is printed as itself followed by
    [.0 B].  The sizes from 1048525 to 1048575 bytes are printed as
    [1024.0 KB]: the test [size < 1024] is made before rounding, so the
    value shown can reach 1024.0 in a unit that was chosen because the
    quotient is below 1024. *)
Theorem format_size_accuracy :
  (forall size, 0 <= size < 2 ^ 53 ->
     let k := unit_index size in
     exists tenths,
       _format_size size
       = Ok ((pretty (tenths / 10) +:+ "." +:+ pretty (tenths mod 10))
             +:+ " " +:+ unit_name k)
       /\ 2 * Z.abs (tenths * 1024 ^ Z.of_nat k - 10 * size)
          <= 1024 ^ Z.of_nat k
       /\ 0 <= tenths
       /\ ((k < 4)%nat -> tenths <= 10240))
  /\ (forall size, 0 <= size < 1024 ->
        _format_size size = Ok (pretty size +:+ ".0 B"))
  /\ (forall size, 1048525 <= size < 1048576 ->
        _format_size size = Ok "1024.0 KB").
Proof.
  split; [|split].
  - intros size Hsize k.
    exists (Num.round_half_even (10 * size) (1024 ^ Z.of_nat k)).
    assert (0 < 1024 ^ Z.of_nat k) as Hpos by (apply Z.pow_pos_nonneg; lia).
    split; [|split; [|split]].
    + by rewrite format_size_exact by lia.
    + by apply round_half_even_near.
    + destruct (round_half_even_range (10 * size) (1024 ^ Z.of_nat k)
                  (10 * size)) as [H _]; [lia|lia|nia|done].
    + intros Hk.
      pose proof (unit_index_bounds size (proj1 Hsize) Hk) as Hb.
      fold k in Hb.
      destruct (round_half_even_range (10 * size) (1024 ^ Z.of_nat k) 10240)
        as [_ H]; [lia|lia|lia|done].
  - apply format_size_bytes.
  - apply format_size_below_MB.
Qed.

Lemma format_size_accuracy_witness :
  _format_size 1048575 = Ok "1024.0 KB"
  /\ _format_size 1023 = Ok "1023.0 B"
  /\ exists tenths,
       _format_size 1536
       = Ok ((pretty (tenths / 10) +:+ "." +:+ pretty (tenths mod 10))
             +:+ " KB")
       /\ 2 * Z.abs (tenths * 1024 - 15360) <= 1024.
Proof.
  destruct format_size_accuracy as (Hacc & Hbytes & Hedge).
  split; [|split].
  - apply Hedge. lia.
  - apply (Hbytes 1023). lia.
  - destruct (Hacc 1536) as (tenths & Hfmt & Hnear & _); [lia|].
    exists tenths. split; [exact Hfmt|exact Hnear].
Defined.
